(** * comp4537_lab5_server: a guarded SQL gateway over SQLite

    A shallow embedding of the server (the class-based [SQLiteServer] with
    its [utils/sql] and [utils/http] helpers, and the earlier single-file
    server) together with the properties its specification states.

    Layout: the JavaScript values and built-ins the code relies on, the
    statement classifier, the HTTP helpers, the store and the programs that
    talk to it, the two servers, and then the theorems. *)

From Stdlib Require Import NArith ZArith Ascii String Lia.
From stdpp Require Import base list strings gmap.

Set Default Proof Using "Type".
Set Warnings "-register-all".

(* ================================================================== *)
(** ** JavaScript strings and the built-ins used by the server *)
(* ================================================================== *)

Module JS.

(** A JavaScript string is a sequence of UTF-16 code units. *)
Abbreviation code_unit := N (only parsing).
Abbreviation jsstring := (list N) (only parsing).

(** ASCII literals of the source, as code units. *)
Definition lit (s : string) : jsstring :=
  map N_of_ascii (String.list_ascii_of_string s).

(** [a === b] on strings. *)
Fixpoint jsstring_eqb (a b : jsstring) : bool :=
  match a, b with
  | [], [] => true
  | x :: a', y :: b' => N.eqb x y && jsstring_eqb a' b'
  | _, _ => false
  end.

Local Open Scope N_scope.

(** [WordCharacters] of a pattern without the [u] flag: [a-zA-Z0-9_]. *)
Definition isWordChar (c : code_unit) : bool :=
  ((97 <=? c) && (c <=? 122)) || ((65 <=? c) && (c <=? 90))
  || ((48 <=? c) && (c <=? 57)) || (c =? 95).

(** The code units matched by [\s] and stripped by [String.prototype.trim]:
    WhiteSpace (TAB, VT, FF, SP, NBSP, ZWNBSP and the Unicode space
    separators) and LineTerminator (LF, CR, LS, PS). *)
Definition isWhiteSpace (c : code_unit) : bool :=
  ((9 <=? c) && (c <=? 13)) || (c =? 32) || (c =? 160) || (c =? 5760)
  || ((8192 <=? c) && (c <=? 8202)) || (c =? 8232) || (c =? 8233)
  || (c =? 8239) || (c =? 8287) || (c =? 12288) || (c =? 65279).

(** [Canonicalize] of a pattern with the [i] flag and without [u]: the
    code unit is upper-cased.  Above 127 the upper-case mapping never
    yields an ASCII code unit (the language rules this out), and the
    patterns of this program contain ASCII characters only, so a code
    unit above 127 is left as it is: it compares unequal to every
    pattern character either way. *)
Definition canonicalize (c : code_unit) : code_unit :=
  if (97 <=? c) && (c <=? 122) then c - 32 else c.

Definition is_lower (c : code_unit) : bool := (97 <=? c) && (c <=? 122).

Definition word_char_opt (o : option code_unit) : bool :=
  match o with Some c => isWordChar c | None => false end.

Local Close Scope N_scope.

(** The fragment of the pattern grammar that the four patterns of the
    server are written in. *)
Inductive Pattern : Type :=
| Empty                          (* the empty alternative *)
| Char (c : code_unit)           (* a pattern character *)
| Seq (p q : Pattern)            (* p followed by q *)
| Disj (p q : Pattern)           (* p|q *)
| AssertStart                    (* ^ *)
| AssertWordBoundary             (* \b *)
| StarSpace.                     (* \s* (greedy) *)

(** A keyword, character by character. *)
Definition word (w : jsstring) : Pattern :=
  foldr (fun c p => Seq (Char c) p) Empty w.

(** [p|q1|...|qn]. *)
Fixpoint any_of (p : Pattern) (qs : list Pattern) : Pattern :=
  match qs with
  | [] => p
  | q :: qs' => Disj p (any_of q qs')
  end.

Definition alternatives (ps : list Pattern) : Pattern :=
  match ps with
  | [] => Empty
  | p :: qs => any_of p qs
  end.

(** The two shapes the server's patterns have: [\b(p1|...|pn)\b] and
    [^\s*keyword\b]. *)
Definition bounded (ps : list Pattern) : Pattern :=
  Seq AssertWordBoundary (Seq (alternatives ps) AssertWordBoundary).

Definition anchored (kw : jsstring) : Pattern :=
  Seq AssertStart (Seq StarSpace (Seq (word kw) AssertWordBoundary)).

Section Matcher.

(** The string being matched; a match state is the index [e] reached
    so far, a continuation decides whether the rest matches. *)
Variable input : jsstring.

Definition Continuation := nat -> bool.

(** [IsWordChar(e)]: false outside the string. *)
Definition wordCharAt (e : nat) : bool :=
  match input !! e with
  | Some c => isWordChar c
  | None => false
  end.

(** [\b] holds at [e] when exactly one of the code units before and
    at [e] is a word character. *)
Definition isWordBoundary (e : nat) : bool :=
  let a := match e with O => false | S e' => wordCharAt e' end in
  let b := wordCharAt e in
  xorb a b.

(** Greedy [\s*]: take one more white space and go on, and fall back
    to the continuation when that fails. [rest] is the input from
    index [e] on. *)
Fixpoint repeatSpace (rest : jsstring) (e : nat) (c : Continuation) : bool :=
  match rest with
  | ch :: rest' =>
      if isWhiteSpace ch then repeatSpace rest' (S e) c || c e else c e
  | [] => c e
  end.

(** The backtracking matcher, with the [i] flag. *)
Fixpoint matcher (p : Pattern) (e : nat) (c : Continuation) : bool :=
  match p with
  | Empty => c e
  | Char ch =>
      match input !! e with
      | Some x =>
          if N.eqb (canonicalize x) (canonicalize ch) then c (S e) else false
      | None => false
      end
  | Seq p1 p2 => matcher p1 e (fun e' => matcher p2 e' c)
  | Disj p1 p2 => matcher p1 e c || matcher p2 e c
  | AssertStart => match e with O => c e | S _ => false end
  | AssertWordBoundary => if isWordBoundary e then c e else false
  | StarSpace => repeatSpace (drop e input) e c
  end.

(** A match attempt that starts at index [i]. *)
Definition matchesAt (p : Pattern) (i : nat) : bool :=
  matcher p i (fun _ => true).

End Matcher.

(** [RegExp.prototype.test] for a pattern without the [g] and [y] flags:
    the match is tried at every index from 0 up to the length. *)
Definition test (p : Pattern) (s : jsstring) : bool :=
  existsb (matchesAt s p) (seq 0 (S (length s))).

(** [String.prototype.trim]. *)
Fixpoint trimStart (s : jsstring) : jsstring :=
  match s with
  | c :: s' => if isWhiteSpace c then trimStart s' else s
  | [] => []
  end.

Definition trim (s : jsstring) : jsstring :=
  rev (trimStart (rev (trimStart s))).

(** Truthiness of a string: the empty string is falsy. *)
Definition truthy (s : jsstring) : bool :=
  match s with [] => false | _ :: _ => true end.

(** [s.split(sep)] for a one-character separator. *)
Fixpoint split (sep : code_unit) (s : jsstring) : list jsstring :=
  match s with
  | [] => [[]]
  | c :: s' =>
      if N.eqb c sep then [] :: split sep s'
      else match split sep s' with
           | h :: t => (c :: h) :: t
           | [] => [[c]]
           end
  end.

(** [parts.join(sep)]. *)
Fixpoint join (sep : jsstring) (parts : list jsstring) : jsstring :=
  match parts with
  | [] => []
  | [p] => p
  | p :: ps => p ++ sep ++ join sep ps
  end.

(** [s.startsWith(prefix)]. *)
Fixpoint startsWith (s prefix : jsstring) : bool :=
  match prefix, s with
  | [], _ => true
  | p :: prefix', c :: s' => N.eqb c p && startsWith s' prefix'
  | _ :: _, [] => false
  end.

(** *** [decodeURIComponent]

    The string is first cut into plain code units and escaped octets
    [%XY]; an escape that is cut short or is not hexadecimal throws.
    The octets are then read as UTF-8, well-formed sequences only, and
    every code point is written as one or two UTF-16 code units.
    [None] stands for the [URIError] the function throws. *)
Local Open Scope N_scope.

Definition hexDigit (c : code_unit) : option N :=
  if (48 <=? c) && (c <=? 57) then Some (c - 48)
  else if (65 <=? c) && (c <=? 70) then Some (c - 55)
  else if (97 <=? c) && (c <=? 102) then Some (c - 87)
  else None.

Inductive UriToken : Type :=
| Plain (c : code_unit)
| Escaped (b : N).

Fixpoint uriTokens (s : jsstring) : option (list UriToken) :=
  match s with
  | [] => Some []
  | c :: s' =>
      if c =? 37 then
        match s' with
        | h :: l :: rest =>
            match hexDigit h, hexDigit l with
            | Some a, Some b =>
                match uriTokens rest with
                | Some ts => Some (Escaped (16 * a + b) :: ts)
                | None => None
                end
            | _, _ => None
            end
        | _ => None
        end
      else
        match uriTokens s' with
        | Some ts => Some (Plain c :: ts)
        | None => None
        end
  end.

Definition between (lo hi b : N) : bool := (lo <=? b) && (b <=? hi).

(** [UTF16EncodeCodePoint]. *)
Definition utf16Encode (cp : N) : jsstring :=
  if cp <? 65536 then [cp]
  else [55296 + (cp - 65536) / 1024; 56320 + (cp - 65536) mod 1024].

Fixpoint utf8Decode (ts : list UriToken) : option jsstring :=
  match ts with
  | [] => Some []
  | Plain c :: ts' =>
      match utf8Decode ts' with Some r => Some (c :: r) | None => None end
  | Escaped b :: ts' =>
      if b <? 128 then
        match utf8Decode ts' with Some r => Some (b :: r) | None => None end
      else if between 194 223 b then
        match ts' with
        | Escaped b1 :: ts1 =>
            if between 128 191 b1 then
              match utf8Decode ts1 with
              | Some r => Some (utf16Encode ((b - 192) * 64 + (b1 - 128)) ++ r)
              | None => None
              end
            else None
        | _ => None
        end
      else if between 224 239 b then
        match ts' with
        | Escaped b1 :: Escaped b2 :: ts2 =>
            if between (if b =? 224 then 160 else 128)
                       (if b =? 237 then 159 else 191) b1
               && between 128 191 b2 then
              match utf8Decode ts2 with
              | Some r =>
                  Some (utf16Encode ((b - 224) * 4096 + (b1 - 128) * 64
                                     + (b2 - 128)) ++ r)
              | None => None
              end
            else None
        | _ => None
        end
      else if between 240 244 b then
        match ts' with
        | Escaped b1 :: Escaped b2 :: Escaped b3 :: ts3 =>
            if between (if b =? 240 then 144 else 128)
                       (if b =? 244 then 143 else 191) b1
               && between 128 191 b2 && between 128 191 b3 then
              match utf8Decode ts3 with
              | Some r =>
                  Some (utf16Encode ((b - 240) * 262144 + (b1 - 128) * 4096
                                     + (b2 - 128) * 64 + (b3 - 128)) ++ r)
              | None => None
              end
            else None
        | _ => None
        end
      else None
  end.

Definition decodeURIComponent (s : jsstring) : option jsstring :=
  match uriTokens s with
  | Some ts => utf8Decode ts
  | None => None
  end.

Local Close Scope N_scope.

(** [a || b] on numbers: zero is falsy. *)
Definition num_or (a b : Z) : Z := if Z.eqb a 0 then b else a.

End JS.

Import JS.

(* ================================================================== *)
(** ** utils/sql.js: the statement classifier *)
(* ================================================================== *)

Module Sql.

(** [/\b(update|delete|drop|alter|truncate|grant|revoke|attach|detach|pragma)\b/i] *)
Definition forbidden_keywords : list jsstring :=
  map lit ["update"; "delete"; "drop"; "alter"; "truncate";
           "grant"; "revoke"; "attach"; "detach"; "pragma"]%string.

Definition forbidden_re : Pattern := bounded (map word forbidden_keywords).

(** [/^\s*select\b/i] *)
Definition select_re : Pattern := anchored (lit "select").

(** [/^\s*insert\b/i] *)
Definition insert_re : Pattern := anchored (lit "insert").

(** [/\bpatient\b/i] *)
Definition patient_re : Pattern := bounded [word (lit "patient")].

Definition isForbidden (sql : jsstring) : bool := test forbidden_re sql.
Definition isSelect (sql : jsstring) : bool := test select_re sql.
Definition isInsert (sql : jsstring) : bool := test insert_re sql.
Definition touchesPatient (sql : jsstring) : bool := test patient_re sql.

End Sql.


(* ================================================================== *)
(** ** utils/http.js: responses *)
(* ================================================================== *)

Module Http.

(** The object handed to [JSON.stringify]; fields keep their order. *)
Inductive Json : Type :=
| JNull
| JBool (b : bool)
| JNum (n : Z)
| JStr (s : jsstring)
| JArr (items : list Json)
| JObj (fields : list (jsstring * Json)).

Definition Headers := list (jsstring * jsstring).

Inductive Payload : Type :=
| JsonBody (obj : Json)
| TextBody (txt : jsstring)
| NoBody.

(** What [res.writeHead] and [res.end] put on the wire. *)
Record Response : Type := mkResponse {
  status : Z;
  headers : Headers;
  body : Payload
}.

(** [cors(extra)]: the three fixed headers, then the extra ones (which
    never repeat one of the three). *)
Definition cors_with (origin : jsstring) (extra : Headers) : Headers :=
  [ (lit "Access-Control-Allow-Origin", origin);
    (lit "Access-Control-Allow-Methods", lit "GET, POST, OPTIONS");
    (lit "Access-Control-Allow-Headers", lit "Content-Type") ] ++ extra.

Definition cors (extra : Headers) : Headers := cors_with (lit "*") extra.

Definition sendJSON (status : Z) (obj : Json) : Response :=
  mkResponse status
    (cors [(lit "Content-Type", lit "application/json; charset=utf-8")])
    (JsonBody obj).

Definition sendText (status : Z) (txt : jsstring) : Response :=
  mkResponse status
    (cors [(lit "Content-Type", lit "text/plain; charset=utf-8")])
    (TextBody txt).

(** [{ error: message }]. *)
Definition error_obj (message : jsstring) : Json :=
  JObj [(lit "error", JStr message)].

End Http.

Import Http.

(* ================================================================== *)
(** ** The store: a SQLite database behind [db.run] and [db.all] *)
(* ================================================================== *)

Module Db.

Inductive SqlValue : Type :=
| SqlNull
| SqlInteger (z : Z)
| SqlText (t : jsstring).

(** A result row of the patient table: column name to value, in the
    order of the columns. The driver hands a row over as an object with
    one property per column, written in that order; for names that are
    all different and none of them an array index, as those of the
    table are, that is the order in which the object lists them. The
    values are those of the table's key and text: NULL, INTEGER, TEXT. *)
Definition Row := list (jsstring * SqlValue).

Record Table : Type := mkTable {
  columns : list jsstring;
  sequence : Z;                       (* largest key handed out so far *)
  records : list (list SqlValue)
}.

(** The database file and the connection's two counters. *)
Record Store : Type := mkStore {
  tables : gmap string Table;
  last_insert_rowid : Z;
  last_changes : Z
}.

(** [this.changes] and [this.lastID] in the callback of [db.run]. *)
Record RunReport : Type := mkReport {
  changes : Z;
  lastID : Z
}.

Inductive RunResult : Type :=
| RunErr (message : jsstring)
| RunOk (this : RunReport).

Inductive AllResult : Type :=
| AllErr (message : jsstring)
| AllRows (rows : list Row).

(** The engine: what the store does with the text of a statement.  The
    text a client sends is arbitrary, so the engine is a parameter of
    everything that runs a program. *)
Record Engine : Type := mkEngine {
  engine_run : jsstring -> list jsstring -> Store -> RunResult * Store;
  engine_all : jsstring -> Store -> AllResult * Store
}.

(** A program of the server: it ends with a value, or hands a statement
    to [db.run] or [db.all] and goes on with what comes back. *)
Inductive Prog (A : Type) : Type :=
| Ret (a : A)
| DbRun (sql : jsstring) (params : list jsstring) (k : RunResult -> Prog A)
| DbAll (sql : jsstring) (k : AllResult -> Prog A).

Arguments Ret {A} a.
Arguments DbRun {A} sql params k.
Arguments DbAll {A} sql k.

Fixpoint bind {A B : Type} (p : Prog A) (f : A -> Prog B) : Prog B :=
  match p with
  | Ret a => f a
  | DbRun sql params k => DbRun sql params (fun r => bind (k r) f)
  | DbAll sql k => DbAll sql (fun r => bind (k r) f)
  end.

(** Running a program against an engine and a store. *)
Fixpoint run {A : Type} (E : Engine) (p : Prog A) (s : Store) : A * Store :=
  match p with
  | Ret a => (a, s)
  | DbRun sql params k =>
      let '(r, s') := engine_run E sql params s in run E (k r) s'
  | DbAll sql k =>
      let '(r, s') := engine_all E sql s in run E (k r) s'
  end.

(** The statements a program may hand to the store, whatever the store
    answers. *)
Inductive Sends {A : Type} : Prog A -> jsstring -> Prop :=
| SendsRun sql params k : Sends (DbRun sql params k) sql
| SendsAfterRun sql params k r q : Sends (k r) q -> Sends (DbRun sql params k) q
| SendsAll sql k : Sends (DbAll sql k) sql
| SendsAfterAll sql k r q : Sends (k r) q -> Sends (DbAll sql k) q.

(** A program that answers without touching the store. *)
Definition answers_directly {A : Type} (p : Prog A) : option A :=
  match p with
  | Ret a => Some a
  | _ => None
  end.

(** A settled promise. *)
Inductive Result (A : Type) : Type :=
| Resolved (a : A)
| Rejected (message : jsstring).

Arguments Resolved {A} a.
Arguments Rejected {A} message.

End Db.

Import Db.

(** Sequencing with the notation [x ← p; q]. *)
#[global] Instance Prog_ret : MRet Prog := @Ret.
#[global] Instance Prog_bind : MBind Prog := fun A B f p => bind p f.

(* ================================================================== *)
(** ** The statements the server writes itself, as the store reads them *)
(* ================================================================== *)

Module SQLite.

(** White space of the SQL tokenizer: SP, TAB, LF, FF, CR. *)
Definition isSqlSpace (c : code_unit) : bool :=
  N.eqb c 32 || N.eqb c 9 || N.eqb c 10 || N.eqb c 12 || N.eqb c 13.

(** The words of a statement: white space only separates. *)
Fixpoint words_from (cur : jsstring) (s : jsstring) : list jsstring :=
  match s with
  | [] => match cur with [] => [] | _ => [rev cur] end
  | c :: s' =>
      if isSqlSpace c
      then match cur with
           | [] => words_from [] s'
           | _ => rev cur :: words_from [] s'
           end
      else words_from (c :: cur) s'
  end.

Definition words (s : jsstring) : list jsstring := words_from [] s.

Definition report (s : Store) : RunReport :=
  mkReport (last_changes s) (last_insert_rowid s).

(** [CREATE TABLE [IF NOT EXISTS] name (...)]: a second table of the
    same name is an error unless the statement says IF NOT EXISTS, in
    which case nothing happens. The counters are not touched. *)
Definition create_table (if_not_exists : bool) (name : string)
    (cols : list jsstring) (s : Store) : RunResult * Store :=
  match tables s !! name with
  | Some _ =>
      if if_not_exists then (RunOk (report s), s)
      else (RunErr (lit "SQLITE_ERROR: table already exists"), s)
  | None =>
      (RunOk (report s),
       mkStore (<[name := mkTable cols 0 []]> (tables s))
               (last_insert_rowid s) (last_changes s))
  end.

Definition patient_columns : list jsstring :=
  [lit "patientid"; lit "name"; lit "dateOfBirth"].

Definition is_null (v : SqlValue) : bool :=
  match v with SqlNull => true | _ => false end.

(** The records a list of (name, dateOfBirth) pairs becomes, with keys
    counted up from [next]. *)
Fixpoint keyed (next : Z) (tuples : list (SqlValue * SqlValue))
  : list (list SqlValue) :=
  match tuples with
  | [] => []
  | (n, d) :: rest => [SqlInteger next; n; d] :: keyed (next + 1) rest
  end.

(** [INSERT INTO patient (name, dateOfBirth) VALUES (..), ..]: all the
    tuples or none; the name is NOT NULL; every record gets the next
    key of the AUTOINCREMENT sequence. *)
Definition insert_patients (tuples : list (SqlValue * SqlValue)) (s : Store)
  : RunResult * Store :=
  match tables s !! "patient"%string with
  | None => (RunErr (lit "SQLITE_ERROR: no such table: patient"), s)
  | Some t =>
      if forallb (fun nd => negb (is_null (fst nd))) tuples then
        let n := Z.of_nat (length tuples) in
        let t' := mkTable (columns t) (sequence t + n)
                    (records t ++ keyed (sequence t + 1) tuples) in
        (RunOk (mkReport n (sequence t + n)),
         mkStore (<["patient"%string := t']> (tables s)) (sequence t + n) n)
      else
        (RunErr (lit "SQLITE_CONSTRAINT: NOT NULL constraint failed: patient.name"), s)
  end.

(** Positional parameters bound to [(?, ?)] tuples, two by two; a
    missing parameter is NULL. *)
Fixpoint bind_pairs (n : nat) (params : list jsstring)
  : list (SqlValue * SqlValue) :=
  match n with
  | O => []
  | S n' =>
      match params with
      | a :: b :: rest => (SqlText a, SqlText b) :: bind_pairs n' rest
      | [a] => (SqlText a, SqlNull) :: bind_pairs n' []
      | [] => (SqlNull, SqlNull) :: bind_pairs n' []
      end
  end.

(** [SELECT * FROM name]: every record of the table, in the table's
    order, under the table's column names. *)
Definition select_all (name : string) (s : Store) : AllResult * Store :=
  match tables s !! name with
  | None => (AllErr (lit "SQLITE_ERROR: no such table"), s)
  | Some t => (AllRows (map (fun r => zip (columns t) r) (records t)), s)
  end.

Definition create_patient_words : list jsstring :=
  words (lit "CREATE TABLE IF NOT EXISTS patient ( patientid INTEGER PRIMARY KEY AUTOINCREMENT, name VARCHAR(100) NOT NULL, dateOfBirth DATETIME );").

Definition insert4_words : list jsstring :=
  words (lit "INSERT INTO patient (name, dateOfBirth) VALUES (?, ?), (?, ?), (?, ?), (?, ?);").

Definition select_all_words : list jsstring :=
  words (lit "select * from patient").

(** What is assumed of the engine: it reads the three statements below
    the way SQLite does. Nothing is assumed about any other text. *)
Record Faithful (E : Engine) : Prop := {
  runs_create : forall sql s,
    words sql = create_patient_words ->
    engine_run E sql [] s = create_table true "patient" patient_columns s;
  runs_insert4 : forall sql params s,
    words sql = insert4_words ->
    length params = 8 ->
    engine_run E sql params s = insert_patients (bind_pairs 4 params) s;
  runs_select_all : forall sql s,
    words sql = select_all_words ->
    engine_all E sql s = select_all "patient" s
}.

(** The insert of the specification's scenario B. *)
Definition ada_sql : jsstring :=
  lit "insert into patient (name, dateOfBirth) values ('Ada Lovelace','1815-12-10')".

(** An engine that knows these statements and rejects the rest. *)
Definition reference_engine : Engine :=
  mkEngine
    (fun sql params s =>
       if bool_decide (words sql = create_patient_words) then
         match params with
         | [] => create_table true "patient" patient_columns s
         | _ => (RunErr (lit "SQLITE_RANGE: column index out of range"), s)
         end
       else if bool_decide (words sql = insert4_words) then
         if bool_decide (length params = 8)
         then insert_patients (bind_pairs 4 params) s
         else (RunErr (lit "SQLITE_RANGE: column index out of range"), s)
       else if jsstring_eqb sql ada_sql then
         match params with
         | [] => insert_patients
                   [(SqlText (lit "Ada Lovelace"), SqlText (lit "1815-12-10"))] s
         | _ => (RunErr (lit "SQLITE_RANGE: column index out of range"), s)
         end
       else (RunErr (lit "SQLITE_ERROR: not supported"), s))
    (fun sql s =>
       if bool_decide (words sql = select_all_words) then
         select_all "patient" s
       else (AllErr (lit "SQLITE_ERROR: not supported"), s)).

(** A new database file. *)
Definition empty_store : Store := mkStore ∅ 0 0.

End SQLite.

(* ================================================================== *)
(** ** What a request brings *)
(* ================================================================== *)

(** The body of a POST, as [handlePostSql] gets to see it: [readBody]
    rejects with an error (its [message] is kept), or [JSON.parse] throws
    on what was read, or the payload is there and
    [String(payload.query || "")] is the string [query]. (A body that is
    the JSON value null makes [payload.query] throw outside any [try]; no
    answer is written then, and such a body is not among these.) *)
Inductive PostBody : Type :=
| BodyUnreadable (message : jsstring)
| BodyNotJson
| BodyQuery (query : jsstring).

(** [req.method], the [pathname] of [url.parse(req.url)], and the body,
    of a request whose target has a path. A target without one, for
    which [pathname] is [null], is among the targets of [Listener]
    further down. *)
Record Request : Type := mkRequest {
  method : jsstring;
  pathname : jsstring;
  payload : PostBody
}.

(** [pathname.split("/").filter(Boolean)]. *)
Definition path_parts (pathname : jsstring) : list jsstring :=
  List.filter truthy (split 47%N pathname).

(** [parts.slice(3).join("/")]. *)
Definition path_tail (pathname : jsstring) : jsstring :=
  join (lit "/") (drop 3 (path_parts pathname)).

(* ================================================================== *)
(** ** The server: class [SQLiteServer] *)
(* ================================================================== *)

Module SQLiteServer.

Import Sql.

Definition bootstrap_sql : jsstring := lit "
          CREATE TABLE IF NOT EXISTS patient (
            patientid   INTEGER PRIMARY KEY AUTOINCREMENT,
            name        VARCHAR(100) NOT NULL,
            dateOfBirth DATETIME
          );
        ".

(** [bootstrap()]: opens the database and creates the table. *)
Definition bootstrap : Prog (Result unit) :=
  DbRun bootstrap_sql []
    (fun r => Ret match r with
                  | RunErr e => Rejected e
                  | RunOk _ => Resolved tt
                  end).

Definition seed_rows : list (list jsstring) :=
  [ [lit "Sara Brown"; lit "1901-01-01 00:00:00"];
    [lit "John Smith"; lit "1941-01-01 00:00:00"];
    [lit "Jack Ma"; lit "1961-01-30 00:00:00"];
    [lit "Elon Musk"; lit "1999-01-01 00:00:00"] ].

Definition seed_sql : jsstring :=
  let placeholders := join (lit ", ") (map (fun _ => lit "(?, ?)") seed_rows) in
  lit "INSERT INTO patient (name, dateOfBirth) VALUES " ++ placeholders ++ lit ";".

(** [seed()]: resolves with [{ inserted: this.changes || rows.length }]. *)
Definition seed : Prog (Result (list (jsstring * Json))) :=
  let rows := seed_rows in
  let flatParams := concat rows in
  DbRun seed_sql flatParams
    (fun r => Ret match r with
                  | RunErr e => Rejected e
                  | RunOk this =>
                      Resolved [(lit "inserted",
                                 JNum (num_or (changes this)
                                         (Z.of_nat (length rows))))]
                  end).

Definition ensure_sql : jsstring := lit "
        CREATE TABLE IF NOT EXISTS patient (
          patientid   INTEGER PRIMARY KEY AUTOINCREMENT,
          name        VARCHAR(100) NOT NULL,
          dateOfBirth DATETIME
        );
      ".

Definition ensureTableExists : Prog (Result unit) :=
  DbRun ensure_sql []
    (fun r => Ret match r with
                  | RunErr e => Rejected e
                  | RunOk _ => Resolved tt
                  end).

(** [runSelect(sql)]: the rows, or the store's error. *)
Definition runSelect (sql : jsstring) : Prog (Result (list Row)) :=
  t ← ensureTableExists;
  match t with
  | Rejected e => Ret (Rejected e)
  | Resolved _ =>
      DbAll sql
        (fun r => Ret match r with
                      | AllErr e => Rejected e
                      | AllRows rows => Resolved rows
                      end)
  end.

(** [this.lastID || null]. *)
Definition id_or_null (lastID : Z) : Json :=
  if Z.eqb lastID 0 then JNull else JNum lastID.

(** [runInsert(sql)]: [{ affectedRows, insertId }], or the store's error. *)
Definition runInsert (sql : jsstring) : Prog (Result (list (jsstring * Json))) :=
  t ← ensureTableExists;
  match t with
  | Rejected e => Ret (Rejected e)
  | Resolved _ =>
      DbRun sql []
        (fun r => Ret match r with
                      | RunErr e => Rejected e
                      | RunOk this =>
                          Resolved [(lit "affectedRows", JNum (num_or (changes this) 0));
                                    (lit "insertId", id_or_null (lastID this))]
                      end)
  end.

Definition handleOptions : Response :=
  mkResponse 204 (cors [(lit "Access-Control-Max-Age", lit "600")]) NoBody.

Definition sql_value_json (v : SqlValue) : Json :=
  match v with
  | SqlNull => JNull
  | SqlInteger z => JNum z
  | SqlText t => JStr t
  end.

Definition row_json (r : Row) : Json :=
  JObj (map (fun cv => (fst cv, sql_value_json (snd cv))) r).

(** GET /api/v1/sql/{SQL} *)
Definition handleGetSql (pathname : jsstring) : Prog Response :=
  let parts := path_parts pathname in
  if (length parts <? 4)%nat
  then Ret (sendJSON 400 (error_obj (lit "Missing SQL in path.")))
  else
    match decodeURIComponent (join (lit "/") (drop 3 parts)) with
    | None => Ret (sendJSON 400 (error_obj (lit "Badly encoded SQL.")))
    | Some sql =>
        if isForbidden sql
        then Ret (sendJSON 403 (error_obj (lit "Forbidden statement.")))
        else if negb (isSelect sql)
        then Ret (sendJSON 400 (error_obj (lit "GET only allows SELECT.")))
        else if negb (touchesPatient sql)
        then Ret (sendJSON 400 (error_obj (lit "Query must reference 'patient'.")))
        else
          r ← runSelect sql;
          match r with
          | Resolved rows =>
              Ret (sendJSON 200 (JObj [(lit "rows", JArr (map row_json rows))]))
          | Rejected e => Ret (sendJSON 400 (error_obj e))
          end
    end.

(** POST /api/v1/sql *)
Definition handlePostSql (b : PostBody) : Prog Response :=
  match b with
  | BodyUnreadable message =>
      Ret (sendJSON 413
             (error_obj (if truthy message then message else lit "Body too large")))
  | BodyNotJson => Ret (sendJSON 400 (error_obj (lit "Invalid JSON body.")))
  | BodyQuery sql =>
      if negb (truthy (trim sql))
      then Ret (sendJSON 400 (error_obj (lit "Missing 'query' field.")))
      else if isForbidden sql
      then Ret (sendJSON 403 (error_obj (lit "Forbidden statement.")))
      else if negb (isInsert sql)
      then Ret (sendJSON 400 (error_obj (lit "POST only allows INSERT.")))
      else if negb (touchesPatient sql)
      then Ret (sendJSON 400 (error_obj (lit "Query must reference 'patient'.")))
      else
        r ← runInsert sql;
        match r with
        | Resolved result =>
            Ret (sendJSON 200 (JObj ((lit "ok", JBool true) :: result)))
        | Rejected e => Ret (sendJSON 400 (error_obj e))
        end
  end.

(** POST /api/v1/seed *)
Definition handleSeed : Prog Response :=
  r ← seed;
  match r with
  | Resolved result =>
      Ret (sendJSON 200
             (JObj ((lit "ok", JBool true)
                    :: (lit "message", JStr (lit "Database seeded successfully."))
                    :: result)))
  | Rejected e => Ret (sendJSON 400 (error_obj e))
  end.

Definition banner : jsstring := lit "Lab5 SQLite API ready.
Try: /api/v1/sql/select%20*%20from%20patient".

(** The request router. *)
Definition handleRequest (req : Request) : Prog Response :=
  if jsstring_eqb (method req) (lit "OPTIONS") then Ret handleOptions
  else if jsstring_eqb (method req) (lit "GET")
          && startsWith (pathname req) (lit "/api/v1/sql/")
  then handleGetSql (pathname req)
  else if jsstring_eqb (method req) (lit "POST")
          && jsstring_eqb (pathname req) (lit "/api/v1/sql")
  then handlePostSql (payload req)
  else if jsstring_eqb (method req) (lit "POST")
          && jsstring_eqb (pathname req) (lit "/api/v1/seed")
  then handleSeed
  else if jsstring_eqb (method req) (lit "GET")
          && jsstring_eqb (pathname req) (lit "/")
  then Ret (sendText 200 banner)
  else Ret (sendJSON 404 (error_obj (lit "Not found"))).

End SQLiteServer.

(* ================================================================== *)
(** ** The earlier single-file server (Server2) *)
(* ================================================================== *)

Module Server2.

(** Its own copies of the four predicates. *)
Definition isForbidden (sql : jsstring) : bool :=
  test (bounded
          (map word
             (map lit ["update"; "delete"; "drop"; "alter"; "truncate";
                       "grant"; "revoke"; "attach"; "detach"; "pragma"]%string)))
    sql.

Definition isSelect (sql : jsstring) : bool := test (anchored (lit "select")) sql.

Definition isInsert (sql : jsstring) : bool := test (anchored (lit "insert")) sql.

Definition touchesPatient (sql : jsstring) : bool :=
  test (bounded [word (lit "patient")]) sql.

Section Config.

(** [process.env.CORS_ALLOW_ORIGIN || "*"]. *)
Variable CORS_ALLOW_ORIGIN : jsstring.

Definition cors (extra : Headers) : Headers :=
  cors_with CORS_ALLOW_ORIGIN extra.

Definition sendJSON (status : Z) (obj : Json) : Response :=
  mkResponse status
    (cors [(lit "Content-Type", lit "application/json; charset=utf-8")])
    (JsonBody obj).

Definition sendText (status : Z) (txt : jsstring) : Response :=
  mkResponse status
    (cors [(lit "Content-Type", lit "text/plain; charset=utf-8")])
    (TextBody txt).

Definition bootstrap_sql : jsstring := lit "
        CREATE TABLE IF NOT EXISTS patient (
          patientid   INTEGER PRIMARY KEY AUTOINCREMENT,
          name        VARCHAR(100) NOT NULL,
          dateOfBirth DATETIME
        );
      ".

Definition bootstrap : Prog (Result unit) :=
  DbRun bootstrap_sql []
    (fun r => Ret match r with
                  | RunErr e => Rejected e
                  | RunOk _ => Resolved tt
                  end).

Definition runSelect (sql : jsstring) : Prog (Result (list Row)) :=
  DbAll sql
    (fun r => Ret match r with
                  | AllErr e => Rejected e
                  | AllRows rows => Resolved rows
                  end).

Definition runInsert (sql : jsstring) : Prog (Result (list (jsstring * Json))) :=
  DbRun sql []
    (fun r => Ret match r with
                  | RunErr e => Rejected e
                  | RunOk this =>
                      Resolved
                        [(lit "affectedRows", JNum (num_or (changes this) 0));
                         (lit "insertId", SQLiteServer.id_or_null (lastID this))]
                  end).

Definition seed_rows : list (list jsstring) :=
  [ [lit "Sara Brown"; lit "1901-01-01 00:00:00"];
    [lit "John Smith"; lit "1941-01-01 00:00:00"];
    [lit "Jack Ma"; lit "1961-01-30 00:00:00"];
    [lit "Elon Musk"; lit "1999-01-01 00:00:00"] ].

Definition seed_sql : jsstring :=
  let placeholders := join (lit ", ") (map (fun _ => lit "(?, ?)") seed_rows) in
  lit "INSERT INTO patient (name, dateOfBirth) VALUES " ++ placeholders ++ lit ";".

Definition seed : Prog (Result (list (jsstring * Json))) :=
  let rows := seed_rows in
  let flatParams := concat rows in
  DbRun seed_sql flatParams
    (fun r => Ret match r with
                  | RunErr e => Rejected e
                  | RunOk this =>
                      Resolved [(lit "inserted",
                                 JNum (num_or (changes this)
                                         (Z.of_nat (length rows))))]
                  end).

Definition handleOptions : Response :=
  mkResponse 204 (cors [(lit "Access-Control-Max-Age", lit "600")]) NoBody.

Definition handleGetSql (pathname : jsstring) : Prog Response :=
  let parts := path_parts pathname in
  if (length parts <? 4)%nat
  then Ret (sendJSON 400 (error_obj (lit "Missing SQL in path.")))
  else
    match decodeURIComponent (join (lit "/") (drop 3 parts)) with
    | None => Ret (sendJSON 400 (error_obj (lit "Badly encoded SQL.")))
    | Some sql =>
        if isForbidden sql
        then Ret (sendJSON 403 (error_obj (lit "Forbidden statement.")))
        else if negb (isSelect sql)
        then Ret (sendJSON 400 (error_obj (lit "GET only allows SELECT.")))
        else if negb (touchesPatient sql)
        then Ret (sendJSON 400 (error_obj (lit "Query must reference 'patient'.")))
        else
          r ← runSelect sql;
          match r with
          | Resolved rows =>
              Ret (sendJSON 200
                     (JObj [(lit "rows", JArr (map SQLiteServer.row_json rows))]))
          | Rejected e => Ret (sendJSON 400 (error_obj e))
          end
    end.

Definition handlePostSql (b : PostBody) : Prog Response :=
  match b with
  | BodyUnreadable message =>
      Ret (sendJSON 413
             (error_obj (if truthy message then message else lit "Body too large")))
  | BodyNotJson => Ret (sendJSON 400 (error_obj (lit "Invalid JSON body.")))
  | BodyQuery sql =>
      if negb (truthy (trim sql))
      then Ret (sendJSON 400 (error_obj (lit "Missing 'query' field.")))
      else if isForbidden sql
      then Ret (sendJSON 403 (error_obj (lit "Forbidden statement.")))
      else if negb (isInsert sql)
      then Ret (sendJSON 400 (error_obj (lit "POST only allows INSERT.")))
      else if negb (touchesPatient sql)
      then Ret (sendJSON 400 (error_obj (lit "Query must reference 'patient'.")))
      else
        r ← runInsert sql;
        match r with
        | Resolved result =>
            Ret (sendJSON 200 (JObj ((lit "ok", JBool true) :: result)))
        | Rejected e => Ret (sendJSON 400 (error_obj e))
        end
  end.

Definition handlePostSeed : Prog Response :=
  r ← seed;
  match r with
  | Resolved out =>
      Ret (sendJSON 200 (JObj ((lit "ok", JBool true) :: out)))
  | Rejected e => Ret (sendJSON 500 (error_obj e))
  end.

(** The listener that [start()] installs. *)
Definition start (req : Request) : Prog Response :=
  if jsstring_eqb (method req) (lit "OPTIONS") then Ret handleOptions
  else if jsstring_eqb (method req) (lit "GET")
          && startsWith (pathname req) (lit "/api/v1/sql/")
  then handleGetSql (pathname req)
  else if jsstring_eqb (method req) (lit "POST")
          && jsstring_eqb (pathname req) (lit "/api/v1/sql")
  then handlePostSql (payload req)
  else if jsstring_eqb (method req) (lit "POST")
          && jsstring_eqb (pathname req) (lit "/api/v1/seed")
  then handlePostSeed
  else if jsstring_eqb (method req) (lit "GET")
          && jsstring_eqb (pathname req) (lit "/")
  then Ret (sendText 200 SQLiteServer.banner)
  else Ret (sendJSON 404 (error_obj (lit "Not found"))).

End Config.

End Server2.

(* ================================================================== *)
(** ** The vocabulary of the specification *)
(* ================================================================== *)

Module Spec.

(** The channel a statement arrives on. *)
Inductive Intent : Type := Read | Write.

Inductive Classification : Type :=
| Forbidden | WrongIntent | OutOfScope | Approved.

(** The intent-shape check of a channel. *)
Definition intent_shape (declaredIntent : Intent) (text : jsstring) : bool :=
  match declaredIntent with
  | Read => Sql.isSelect text
  | Write => Sql.isInsert text
  end.

(** The three checks in the order the specification gives them, each
    decided by the classifier's predicate. *)
Definition classify (text : jsstring) (declaredIntent : Intent) : Classification :=
  if Sql.isForbidden text then Forbidden
  else if negb (intent_shape declaredIntent text) then WrongIntent
  else if negb (Sql.touchesPatient text) then OutOfScope
  else Approved.

(** No word character just before, none just after. *)
Definition free_before (pre : jsstring) : Prop :=
  match last pre with
  | Some c => isWordChar c = false
  | None => True
  end.

Definition free_after (post : jsstring) : Prop :=
  match head post with
  | Some c => isWordChar c = false
  | None => True
  end.

(** [text] contains [keyword] as a whole word, in any letter case. *)
Definition occurs_as_word (keyword text : jsstring) : Prop :=
  exists pre w post,
    text = pre ++ w ++ post
    /\ map canonicalize w = map canonicalize keyword
    /\ free_before pre /\ free_after post.

(** [text] contains a keyword of the denylist as a whole word. *)
Definition denylisted (text : jsstring) : Prop :=
  exists kw, In kw Sql.forbidden_keywords /\ occurs_as_word kw text.

(** [text] is empty or white space only. *)
Definition blank (text : jsstring) : Prop :=
  Forall (fun c => isWhiteSpace c = true) text.

(** [text] begins with [keyword] as a whole word, after white space only. *)
Definition begins_with_word (keyword text : jsstring) : Prop :=
  exists ws w post,
    text = ws ++ w ++ post
    /\ blank ws
    /\ map canonicalize w = map canonicalize keyword
    /\ free_after post.

(** The statement text a GET request carries, when it carries one:
    what follows the third segment of the path, percent-decoded. *)
Definition statement_of_path (pathname : jsstring) : option jsstring :=
  if (length (path_parts pathname) <? 4)%nat then None
  else decodeURIComponent (path_tail pathname).

(** Status and body of an answer. *)
Definition Reply : Type := Z * Json.

Definition forbidden_reply : Reply :=
  (403%Z, error_obj (lit "Forbidden statement.")).

Definition wrong_intent_reply (i : Intent) : Reply :=
  match i with
  | Read => (400%Z, error_obj (lit "GET only allows SELECT."))
  | Write => (400%Z, error_obj (lit "POST only allows INSERT."))
  end.

Definition out_of_scope_reply : Reply :=
  (400%Z, error_obj (lit "Query must reference 'patient'.")).

Definition missing_query_reply : Reply :=
  (400%Z, error_obj (lit "Missing 'query' field.")).


(** The answer each classification result is turned into; an approved
    statement has none, it goes to the store. *)
Definition rejection (c : Classification) (i : Intent) : option Reply :=
  match c with
  | Forbidden => Some forbidden_reply
  | WrongIntent => Some (wrong_intent_reply i)
  | OutOfScope => Some out_of_scope_reply
  | Approved => None
  end.

(** A reply sent with a server's [sendJSON]. *)
Definition sent (send : Z -> Json -> Response) (r : Reply) : Response :=
  send (fst r) (snd r).

(** The table is there. *)
Definition has_patient_table (s : Store) : Prop :=
  is_Some (tables s !! "patient"%string).

(** A patient record as a read returns it. *)
Definition patient_json (key : Z) (name dateOfBirth : jsstring) : Json :=
  JObj [(lit "patientid", JNum key); (lit "name", JStr name);
        (lit "dateOfBirth", JStr dateOfBirth)].

(** The four sample records, with keys counted up from [next]. *)
Definition sample_records (next : Z) : list Json :=
  [ patient_json next (lit "Sara Brown") (lit "1901-01-01 00:00:00");
    patient_json (next + 1) (lit "John Smith") (lit "1941-01-01 00:00:00");
    patient_json (next + 2) (lit "Jack Ma") (lit "1961-01-30 00:00:00");
    patient_json (next + 3) (lit "Elon Musk") (lit "1999-01-01 00:00:00") ].

(** The store once the four sample records have been inserted. *)
Definition seeded (s : Store) : Store :=
  snd (SQLite.insert_patients
         (SQLite.bind_pairs 4 (concat SQLiteServer.seed_rows)) s).

(** GET /api/v1/sql/select%20*%20from%20patient *)
Definition select_all_path : jsstring :=
  lit "/api/v1/sql/select%20*%20from%20patient".

(** The store once the table has been created if it was absent. *)
Definition ensured (s : Store) : Store :=
  snd (SQLite.create_table true "patient" SQLite.patient_columns s).

End Spec.

Import Spec.

(* ================================================================== *)
(** ** The adapter's outcome, and the requests of the scenarios *)
(* ================================================================== *)

(** What the adapter of [SQLiteServer] does with a text: the table is
    made sure of, and then the text goes to the store as it is. *)
Definition select_outcome (E : Engine) (sql : list N) (s : Store)
  : Result (list Row) * Store :=
  match engine_run E SQLiteServer.ensure_sql [] s with
  | (RunErr e, s1) => (Rejected e, s1)
  | (RunOk _, s1) =>
      match engine_all E sql s1 with
      | (AllErr e, s2) => (Rejected e, s2)
      | (AllRows rows, s2) => (Resolved rows, s2)
      end
  end.

Definition insert_outcome (E : Engine) (sql : list N) (s : Store)
  : Result (list (list N * Json)) * Store :=
  match engine_run E SQLiteServer.ensure_sql [] s with
  | (RunErr e, s1) => (Rejected e, s1)
  | (RunOk _, s1) =>
      match engine_run E sql [] s1 with
      | (RunErr e, s2) => (Rejected e, s2)
      | (RunOk this, s2) =>
          (Resolved [(lit "affectedRows", JNum (num_or (changes this) 0));
                     (lit "insertId", SQLiteServer.id_or_null (lastID this))], s2)
      end
  end.

(** A SELECT on the patient table that carries "DrOp" further on. *)
Definition smuggled : list N := lit "select name from patient where 1; DrOp it".

(** "drop table x": denylisted, not a SELECT, no patient table. *)
Definition drop_other : list N := lit "drop table x".

(** GET /api/v1/sql/drop%20table%20patient *)
Definition drop_patient_path : list N := lit "/api/v1/sql/drop%20table%20patient".
Definition drop_patient : list N := lit "drop table patient".

(** POST /api/v1/sql with the insert of scenario B, on a new database
    after [bootstrap]. *)
Definition after_bootstrap : Store :=
  snd (run SQLite.reference_engine SQLiteServer.bootstrap SQLite.empty_store).


(** The same statement, with the star written as %2A. *)
Definition select_all_path' : list N :=
  lit "/api/v1/sql/select%20%2A%20from%20patient".

(** Boolean tests on code units, read as arithmetic. *)
Ltac as_arith :=
  rewrite ?orb_true_iff, ?andb_true_iff, ?orb_false_iff, ?andb_false_iff,
    ?N.leb_le, ?N.eqb_eq, ?N.leb_gt, ?N.eqb_neq, ?N.ltb_lt, ?N.ltb_ge in *.


(* ================================================================== *)
(** ** utils/http.js: reading the body of a request *)
(* ================================================================== *)

Module Body.

(** What the request stream emits: a chunk of bytes, the end, or an
    error (of which the message is kept). *)
Inductive StreamEvent : Type :=
| Data (chunk : list N)
| End
| Failure (message : list N).

(** The variables of [readBody] and its promise: [size], [chunks], how
    the promise is settled if it is, and whether [req.destroy()] has been
    called. *)
Record Reading : Type := mkReading {
  size : N;
  chunks : list (list N);
  settled : option (Result (list N));
  destroyed : bool
}.

Definition start : Reading := mkReading 0 [] None false.

(** [resolve] and [reject] settle a promise once; later calls are
    ignored. *)
Definition settle (st : Reading) (r : Result (list N)) : Reading :=
  match settled st with
  | Some _ => st
  | None => mkReading (size st) (chunks st) (Some r) (destroyed st)
  end.

Section ReadBody.

(** [Buffer.concat(chunks).toString("utf8")], on the bytes put together. *)
Variable toString : list N -> list N.

(** The three listeners. *)
Definition onData (limit : N) (st : Reading) (c : list N) : Reading :=
  let size' := (size st + N.of_nat (length c))%N in
  if (limit <? size')%N then
    let st' := settle (mkReading size' (chunks st) (settled st) (destroyed st))
                 (Rejected (lit "BODY_TOO_LARGE")) in
    mkReading (size st') (chunks st') (settled st') true
  else mkReading size' (chunks st ++ [c]) (settled st) (destroyed st).

Definition onEnd (st : Reading) : Reading :=
  settle st (Resolved (toString (concat (chunks st)))).

Definition onError (st : Reading) (message : list N) : Reading :=
  settle st (Rejected message).

(** The events reach the listeners in turn, until the stream is
    destroyed. *)
Fixpoint deliver (limit : N) (st : Reading) (events : list StreamEvent) : Reading :=
  match events with
  | [] => st
  | ev :: rest =>
      if destroyed st then st
      else deliver limit
             match ev with
             | Data c => onData limit st c
             | End => onEnd st
             | Failure m => onError st m
             end rest
  end.

(** [readBody(req, limit)]: how the promise is settled once the events
    have been delivered; [None] while it is pending. *)
Definition readBody (limit : N) (events : list StreamEvent)
  : option (Result (list N)) :=
  settled (deliver limit start events).

(** The default, [limit = 1_000_000]. *)
Definition default_limit : N := 1000000.

End ReadBody.

(** The number of bytes in a list of chunks. *)
Definition total (cs : list (list N)) : N := N.of_nat (length (concat cs)).

(** What [handlePostSql] makes of a rejected read. *)
Definition unreadable (r : Result (list N)) : option PostBody :=
  match r with
  | Rejected m => Some (BodyUnreadable m)
  | Resolved _ => None
  end.

End Body.

(* ================================================================== *)
(** ** Runs, looked at more closely *)
(* ================================================================== *)

(** A call of the store. *)
Inductive Call : Type :=
| CallRun (sql : list N) (params : list (list N))
| CallAll (sql : list N).

(** The calls a program makes when it runs against an engine and a
    store, in order. *)
Fixpoint calls {A : Type} (E : Engine) (p : Prog A) (s : Store) : list Call :=
  match p with
  | Ret _ => []
  | DbRun sql params k =>
      let '(r, s') := engine_run E sql params s in
      CallRun sql params :: calls E (k r) s'
  | DbAll sql k =>
      let '(r, s') := engine_all E sql s in
      CallAll sql :: calls E (k r) s'
  end.

(** A property of every answer a program can end with, whatever the
    store says on the way. *)
Fixpoint every_answer {A : Type} (P : A -> Prop) (p : Prog A) : Prop :=
  match p with
  | Ret a => P a
  | DbRun _ _ k => forall r, every_answer P (k r)
  | DbAll _ k => forall r, every_answer P (k r)
  end.

(** The three headers of [cors], for an allowed origin. *)
Definition has_cors (origin : list N) (r : Response) : Prop :=
  In (lit "Access-Control-Allow-Origin", origin) (headers r)
  /\ In (lit "Access-Control-Allow-Methods", lit "GET, POST, OPTIONS") (headers r)
  /\ In (lit "Access-Control-Allow-Headers", lit "Content-Type") (headers r).

(** The prefix the router asks of a read. *)
Definition sql_prefix : list N := lit "/api/v1/sql/".

(** The segments of what follows the prefix, the empty ones left out. *)
Definition segments (rest : list N) : list (list N) :=
  List.filter truthy (split 47%N rest).

(** A percent sign that is not followed by two hexadecimal digits. *)
Definition stray_percent (after : list N) : Prop :=
  match after with
  | h :: l :: _ => hexDigit h = None \/ hexDigit l = None
  | _ => True
  end.

(** A statement in capitals, and the same in small letters. *)
Definition shouted : list N := lit "  SELECT * FROM Patient WHERE 1".
Definition whispered : list N := lit "  select * from patient where 1".

(** POST /api/v1/seed *)
Definition seed_request : Request :=
  mkRequest (lit "POST") (lit "/api/v1/seed") BodyNotJson.

(** A read the reference engine does not know. *)
Definition names_path : list N := lit "/api/v1/sql/select%20name%20from%20patient".
Definition names_sql : list N := lit "select name from patient".

(* ================================================================== *)
(** ** The listener, from [url.parse] on *)
(* ================================================================== *)

Module Listener.

(** What the listener has in hand after [url.parse(req.url)]: the
    method, the [pathname], which is [null] for a request target that
    has no path, and the body. *)
Record Target : Type := mkTarget {
  method : list N;
  pathname : option (list N);
  payload : PostBody
}.

(** [pathname.startsWith(prefix)]: a TypeError on [null], which nothing
    catches; [None] stands for it. *)
Definition startsWith (pathname : option (list N)) (prefix : list N)
  : option bool :=
  match pathname with
  | Some p => Some (JS.startsWith p prefix)
  | None => None
  end.

(** [pathname === text]: [null] is equal to no string. *)
Definition strict_eq (pathname : option (list N)) (text : list N) : bool :=
  match pathname with
  | Some p => jsstring_eqb p text
  | None => false
  end.

(** [handleRequest(req, res)] of the class, test by test; the right
    operand of [&&] is evaluated only when the left one holds. [None]:
    the listener throws and nothing is answered. *)
Definition handleRequest (req : Target) : option (Prog Response) :=
  if jsstring_eqb (method req) (lit "OPTIONS")
  then Some (Ret SQLiteServer.handleOptions)
  else
    read ← (if jsstring_eqb (method req) (lit "GET")
            then startsWith (pathname req) (lit "/api/v1/sql/")
            else Some false);
    if read : bool then SQLiteServer.handleGetSql <$> pathname req
    else if jsstring_eqb (method req) (lit "POST")
            && strict_eq (pathname req) (lit "/api/v1/sql")
    then Some (SQLiteServer.handlePostSql (payload req))
    else if jsstring_eqb (method req) (lit "POST")
            && strict_eq (pathname req) (lit "/api/v1/seed")
    then Some SQLiteServer.handleSeed
    else if jsstring_eqb (method req) (lit "GET")
            && strict_eq (pathname req) (lit "/")
    then Some (Ret (sendText 200 SQLiteServer.banner))
    else Some (Ret (sendJSON 404 (error_obj (lit "Not found")))).

(** The listener that [start()] of the earlier server installs. *)
Definition start (origin : list N) (req : Target) : option (Prog Response) :=
  if jsstring_eqb (method req) (lit "OPTIONS")
  then Some (Ret (Server2.handleOptions origin))
  else
    read ← (if jsstring_eqb (method req) (lit "GET")
            then startsWith (pathname req) (lit "/api/v1/sql/")
            else Some false);
    if read : bool then Server2.handleGetSql origin <$> pathname req
    else if jsstring_eqb (method req) (lit "POST")
            && strict_eq (pathname req) (lit "/api/v1/sql")
    then Some (Server2.handlePostSql origin (payload req))
    else if jsstring_eqb (method req) (lit "POST")
            && strict_eq (pathname req) (lit "/api/v1/seed")
    then Some (Server2.handlePostSeed origin)
    else if jsstring_eqb (method req) (lit "GET")
            && strict_eq (pathname req) (lit "/")
    then Some (Ret (Server2.sendText origin 200 SQLiteServer.banner))
    else Some (Ret (Server2.sendJSON origin 404 (error_obj (lit "Not found")))).

End Listener.





(* ================================================================== *)
(** ** RegExp objects and their state *)
(* ================================================================== *)

Module RegExp.

(** A RegExp object: its pattern, the [g] and [y] flags, and
    [lastIndex], the one property that [test] reads and writes. The [i]
    flag, which all four patterns of the server carry, is that of the
    matcher. *)
Record Object : Type := mkObject {
  source : Pattern;
  global : bool;
  sticky : bool;
  lastIndex : nat
}.

(** The object that a literal [/source/i] evaluates to. *)
Definition literal (p : Pattern) : Object := mkObject p false false 0.

Section MatchEnd.

Variable input : list N.

(** The matcher once more, with the index at which the match ends: the
    first one in the order of backtracking. *)
Fixpoint repeatSpaceEnd (rest : list N) (e : nat) (c : nat -> option nat)
  : option nat :=
  match rest with
  | ch :: rest' =>
      if isWhiteSpace ch
      then match repeatSpaceEnd rest' (S e) c with
           | Some r => Some r
           | None => c e
           end
      else c e
  | [] => c e
  end.

Fixpoint matcherEnd (p : Pattern) (e : nat) (c : nat -> option nat)
  : option nat :=
  match p with
  | Empty => c e
  | Char ch =>
      match input !! e with
      | Some x =>
          if N.eqb (canonicalize x) (canonicalize ch) then c (S e) else None
      | None => None
      end
  | Seq p1 p2 => matcherEnd p1 e (fun e' => matcherEnd p2 e' c)
  | Disj p1 p2 =>
      match matcherEnd p1 e c with
      | Some r => Some r
      | None => matcherEnd p2 e c
      end
  | AssertStart => match e with O => c e | S _ => None end
  | AssertWordBoundary => if isWordBoundary input e then c e else None
  | StarSpace => repeatSpaceEnd (drop e input) e c
  end.

Definition matchEndAt (p : Pattern) (i : nat) : option nat :=
  matcherEnd p i Some.

(** The loop of [RegExpBuiltinExec]: the match is tried at [i], then at
    [i + 1], and so on, [tries] times. *)
Fixpoint search (p : Pattern) (tries i : nat) : option nat :=
  match tries with
  | O => None
  | S tries' =>
      match matchEndAt p i with
      | Some e => Some e
      | None => search p tries' (S i)
      end
  end.

End MatchEnd.

(** [RegExpBuiltinExec(R, S)], as far as [test] needs it: the end of
    the match if there is one, and the object afterwards. Without [g]
    and [y] the search starts at 0 and [lastIndex] is not written; with
    one of them it starts at [lastIndex], which is then set to the end
    of the match, or to 0 when there is none; with [y] the match is
    tried at [lastIndex] only. *)
Definition exec (R : Object) (S : list N) : option nat * Object :=
  let stateful := global R || sticky R in
  let start := if stateful then lastIndex R else 0 in
  let failure :=
    (None, if stateful then mkObject (source R) (global R) (sticky R) 0 else R) in
  if (length S <? start)%nat then failure
  else
    match (if sticky R then matchEndAt S (source R) start
           else search S (source R) (1 + (length S - start)) start) with
    | None => failure
    | Some e =>
        (Some e,
         if stateful then mkObject (source R) (global R) (sticky R) e else R)
    end.

(** Not [null]. *)
Definition found (m : option nat) : bool :=
  match m with Some _ => true | None => false end.

(** [R.test(S)]: whether [exec] finds a match. *)
Definition test (R : Object) (S : list N) : bool * Object :=
  let '(m, R') := exec R S in (found m, R').

(** One object tested on one text after the other. *)
Fixpoint tests (R : Object) (texts : list (list N)) : list bool * Object :=
  match texts with
  | [] => ([], R)
  | t :: rest =>
      let '(b, R') := test R t in
      let '(bs, R'') := tests R' rest in
      (b :: bs, R'')
  end.

End RegExp.

(* ================================================================== *)
(** ** The answer to a write, and the keys of the store *)
(* ================================================================== *)






(** Walks through a handler, branch by branch and answer by answer. *)
Ltac walk_answers leaf :=
  repeat first
    [ progress (unfold Prog_bind; cbn [every_answer bind])
    | match goal with
      | |- every_answer _ (if ?b then _ else _) => destruct b
      | |- every_answer _ (match ?x with _ => _ end) => destruct x
      | |- forall r : RunResult, _ => intros [?|?]
      | |- forall r : AllResult, _ => intros [?|?]
      end
    | solve [leaf] ].

(** Goes through the members of a list that is written out. *)
Ltac in_cases H :=
  repeat (destruct H as [H|H]);
  try contradiction; try discriminate H;
  try (injection H as <- <-); try (injection H as <-); auto.

(* ================================================================== *)
(** ** Facts about the built-ins *)
(* ================================================================== *)

Lemma repeatSpace_ext rest e c c' :
  (forall e', c e' = c' e') -> repeatSpace rest e c = repeatSpace rest e c'.
Proof.
  intros Hc. revert e. induction rest as [|ch rest IH]; intros e; simpl.
  - apply Hc.
  - rewrite IH, Hc. reflexivity.
Qed.

Lemma matcher_ext input p : forall e c c',
  (forall e', c e' = c' e') -> matcher input p e c = matcher input p e c'.
Proof.
  induction p as [|ch|p1 IH1 p2 IH2|p1 IH1 p2 IH2| | |]; intros e c c' Hc; simpl.
  - apply Hc.
  - destruct (input !! e); [|reflexivity]. rewrite Hc. reflexivity.
  - apply IH1. intros e'. apply IH2. exact Hc.
  - rewrite (IH1 e c c' Hc), (IH2 e c c' Hc). reflexivity.
  - destruct e; [apply Hc | reflexivity].
  - rewrite Hc. reflexivity.
  - apply repeatSpace_ext. exact Hc.
Qed.

Lemma existsb_same {A} (f g : A -> bool) l :
  (forall x, f x = g x) -> existsb f l = existsb g l.
Proof. intros H. induction l as [|x l IH]; simpl; [|rewrite H, IH]; reflexivity. Qed.

Lemma split_nonempty sep s : split sep s <> [].
Proof.
  destruct s as [|c s]; simpl; [discriminate|].
  destruct (N.eqb c sep); [discriminate|]. destruct (split sep s); discriminate.
Qed.

Lemma split_app_sep sep a b :
  split sep (a ++ sep :: b) = split sep a ++ split sep b.
Proof.
  induction a as [|c a IH]; simpl.
  - rewrite N.eqb_refl. reflexivity.
  - destruct (N.eqb c sep); rewrite IH; [reflexivity|].
    destruct (split sep a) as [|h t] eqn:E; [destruct (split_nonempty _ _ E)|].
    reflexivity.
Qed.

Lemma split_no_sep sep s :
  Forall (fun c => c <> sep) s -> split sep s = [s].
Proof.
  induction 1 as [|c s Hc Hs IH]; simpl; [reflexivity|].
  destruct (N.eqb_spec c sep); [contradiction|]. rewrite IH. reflexivity.
Qed.

Lemma segments_app_slash a b :
  segments (a ++ 47%N :: b) = segments a ++ segments b.
Proof. unfold segments. rewrite split_app_sep. apply List.filter_app. Qed.

Lemma segments_no_slash s :
  s <> [] -> Forall (fun c => c <> 47%N) s -> segments s = [s].
Proof.
  intros Hne Hs. unfold segments. rewrite (split_no_sep _ _ Hs).
  destruct s; [congruence | reflexivity].
Qed.

Lemma path_parts_after_prefix rest :
  path_parts (sql_prefix ++ rest) = lit "api" :: lit "v1" :: lit "sql" :: segments rest.
Proof.
  unfold path_parts, segments.
  change (sql_prefix ++ rest)
    with ([] ++ 47%N :: (lit "api" ++ 47%N :: (lit "v1" ++ 47%N
            :: (lit "sql" ++ 47%N :: rest)))).
  rewrite !split_app_sep, !List.filter_app. reflexivity.
Qed.

Lemma startsWith_app s p : startsWith s p = true -> s = p ++ drop (length p) s.
Proof.
  revert s. induction p as [|c p IH]; intros s H; [reflexivity|].
  destruct s as [|x s]; [discriminate|]. simpl in H.
  apply andb_true_iff in H as [Hx Hs]. apply N.eqb_eq in Hx. subst x.
  simpl. f_equal. apply IH, Hs.
Qed.

Lemma statement_after_prefix rest :
  statement_of_path (sql_prefix ++ rest)
  = match segments rest with
    | [] => None
    | _ :: _ => decodeURIComponent (join (lit "/") (segments rest))
    end.
Proof.
  unfold statement_of_path, path_tail. rewrite path_parts_after_prefix.
  destruct (segments rest); reflexivity.
Qed.

Lemma startsWith_prefix p r : startsWith (p ++ r) p = true.
Proof.
  induction p as [|c p IH]; [destruct r; reflexivity|].
  simpl. rewrite N.eqb_refl. exact IH.
Qed.

Lemma canonicalize_cases c :
  (is_lower c = true /\ canonicalize c = (c - 32)%N)
  \/ (is_lower c = false /\ canonicalize c = c).
Proof.
  unfold canonicalize, is_lower.
  destruct ((97 <=? c)%N && (c <=? 122)%N); [left | right]; split; reflexivity.
Qed.

Lemma canonicalize_letter x k :
  is_lower k = true -> canonicalize x = canonicalize k -> isWordChar x = true.
Proof.
  intros Hk Hx.
  destruct (canonicalize_cases k) as [[_ Ek]|[Hk' _]]; [|congruence].
  destruct (canonicalize_cases x) as [[Hx' Ex]|[Hx' Ex]];
    rewrite Ek, Ex in Hx; unfold is_lower, isWordChar in *; as_arith; lia.
Qed.

Lemma white_space_not_word c : isWhiteSpace c = true -> isWordChar c = false.
Proof.
  intros H. apply not_true_is_false. intros Hw.
  unfold isWhiteSpace, isWordChar in *. as_arith. lia.
Qed.

Lemma white_space_not_letter c k :
  is_lower k = true -> isWhiteSpace c = true ->
  N.eqb (canonicalize c) (canonicalize k) = false.
Proof.
  intros Hk Hc. apply N.eqb_neq. intros Heq.
  pose proof (canonicalize_letter c k Hk Heq) as Hw.
  rewrite (white_space_not_word c Hc) in Hw. discriminate.
Qed.

Section MatcherFacts.

Variable input : jsstring.

(** A keyword matches at [e] exactly when the input reads it there, in
    any letter case. *)
Lemma matcher_word kw : forall e c,
  matcher input (word kw) e c
  = bool_decide (map canonicalize (take (length kw) (drop e input))
                 = map canonicalize kw)
    && c (e + length kw).
Proof.
  induction kw as [|k kw IH]; intros e c; simpl.
  - rewrite Nat.add_0_r. reflexivity.
  - destruct (input !! e) as [x|] eqn:Hx.
    + rewrite (drop_S _ _ _ Hx). simpl.
      destruct (N.eqb_spec (canonicalize x) (canonicalize k)) as [Heq|Hne].
      * rewrite IH, Heq. replace (S e + length kw) with (e + S (length kw)) by lia.
        f_equal. apply bool_decide_ext. split; intros H; congruence.
      * symmetry. apply andb_false_iff. left.
        apply bool_decide_eq_false. intros H. congruence.
    + rewrite drop_ge by (apply lookup_ge_None; exact Hx).
      rewrite take_nil. simpl. reflexivity.
Qed.

Lemma matcher_any_of p qs e c :
  matcher input (any_of p qs) e c = existsb (fun q => matcher input q e c) (p :: qs).
Proof.
  revert p. induction qs as [|q qs IH]; intros p; simpl.
  - rewrite orb_false_r. reflexivity.
  - rewrite IH. reflexivity.
Qed.

Lemma repeatSpace_false rest e c :
  (forall e', c e' = false) -> repeatSpace rest e c = false.
Proof.
  intros Hc. revert e. induction rest as [|ch rest IH]; intros e; simpl.
  - apply Hc.
  - destruct (isWhiteSpace ch); rewrite ?IH, ?Hc; reflexivity.
Qed.

End MatcherFacts.

Lemma test_true p s :
  test p s = true <-> exists i, i <= length s /\ matchesAt s p i = true.
Proof.
  unfold test. rewrite existsb_exists. split.
  - intros (i & Hin & Hm). exists i. split; [|exact Hm].
    apply in_seq in Hin. lia.
  - intros (i & Hle & Hm). exists i. split; [|exact Hm].
    apply in_seq. lia.
Qed.

Lemma test_false p s :
  (forall i, matchesAt s p i = false) -> test p s = false.
Proof.
  intros H. destruct (test p s) eqn:Ht; [|reflexivity].
  apply test_true in Ht. destruct Ht as (i & _ & Hm). rewrite H in Hm. discriminate.
Qed.

(** *** Word boundaries and whole words *)

Lemma isWordBoundary_app pre rest :
  isWordBoundary (pre ++ rest) (length pre)
  = xorb (word_char_opt (last pre)) (word_char_opt (head rest)).
Proof.
  unfold isWordBoundary, wordCharAt.
  rewrite (lookup_app_r pre rest (length pre)) by lia.
  rewrite Nat.sub_diag, <- head_lookup. f_equal.
  destruct pre as [|a pre] using rev_ind; [reflexivity|].
  rewrite last_snoc, length_app. simpl.
  replace (length pre + 1) with (S (length pre)) by lia.
  rewrite <- app_assoc. rewrite (lookup_app_r pre _ (length pre)) by lia.
  rewrite Nat.sub_diag. reflexivity.
Qed.

Lemma isWordBoundary_split text i :
  i <= length text ->
  isWordBoundary text i
  = xorb (word_char_opt (last (take i text))) (word_char_opt (head (drop i text))).
Proof.
  intros Hi. rewrite <- (take_drop i text) at 1.
  rewrite <- (isWordBoundary_app (take i text) (drop i text)).
  rewrite length_take. f_equal. lia.
Qed.

Lemma same_letters_word_chars w kw :
  map canonicalize w = map canonicalize kw ->
  forallb is_lower kw = true ->
  Forall (fun c => isWordChar c = true) w.
Proof.
  revert kw. induction w as [|x w IH]; intros [|k kw] Hm Hl; try discriminate.
  - constructor.
  - simpl in Hm, Hl. apply andb_true_iff in Hl as [Hk Hl].
    injection Hm as Hx Hm. constructor.
    + eapply canonicalize_letter; eassumption.
    + eapply IH; eassumption.
Qed.

Lemma word_chars_head w post :
  w <> [] -> Forall (fun c => isWordChar c = true) w ->
  word_char_opt (head (w ++ post)) = true.
Proof.
  intros Hne Hw. destruct w as [|x w]; [congruence|].
  simpl. apply (Forall_inv Hw).
Qed.

Lemma word_chars_last pre w :
  w <> [] -> Forall (fun c => isWordChar c = true) w ->
  word_char_opt (last (pre ++ w)) = true.
Proof.
  intros Hne Hw. destruct w as [|x w] using rev_ind; [congruence|].
  rewrite app_assoc, last_snoc. simpl.
  apply Forall_app in Hw as [_ Hx]. apply (Forall_inv Hx).
Qed.

Lemma free_before_spec pre : free_before pre <-> word_char_opt (last pre) = false.
Proof. unfold free_before. destruct (last pre); simpl; intuition. Qed.

Lemma free_after_spec post : free_after post <-> word_char_opt (head post) = false.
Proof. unfold free_after. destruct (head post); simpl; intuition. Qed.

Lemma matcher_alternatives input ps e c :
  ps <> [] ->
  matcher input (alternatives ps) e c = existsb (fun q => matcher input q e c) ps.
Proof.
  destruct ps as [|p qs]; [congruence|]. intros _. apply matcher_any_of.
Qed.

Lemma matchesAt_bounded text kws i :
  kws <> [] ->
  matchesAt text (bounded (map word kws)) i
  = isWordBoundary text i
    && existsb (fun kw =>
                  bool_decide (map canonicalize (take (length kw) (drop i text))
                               = map canonicalize kw)
                  && isWordBoundary text (i + length kw)) kws.
Proof.
  intros Hne. unfold matchesAt, bounded. cbn [matcher].
  destruct (isWordBoundary text i); [|reflexivity]. simpl andb.
  rewrite matcher_alternatives by (destruct kws; [congruence | discriminate]).
  induction kws as [|kw kws IH]; [reflexivity|].
  simpl. f_equal.
  - rewrite matcher_word. f_equal. destruct (isWordBoundary text _); reflexivity.
  - destruct kws as [|kw' kws']; [reflexivity|]. apply IH. discriminate.
Qed.

(** A whole-word occurrence of one of the keywords is exactly what
    [\b(k1|...|kn)\b] finds. *)
Lemma bounded_test_iff kws text :
  kws <> [] ->
  Forall (fun kw => kw <> [] /\ forallb is_lower kw = true) kws ->
  test (bounded (map word kws)) text = true
  <-> exists kw, In kw kws /\ occurs_as_word kw text.
Proof.
  intros Hne Hkws. rewrite test_true. split.
  - intros (i & Hi & Hm). rewrite matchesAt_bounded in Hm by exact Hne.
    apply andb_true_iff in Hm as [Hb Hex].
    apply existsb_exists in Hex as (kw & Hin & Hkw).
    apply andb_true_iff in Hkw as [Hci Ha]. apply bool_decide_eq_true in Hci.
    rewrite Forall_forall in Hkws.
    destruct (Hkws kw) as [Hkne Hlow]; [apply list_elem_of_In; exact Hin|].
    assert (Hlen : length (take (length kw) (drop i text)) = length kw).
    { apply (f_equal length) in Hci. rewrite !length_map in Hci. exact Hci. }
    pose proof (same_letters_word_chars _ _ Hci Hlow) as Hw.
    assert (Hwne : take (length kw) (drop i text) <> []).
    { intros E. rewrite E in Hlen. destruct kw; [congruence | discriminate]. }
    exists kw. split; [exact Hin|].
    exists (take i text), (take (length kw) (drop i text)),
      (drop (length kw) (drop i text)).
    split; [rewrite take_drop, take_drop; reflexivity|].
    split; [exact Hci|]. split.
    + apply free_before_spec. rewrite isWordBoundary_split in Hb by exact Hi.
      rewrite <- (take_drop (length kw) (drop i text)) in Hb.
      rewrite (word_chars_head _ _ Hwne Hw) in Hb.
      destruct (word_char_opt (last (take i text))); [discriminate | reflexivity].
    + apply free_after_spec.
      assert (Hi' : i + length kw <= length text).
      { rewrite length_take, length_drop in Hlen. lia. }
      rewrite isWordBoundary_split in Ha by exact Hi'.
      rewrite <- take_take_drop in Ha.
      rewrite (word_chars_last _ _ Hwne Hw) in Ha.
      rewrite drop_drop.
      destruct (word_char_opt _); [discriminate | reflexivity].
  - intros (kw & Hin & pre & w & post & -> & Hci & Hb & Ha).
    rewrite Forall_forall in Hkws.
    destruct (Hkws kw) as [Hkne Hlow]; [apply list_elem_of_In; exact Hin|].
    pose proof (same_letters_word_chars _ _ Hci Hlow) as Hw.
    assert (Hlen : length w = length kw).
    { apply (f_equal length) in Hci. rewrite !length_map in Hci. exact Hci. }
    assert (Hwne : w <> []).
    { intros ->. destruct kw; [congruence | discriminate]. }
    exists (length pre). split; [rewrite length_app; lia|].
    rewrite matchesAt_bounded by exact Hne. apply andb_true_iff. split.
    + rewrite isWordBoundary_app, (word_chars_head _ _ Hwne Hw).
      apply free_before_spec in Hb. rewrite Hb. reflexivity.
    + apply existsb_exists. exists kw. split; [exact Hin|].
      apply andb_true_iff. split.
      * apply bool_decide_eq_true. rewrite drop_app_length, <- Hlen.
        rewrite take_app_length. exact Hci.
      * rewrite <- Hlen, <- length_app, app_assoc.
        rewrite isWordBoundary_app, (word_chars_last _ _ Hwne Hw).
        apply free_after_spec in Ha. rewrite Ha. reflexivity.
Qed.

(** *** Leading keywords: [^\s*keyword\b] *)

Lemma repeatSpace_true rest e c :
  repeatSpace rest e c = true
  <-> exists n, n <= length rest /\ blank (take n rest) /\ c (e + n) = true.
Proof.
  revert e. induction rest as [|ch rest IH]; intros e; simpl.
  - split.
    + intros H. exists 0. rewrite Nat.add_0_r. repeat split; [lia | constructor | exact H].
    + intros (n & Hn & _ & Hc). replace n with 0 in Hc by lia.
      rewrite Nat.add_0_r in Hc. exact Hc.
  - destruct (isWhiteSpace ch) eqn:Hws.
    + rewrite orb_true_iff, IH. split.
      * intros [(n & Hn & Hb & Hc) | Hc].
        -- exists (S n). split; [lia|]. split; [constructor; assumption|].
           replace (e + S n) with (S e + n) by lia. exact Hc.
        -- exists 0. rewrite Nat.add_0_r. repeat split; [lia | constructor | exact Hc].
      * intros ([|n] & Hn & Hb & Hc).
        -- right. rewrite Nat.add_0_r in Hc. exact Hc.
        -- left. exists n. split; [lia|]. split; [exact (Forall_inv_tail Hb)|].
           replace (S e + n) with (e + S n) by lia. exact Hc.
    + split.
      * intros Hc. exists 0. rewrite Nat.add_0_r.
        repeat split; [lia | constructor | exact Hc].
      * intros ([|n] & Hn & Hb & Hc).
        -- rewrite Nat.add_0_r in Hc. exact Hc.
        -- apply Forall_inv in Hb. congruence.
Qed.

Lemma anchored_test_iff kw text :
  kw <> [] -> forallb is_lower kw = true ->
  test (anchored kw) text = true <-> begins_with_word kw text.
Proof.
  intros Hkne Hlow. rewrite test_true. split.
  - intros (i & Hi & Hm). unfold matchesAt, anchored in Hm. cbn [matcher] in Hm.
    destruct i as [|i]; [|discriminate]. rewrite drop_0 in Hm.
    apply repeatSpace_true in Hm as (n & Hn & Hb & Hm). simpl in Hm.
    rewrite matcher_word in Hm. apply andb_true_iff in Hm as [Hci Ha].
    apply bool_decide_eq_true in Hci.
    destruct (isWordBoundary text (n + length kw)) eqn:Hwb; [|discriminate].
    assert (Hlen : length (take (length kw) (drop n text)) = length kw).
    { apply (f_equal length) in Hci. rewrite !length_map in Hci. exact Hci. }
    pose proof (same_letters_word_chars _ _ Hci Hlow) as Hw.
    assert (Hwne : take (length kw) (drop n text) <> []).
    { intros E. rewrite E in Hlen. destruct kw; [congruence | discriminate]. }
    exists (take n text), (take (length kw) (drop n text)),
      (drop (length kw) (drop n text)).
    split; [rewrite take_drop, take_drop; reflexivity|].
    split; [exact Hb|]. split; [exact Hci|].
    apply free_after_spec.
    assert (Hi' : n + length kw <= length text).
    { rewrite length_take, length_drop in Hlen. lia. }
    rewrite isWordBoundary_split in Hwb by exact Hi'.
    rewrite <- take_take_drop in Hwb.
    rewrite (word_chars_last _ _ Hwne Hw) in Hwb.
    rewrite drop_drop.
    destruct (word_char_opt _); [discriminate | reflexivity].
  - intros (ws & w & post & -> & Hb & Hci & Ha).
    pose proof (same_letters_word_chars _ _ Hci Hlow) as Hw.
    assert (Hlen : length w = length kw).
    { apply (f_equal length) in Hci. rewrite !length_map in Hci. exact Hci. }
    assert (Hwne : w <> []).
    { intros ->. destruct kw; [congruence | discriminate]. }
    exists 0. split; [lia|]. unfold matchesAt, anchored. cbn [matcher].
    rewrite drop_0. apply repeatSpace_true. exists (length ws).
    split; [rewrite length_app; lia|].
    split; [rewrite take_app_length; exact Hb|]. simpl.
    rewrite matcher_word. apply andb_true_iff. split.
    + apply bool_decide_eq_true. rewrite drop_app_length, <- Hlen.
      rewrite take_app_length. exact Hci.
    + rewrite <- Hlen, <- length_app, app_assoc.
      rewrite isWordBoundary_app, (word_chars_last _ _ Hwne Hw).
      apply free_after_spec in Ha. rewrite Ha. reflexivity.
Qed.

(** *** The four predicates, in words *)

Lemma forbidden_keywords_are_words :
  Forall (fun kw : list N => kw <> [] /\ forallb is_lower kw = true)
    Sql.forbidden_keywords.
Proof. repeat constructor; discriminate. Qed.

Lemma isForbidden_iff text :
  Sql.isForbidden text = true
  <-> exists kw, In kw Sql.forbidden_keywords /\ occurs_as_word kw text.
Proof.
  apply (bounded_test_iff Sql.forbidden_keywords text);
    [discriminate | exact forbidden_keywords_are_words].
Qed.

Lemma touchesPatient_iff text :
  Sql.touchesPatient text = true <-> occurs_as_word (lit "patient") text.
Proof.
  pose proof (bounded_test_iff [lit "patient"] text) as H.
  change (test (bounded (map word [lit "patient"])) text)
    with (Sql.touchesPatient text) in H.
  rewrite H; [| discriminate | repeat constructor; discriminate].
  split.
  - intros (kw & [<-|[]] & Hocc). exact Hocc.
  - intros Hocc. exists (lit "patient"). split; [left; reflexivity | exact Hocc].
Qed.

Lemma isSelect_iff text :
  Sql.isSelect text = true <-> begins_with_word (lit "select") text.
Proof. apply (anchored_test_iff (lit "select") text); [discriminate | reflexivity]. Qed.

Lemma isInsert_iff text :
  Sql.isInsert text = true <-> begins_with_word (lit "insert") text.
Proof. apply (anchored_test_iff (lit "insert") text); [discriminate | reflexivity]. Qed.

(** The earlier server's copies are the same functions. *)
Lemma Server2_predicates text :
  Server2.isForbidden text = Sql.isForbidden text
  /\ Server2.isSelect text = Sql.isSelect text
  /\ Server2.isInsert text = Sql.isInsert text
  /\ Server2.touchesPatient text = Sql.touchesPatient text.
Proof. repeat split; reflexivity. Qed.

(** *** Blank text and [trim] *)

Lemma trimStart_nil s : trimStart s = [] <-> blank s.
Proof.
  unfold blank. induction s as [|c s IH]; simpl.
  - split; [constructor | reflexivity].
  - destruct (isWhiteSpace c) eqn:Hc.
    + rewrite IH. split; [intros H; constructor; assumption|].
      intros H. exact (Forall_inv_tail H).
    + split; [discriminate|]. intros H. apply Forall_inv in H. congruence.
Qed.

Lemma trimStart_head s : blank (trimStart s) -> trimStart s = [].
Proof.
  unfold blank. induction s as [|c s IH]; simpl; [reflexivity|].
  destruct (isWhiteSpace c) eqn:Hc; [exact IH|].
  intros H. apply Forall_inv in H. congruence.
Qed.

Lemma trim_blank s : truthy (trim s) = false <-> blank s.
Proof.
  unfold trim. split.
  - intros H. apply trimStart_nil.
    destruct (rev (trimStart (rev (trimStart s)))) as [|x l] eqn:E; [|discriminate].
    apply (f_equal (@rev N)) in E. rewrite rev_involutive in E. simpl in E.
    apply trimStart_nil in E. apply trimStart_head.
    unfold blank in *. rewrite <- (rev_involutive (trimStart s)).
    apply Forall_rev. exact E.
  - intros H. apply trimStart_nil in H. rewrite H. reflexivity.
Qed.

Lemma blank_app a b : blank (a ++ b) <-> blank a /\ blank b.
Proof. unfold blank. apply Forall_app. Qed.

(** A text with a keyword in it is not blank. *)
Lemma same_letters_not_blank w kw :
  kw <> [] -> forallb is_lower kw = true ->
  map canonicalize w = map canonicalize kw -> ~ blank w.
Proof.
  intros Hne Hlow Hci Hb.
  pose proof (same_letters_word_chars _ _ Hci Hlow) as Hw.
  destruct w as [|x w].
  - destruct kw; [congruence | discriminate].
  - apply Forall_inv in Hw. apply Forall_inv in Hb.
    apply white_space_not_word in Hb. congruence.
Qed.

Lemma denylisted_not_blank text : denylisted text -> ~ blank text.
Proof.
  intros (kw & Hin & pre & w & post & -> & Hci & _) Hb.
  apply blank_app in Hb as [_ Hb]. apply blank_app in Hb as [Hb _].
  pose proof forbidden_keywords_are_words as Hk. rewrite Forall_forall in Hk.
  destruct (Hk kw) as [Hne Hlow]; [apply list_elem_of_In; exact Hin|].
  exact (same_letters_not_blank w kw Hne Hlow Hci Hb).
Qed.

Lemma begins_with_word_not_blank kw text :
  kw <> [] -> forallb is_lower kw = true ->
  begins_with_word kw text -> ~ blank text.
Proof.
  intros Hne Hlow (ws & w & post & -> & _ & Hci & _) Hb.
  apply blank_app in Hb as [_ Hb]. apply blank_app in Hb as [Hb _].
  exact (same_letters_not_blank w kw Hne Hlow Hci Hb).
Qed.

Lemma blank_predicates text :
  blank text ->
  Sql.isForbidden text = false /\ Sql.isSelect text = false
  /\ Sql.isInsert text = false /\ Sql.touchesPatient text = false.
Proof.
  intros Hb. repeat split; apply not_true_is_false; intros H.
  - apply isForbidden_iff in H. exact (denylisted_not_blank text H Hb).
  - apply isSelect_iff in H.
    refine (begins_with_word_not_blank _ text _ _ H Hb); [discriminate | reflexivity].
  - apply isInsert_iff in H.
    refine (begins_with_word_not_blank _ text _ _ H Hb); [discriminate | reflexivity].
  - apply touchesPatient_iff in H. destruct H as (pre & w & post & -> & Hci & _).
    apply blank_app in Hb as [_ Hb]. apply blank_app in Hb as [Hb _].
    refine (same_letters_not_blank w _ _ _ Hci Hb); [discriminate | reflexivity].
Qed.

Lemma approved_not_blank text i : classify text i = Approved -> ~ blank text.
Proof.
  intros Hc Hb. destruct (blank_predicates text Hb) as (Hf & Hs & Hi & Ht).
  unfold classify, intent_shape in Hc. rewrite Hf, Hs, Hi in Hc.
  destruct i; discriminate.
Qed.

(** *** A statement taken from a path is never empty *)

Lemma utf16Encode_nonempty cp r : utf16Encode cp ++ r <> [].
Proof. unfold utf16Encode. destruct (cp <? 65536)%N; discriminate. Qed.

Lemma utf8Decode_nonempty ts r :
  ts <> [] -> utf8Decode ts = Some r -> r <> [].
Proof.
  destruct ts as [|t ts]; [congruence|]. intros _. simpl.
  repeat case_match; try discriminate;
    intros [= <-]; try discriminate; apply utf16Encode_nonempty.
Qed.

Lemma uriTokens_nonempty s ts :
  s <> [] -> uriTokens s = Some ts -> ts <> [].
Proof.
  destruct s as [|c s]; [congruence|]. intros _. simpl.
  repeat case_match; try discriminate; intros [= <-]; discriminate.
Qed.

Lemma decodeURIComponent_nonempty s r :
  s <> [] -> decodeURIComponent s = Some r -> r <> [].
Proof.
  unfold decodeURIComponent. intros Hs.
  destruct (uriTokens s) as [ts|] eqn:Hts; [|discriminate].
  apply utf8Decode_nonempty. exact (uriTokens_nonempty s ts Hs Hts).
Qed.

Lemma join_nonempty sep parts :
  parts <> [] -> Forall (fun p : list N => p <> []) parts -> join sep parts <> [].
Proof.
  destruct parts as [|p ps]; [congruence|]. intros _ Hall.
  apply Forall_inv in Hall. simpl.
  destruct ps; [exact Hall|]. destruct p; [congruence | discriminate].
Qed.

Lemma path_parts_nonempty pathname :
  Forall (fun p : list N => p <> []) (path_parts pathname).
Proof.
  apply Forall_forall. intros p Hin. apply list_elem_of_In in Hin.
  apply filter_In in Hin as [_ Hp]. destruct p; [discriminate | discriminate].
Qed.

Lemma statement_of_path_nonempty pathname :
  statement_of_path pathname <> Some [].
Proof.
  unfold statement_of_path, path_tail. intros H.
  destruct (Nat.ltb_spec (length (path_parts pathname)) 4) as [Hlt|Hge];
    [discriminate|].
  refine (decodeURIComponent_nonempty _ _ _ H eq_refl).
  apply join_nonempty.
  - intros E. apply (f_equal length) in E. rewrite length_drop in E.
    simpl in E. lia.
  - apply Forall_drop, path_parts_nonempty.
Qed.

(** *** Programs and what they send *)

Lemma Sends_Ret_inv {A} (a : A) q : ~ Sends (Ret a) q.
Proof. intros H. inversion H. Qed.

Lemma Sends_DbRun_inv {A} sql params (k : RunResult -> Prog A) q :
  Sends (DbRun sql params k) q -> q = sql \/ exists r, Sends (k r) q.
Proof. intros H. inversion H; subst; [left; reflexivity | right; eauto]. Qed.

Lemma Sends_DbAll_inv {A} sql (k : AllResult -> Prog A) q :
  Sends (DbAll sql k) q -> q = sql \/ exists r, Sends (k r) q.
Proof. intros H. inversion H; subst; [left; reflexivity | right; eauto]. Qed.

Lemma answers_directly_Some {A} (p : Prog A) a :
  answers_directly p = Some a <-> p = Ret a.
Proof.
  destruct p; simpl; split; intros H; try discriminate; congruence.
Qed.

(** *** The gate of the two SQL handlers *)

Lemma get_gate pathname sql :
  statement_of_path pathname = Some sql ->
  answers_directly (SQLiteServer.handleGetSql pathname)
  = sent sendJSON <$> rejection (classify sql Read) Read.
Proof.
  unfold statement_of_path, SQLiteServer.handleGetSql, path_tail, classify, intent_shape.
  destruct (length (path_parts pathname) <? 4)%nat; [discriminate|].
  intros ->.
  destruct (Sql.isForbidden sql); [reflexivity|].
  destruct (Sql.isSelect sql); [|reflexivity].
  destruct (Sql.touchesPatient sql); reflexivity.
Qed.

Lemma post_gate sql :
  ~ blank sql ->
  answers_directly (SQLiteServer.handlePostSql (BodyQuery sql))
  = sent sendJSON <$> rejection (classify sql Write) Write.
Proof.
  intros Hb. unfold SQLiteServer.handlePostSql, classify, intent_shape.
  destruct (truthy (trim sql)) eqn:Ht;
    [|apply trim_blank in Ht; contradiction].
  destruct (Sql.isForbidden sql); [reflexivity|].
  destruct (Sql.isInsert sql); [|reflexivity].
  destruct (Sql.touchesPatient sql); reflexivity.
Qed.

Lemma get_gate2 origin pathname sql :
  statement_of_path pathname = Some sql ->
  answers_directly (Server2.handleGetSql origin pathname)
  = sent (Server2.sendJSON origin) <$> rejection (classify sql Read) Read.
Proof.
  unfold statement_of_path, Server2.handleGetSql, path_tail, classify, intent_shape.
  destruct (length (path_parts pathname) <? 4)%nat; [discriminate|].
  intros ->. destruct (Server2_predicates sql) as (-> & -> & _ & ->).
  destruct (Sql.isForbidden sql); [reflexivity|].
  destruct (Sql.isSelect sql); [|reflexivity].
  destruct (Sql.touchesPatient sql); reflexivity.
Qed.

Lemma post_gate2 origin sql :
  ~ blank sql ->
  answers_directly (Server2.handlePostSql origin (BodyQuery sql))
  = sent (Server2.sendJSON origin) <$> rejection (classify sql Write) Write.
Proof.
  intros Hb. unfold Server2.handlePostSql, classify, intent_shape.
  destruct (truthy (trim sql)) eqn:Ht;
    [|apply trim_blank in Ht; contradiction].
  destruct (Server2_predicates sql) as (-> & _ & -> & ->).
  destruct (Sql.isForbidden sql); [reflexivity|].
  destruct (Sql.isInsert sql); [|reflexivity].
  destruct (Sql.touchesPatient sql); reflexivity.
Qed.

Lemma denylisted_classify text i : denylisted text -> classify text i = Forbidden.
Proof.
  intros H. apply isForbidden_iff in H. unfold classify. rewrite H. reflexivity.
Qed.

(* ================================================================== *)
(** ** The denylist *)
(* ================================================================== *)

(** C1. A text that contains one of the ten keywords of the denylist as a
    whole word, in any letter case, is classified Forbidden: the
    predicate of either server says so, on either channel, and both SQL
    handlers of both servers answer 403 "Forbidden statement.", whether
    or not the text names the patient table. *)
Theorem denylisted_text_is_forbidden (origin text : list N) :
  denylisted text ->
  Sql.isForbidden text = true
  /\ Server2.isForbidden text = true
  /\ (forall i, classify text i = Forbidden)
  /\ (forall pathname,
        statement_of_path pathname = Some text ->
        SQLiteServer.handleGetSql pathname = Ret (sent sendJSON forbidden_reply)
        /\ Server2.handleGetSql origin pathname
           = Ret (sent (Server2.sendJSON origin) forbidden_reply))
  /\ SQLiteServer.handlePostSql (BodyQuery text)
     = Ret (sent sendJSON forbidden_reply)
  /\ Server2.handlePostSql origin (BodyQuery text)
     = Ret (sent (Server2.sendJSON origin) forbidden_reply).
Proof.
  intros Hd. pose proof (denylisted_not_blank text Hd) as Hnb.
  pose proof (denylisted_classify text) as Hc.
  split; [apply isForbidden_iff; exact Hd|].
  split; [apply isForbidden_iff; exact Hd|].
  split; [intros i; apply Hc; exact Hd|].
  split; [intros pathname Hp; split|split]; apply answers_directly_Some.
  - rewrite (get_gate pathname text Hp), (Hc Read Hd). reflexivity.
  - rewrite (get_gate2 origin pathname text Hp), (Hc Read Hd). reflexivity.
  - rewrite (post_gate text Hnb), (Hc Write Hd). reflexivity.
  - rewrite (post_gate2 origin text Hnb), (Hc Write Hd). reflexivity.
Qed.

Lemma smuggled_denylisted : denylisted smuggled.
Proof.
  exists (lit "drop"). split; [right; right; left; reflexivity|].
  exists (lit "select name from patient where 1; "), (lit "DrOp"), (lit " it").
  repeat split; reflexivity.
Defined.

Lemma denylisted_text_is_forbidden_witness :
  denylisted smuggled
  /\ Sql.isForbidden smuggled = true
  /\ SQLiteServer.handlePostSql (BodyQuery smuggled)
     = Ret (sent sendJSON forbidden_reply).
Proof.
  split; [exact smuggled_denylisted|].
  pose proof (denylisted_text_is_forbidden (lit "*") smuggled smuggled_denylisted)
    as (H1 & _ & _ & _ & H5 & _).
  split; [exact H1 | exact H5].
Defined.

(* ================================================================== *)
(** ** The order of the checks, and what reaches the store *)
(* ================================================================== *)

Lemma replies_differ i :
  forbidden_reply <> wrong_intent_reply i /\ forbidden_reply <> out_of_scope_reply.
Proof. destruct i; split; discriminate. Qed.

(** C3. The three checks run in a fixed order and the first that fails
    decides: the denylist, then the shape for the channel, then the
    table. Both SQL handlers of both servers answer with the rejection of
    that first failing check, and send the statement on only when none
    fails. In particular a denylisted text is answered Forbidden even
    when it also has the wrong shape or does not name the table. *)
Theorem checks_run_in_order (origin sql : list N) (i : Intent) :
  (Sql.isForbidden sql = true -> classify sql i = Forbidden)
  /\ (Sql.isForbidden sql = false -> intent_shape i sql = false ->
      classify sql i = WrongIntent)
  /\ (Sql.isForbidden sql = false -> intent_shape i sql = true ->
      Sql.touchesPatient sql = false -> classify sql i = OutOfScope)
  /\ (Sql.isForbidden sql = false -> intent_shape i sql = true ->
      Sql.touchesPatient sql = true -> classify sql i = Approved)
  /\ (forall pathname,
        statement_of_path pathname = Some sql ->
        answers_directly (SQLiteServer.handleGetSql pathname)
        = sent sendJSON <$> rejection (classify sql Read) Read
        /\ answers_directly (Server2.handleGetSql origin pathname)
           = sent (Server2.sendJSON origin) <$> rejection (classify sql Read) Read)
  /\ (~ blank sql ->
      answers_directly (SQLiteServer.handlePostSql (BodyQuery sql))
      = sent sendJSON <$> rejection (classify sql Write) Write
      /\ answers_directly (Server2.handlePostSql origin (BodyQuery sql))
         = sent (Server2.sendJSON origin) <$> rejection (classify sql Write) Write)
  /\ (denylisted sql ->
      (intent_shape i sql = false \/ Sql.touchesPatient sql = false) ->
      rejection (classify sql i) i = Some forbidden_reply
      /\ forbidden_reply <> wrong_intent_reply i
      /\ forbidden_reply <> out_of_scope_reply).
Proof.
  unfold classify.
  split; [intros ->; reflexivity|].
  split; [intros -> ->; reflexivity|].
  split; [intros -> -> ->; reflexivity|].
  split; [intros -> -> ->; reflexivity|].
  split; [intros pathname Hp; split;
          [apply get_gate | apply get_gate2]; exact Hp|].
  split; [intros Hb; split; [apply post_gate | apply post_gate2]; exact Hb|].
  intros Hd _. apply isForbidden_iff in Hd. rewrite Hd.
  split; [reflexivity | apply replies_differ].
Qed.

Lemma drop_other_denylisted : denylisted drop_other.
Proof.
  exists (lit "drop"). split; [right; right; left; reflexivity|].
  exists [], (lit "drop"), (lit " table x"). repeat split; reflexivity.
Defined.

Lemma checks_run_in_order_witness :
  denylisted drop_other
  /\ (intent_shape Read drop_other = false \/ Sql.touchesPatient drop_other = false)
  /\ rejection (classify drop_other Read) Read = Some forbidden_reply.
Proof.
  split; [exact drop_other_denylisted|].
  split; [left; reflexivity|].
  apply (checks_run_in_order (lit "*") drop_other Read).
  - exact drop_other_denylisted.
  - left. reflexivity.
Defined.

Lemma run_runSelect E sql s :
  run E (SQLiteServer.runSelect sql) s = select_outcome E sql s.
Proof.
  unfold select_outcome. simpl.
  destruct (engine_run E SQLiteServer.ensure_sql [] s) as [[e|this] s1]; simpl;
    [reflexivity|].
  destruct (engine_all E sql s1) as [[e|rows] s2]; reflexivity.
Qed.

Lemma run_runInsert E sql s :
  run E (SQLiteServer.runInsert sql) s = insert_outcome E sql s.
Proof.
  unfold insert_outcome. simpl.
  destruct (engine_run E SQLiteServer.ensure_sql [] s) as [[e|this] s1]; simpl;
    [reflexivity|].
  destruct (engine_run E sql [] s1) as [[e|this'] s2]; reflexivity.
Qed.

Lemma get_sends pathname q :
  Sends (SQLiteServer.handleGetSql pathname) q ->
  exists sql, statement_of_path pathname = Some sql
              /\ classify sql Read = Approved
              /\ (q = SQLiteServer.ensure_sql \/ q = sql).
Proof.
  unfold statement_of_path, SQLiteServer.handleGetSql, path_tail.
  destruct (length (path_parts pathname) <? 4)%nat;
    [intros H; destruct (Sends_Ret_inv _ _ H)|].
  destruct (decodeURIComponent _) as [sql|];
    [|intros H; destruct (Sends_Ret_inv _ _ H)].
  destruct (Sql.isForbidden sql) eqn:Hf;
    [intros H; destruct (Sends_Ret_inv _ _ H)|].
  destruct (Sql.isSelect sql) eqn:Hs;
    [|intros H; destruct (Sends_Ret_inv _ _ H)].
  destruct (Sql.touchesPatient sql) eqn:Ht;
    [|intros H; destruct (Sends_Ret_inv _ _ H)].
  intros H. exists sql. split; [reflexivity|].
  split; [unfold classify, intent_shape; rewrite Hf, Hs, Ht; reflexivity|].
  apply Sends_DbRun_inv in H as [->|[r H]]; [left; reflexivity|].
  destruct r as [e|this]; simpl in H; [destruct (Sends_Ret_inv _ _ H)|].
  apply Sends_DbAll_inv in H as [->|[r H]]; [right; reflexivity|].
  destruct r; simpl in H; destruct (Sends_Ret_inv _ _ H).
Qed.

Lemma post_sends b q :
  Sends (SQLiteServer.handlePostSql b) q ->
  exists sql, b = BodyQuery sql
              /\ classify sql Write = Approved
              /\ (q = SQLiteServer.ensure_sql \/ q = sql).
Proof.
  unfold SQLiteServer.handlePostSql.
  destruct b as [m| |sql]; try (intros H; destruct (Sends_Ret_inv _ _ H)).
  destruct (truthy (trim sql)); [|intros H; destruct (Sends_Ret_inv _ _ H)].
  destruct (Sql.isForbidden sql) eqn:Hf;
    [intros H; destruct (Sends_Ret_inv _ _ H)|].
  destruct (Sql.isInsert sql) eqn:Hs;
    [|intros H; destruct (Sends_Ret_inv _ _ H)].
  destruct (Sql.touchesPatient sql) eqn:Ht;
    [|intros H; destruct (Sends_Ret_inv _ _ H)].
  intros H. exists sql. split; [reflexivity|].
  split; [unfold classify, intent_shape; rewrite Hf, Hs, Ht; reflexivity|].
  apply Sends_DbRun_inv in H as [->|[r H]]; [left; reflexivity|].
  destruct r as [e|this]; simpl in H; [destruct (Sends_Ret_inv _ _ H)|].
  apply Sends_DbRun_inv in H as [->|[r H]]; [right; reflexivity|].
  destruct r; simpl in H; destruct (Sends_Ret_inv _ _ H).
Qed.

(** C2. A request whose text fails a check is answered without any
    operation on the store; whatever the GET and POST handlers do send to
    the store is the table check of the adapter or the very text of a
    statement that passed all three checks; and the adapter itself looks
    at no text: [runSelect] and [runInsert] hand any text on. *)
Theorem only_approved_statements_reach_the_store :
  (forall pathname sql,
      statement_of_path pathname = Some sql -> classify sql Read <> Approved ->
      (exists r, SQLiteServer.handleGetSql pathname = Ret r)
      /\ forall q, ~ Sends (SQLiteServer.handleGetSql pathname) q)
  /\ (forall sql,
      classify sql Write <> Approved ->
      (exists r, SQLiteServer.handlePostSql (BodyQuery sql) = Ret r)
      /\ forall q, ~ Sends (SQLiteServer.handlePostSql (BodyQuery sql)) q)
  /\ (forall pathname q,
      Sends (SQLiteServer.handleGetSql pathname) q ->
      exists sql, statement_of_path pathname = Some sql
                  /\ Sql.isForbidden sql = false /\ Sql.isSelect sql = true
                  /\ Sql.touchesPatient sql = true
                  /\ (q = SQLiteServer.ensure_sql \/ q = sql))
  /\ (forall b q,
      Sends (SQLiteServer.handlePostSql b) q ->
      exists sql, b = BodyQuery sql
                  /\ Sql.isForbidden sql = false /\ Sql.isInsert sql = true
                  /\ Sql.touchesPatient sql = true
                  /\ (q = SQLiteServer.ensure_sql \/ q = sql))
  /\ (forall sql E s,
      Sends (SQLiteServer.runSelect sql) sql
      /\ Sends (SQLiteServer.runInsert sql) sql
      /\ run E (SQLiteServer.runSelect sql) s = select_outcome E sql s
      /\ run E (SQLiteServer.runInsert sql) s = insert_outcome E sql s).
Proof.
  assert (Hchecks : forall sql i, classify sql i = Approved ->
            Sql.isForbidden sql = false /\ intent_shape i sql = true
            /\ Sql.touchesPatient sql = true).
  { intros sql i. unfold classify.
    destruct (Sql.isForbidden sql); [discriminate|].
    destruct (intent_shape i sql); [|discriminate].
    destruct (Sql.touchesPatient sql); [auto | discriminate]. }
  split; [|split; [|split; [|split]]].
  - intros pathname sql Hp Hc.
    assert (Hr : exists r, SQLiteServer.handleGetSql pathname = Ret r).
    { pose proof (get_gate pathname sql Hp) as Hg.
      destruct (classify sql Read); try congruence;
        eexists; apply answers_directly_Some; exact Hg. }
    split; [exact Hr|]. destruct Hr as [r ->]. intros q. apply Sends_Ret_inv.
  - intros sql Hc.
    assert (Hr : exists r, SQLiteServer.handlePostSql (BodyQuery sql) = Ret r).
    { destruct (truthy (trim sql)) eqn:Ht.
      - assert (Hnb : ~ blank sql).
        { intros Hb. apply trim_blank in Hb. congruence. }
        pose proof (post_gate sql Hnb) as Hg.
        destruct (classify sql Write); try congruence;
          eexists; apply answers_directly_Some; exact Hg.
      - unfold SQLiteServer.handlePostSql. rewrite Ht. eexists. reflexivity. }
    split; [exact Hr|]. destruct Hr as [r ->]. intros q. apply Sends_Ret_inv.
  - intros pathname q H. apply get_sends in H as (sql & Hp & Hc & Hq).
    apply Hchecks in Hc as (Hf & Hi & Ht). exists sql. auto.
  - intros b q H. apply post_sends in H as (sql & Hp & Hc & Hq).
    apply Hchecks in Hc as (Hf & Hi & Ht). exists sql. auto.
  - intros sql E s. split; [|split; [|split]].
    + apply (SendsAfterRun _ _ _ (RunOk (mkReport 0 0))). apply SendsAll.
    + apply (SendsAfterRun _ _ _ (RunOk (mkReport 0 0))). apply SendsRun.
    + apply run_runSelect.
    + apply run_runInsert.
Qed.

(* ================================================================== *)
(** ** A forbidden statement on the read channel *)
(* ================================================================== *)

Lemma jsstring_eqb_eq a b : jsstring_eqb a b = true <-> a = b.
Proof.
  revert b. induction a as [|x a IH]; intros [|y b]; simpl;
    try (split; [discriminate | congruence]); [tauto|].
  rewrite andb_true_iff, N.eqb_eq, IH. split; [intros [-> ->] | intros [= -> ->]]; auto.
Qed.

Lemma get_forbidden pathname sql :
  statement_of_path pathname = Some sql -> denylisted sql ->
  SQLiteServer.handleGetSql pathname = Ret (sent sendJSON forbidden_reply).
Proof.
  intros Hp Hd. apply answers_directly_Some.
  rewrite (get_gate pathname sql Hp), (denylisted_classify sql Read Hd). reflexivity.
Qed.

Lemma get_forbidden2 origin pathname sql :
  statement_of_path pathname = Some sql -> denylisted sql ->
  Server2.handleGetSql origin pathname
  = Ret (sent (Server2.sendJSON origin) forbidden_reply).
Proof.
  intros Hp Hd. apply answers_directly_Some.
  rewrite (get_gate2 origin pathname sql Hp), (denylisted_classify sql Read Hd).
  reflexivity.
Qed.

(** C4. A GET under /api/v1/sql/ whose decoded text is denylisted is
    answered with status 403 and the body {"error": "Forbidden
    statement."}; nothing is sent to the store, and whatever the engine
    and the store, the store after the request is the store before it. *)
Theorem forbidden_get_leaves_store_alone
    (origin path sql : list N) (b : PostBody) :
  startsWith path (lit "/api/v1/sql/") = true ->
  statement_of_path path = Some sql ->
  denylisted sql ->
  let req := mkRequest (lit "GET") path b in
  let refusal := JObj [(lit "error", JStr (lit "Forbidden statement."))] in
  SQLiteServer.handleRequest req = Ret (sendJSON 403 refusal)
  /\ status (sendJSON 403 refusal) = 403%Z
  /\ body (sendJSON 403 refusal) = JsonBody refusal
  /\ (forall q, ~ Sends (SQLiteServer.handleRequest req) q)
  /\ (forall E s,
        run E (SQLiteServer.handleRequest req) s = (sendJSON 403 refusal, s))
  /\ Server2.start origin req = Ret (Server2.sendJSON origin 403 refusal)
  /\ (forall q, ~ Sends (Server2.start origin req) q)
  /\ (forall E s,
        run E (Server2.start origin req) s
        = (Server2.sendJSON origin 403 refusal, s)).
Proof.
  intros Hs Hp Hd req refusal.
  assert (H1 : SQLiteServer.handleRequest req = SQLiteServer.handleGetSql path).
  { unfold SQLiteServer.handleRequest, req. cbn [method pathname].
    rewrite Hs. reflexivity. }
  assert (H2 : Server2.start origin req = Server2.handleGetSql origin path).
  { unfold Server2.start, req. cbn [method pathname].
    rewrite Hs. reflexivity. }
  rewrite H1, H2, (get_forbidden path sql Hp Hd),
    (get_forbidden2 origin path sql Hp Hd).
  repeat split; try reflexivity; intros q; apply Sends_Ret_inv.
Qed.

Lemma drop_patient_denylisted : denylisted drop_patient.
Proof.
  exists (lit "drop"). split; [right; right; left; reflexivity|].
  exists [], (lit "drop"), (lit " table patient"). repeat split; reflexivity.
Defined.

Lemma forbidden_get_leaves_store_alone_witness :
  startsWith drop_patient_path (lit "/api/v1/sql/") = true
  /\ statement_of_path drop_patient_path = Some drop_patient
  /\ denylisted drop_patient
  /\ forall E s,
       run E (SQLiteServer.handleRequest (mkRequest (lit "GET") drop_patient_path BodyNotJson)) s
       = (sendJSON 403 (JObj [(lit "error", JStr (lit "Forbidden statement."))]), s).
Proof.
  split; [reflexivity|]. split; [reflexivity|]. split; [exact drop_patient_denylisted|].
  apply (forbidden_get_leaves_store_alone (lit "*") drop_patient_path drop_patient
           BodyNotJson eq_refl eq_refl drop_patient_denylisted).
Defined.

Lemma only_approved_statements_reach_the_store_witness :
  statement_of_path drop_patient_path = Some drop_patient
  /\ classify drop_patient Read <> Approved
  /\ exists r, SQLiteServer.handleGetSql drop_patient_path = Ret r.
Proof.
  split; [reflexivity|]. split; [discriminate|].
  apply (proj1 only_approved_statements_reach_the_store
           drop_patient_path drop_patient eq_refl).
  discriminate.
Defined.

(* ================================================================== *)
(** ** Blank text *)
(* ================================================================== *)

(** C6, as stated, fails on the write channel: a body whose query is a
    single space is blank, and it is not answered "POST only allows
    INSERT." but "Missing 'query' field.", before any classification. *)
Lemma blank_post_is_not_wrong_intent :
  ~ (forall text : list N,
       blank text ->
       SQLiteServer.handlePostSql (BodyQuery text)
       = Ret (sent sendJSON (wrong_intent_reply Write))).
Proof.
  intros H. specialize (H (lit " ")).
  assert (Hb : blank (lit " ")) by (repeat constructor).
  specialize (H Hb). vm_compute in H. discriminate H.
Qed.

(** C6, amended. On a blank text all four predicates are false, so that
    the checks, where they are run, give WrongIntent: a GET whose path
    decodes to a blank text is answered "GET only allows SELECT.". An
    empty text never gets that far on the read channel: a path without a
    statement is answered "Missing SQL in path.". A POST whose query is
    blank is answered "Missing 'query' field." instead. *)
Theorem blank_text_is_rejected (origin text : list N) :
  blank text ->
  (Sql.isForbidden text = false /\ Sql.isSelect text = false
   /\ Sql.isInsert text = false /\ Sql.touchesPatient text = false)
  /\ (forall i, classify text i = WrongIntent)
  /\ (forall pathname,
        statement_of_path pathname = Some text ->
        text <> []
        /\ SQLiteServer.handleGetSql pathname
           = Ret (sent sendJSON (wrong_intent_reply Read))
        /\ Server2.handleGetSql origin pathname
           = Ret (sent (Server2.sendJSON origin) (wrong_intent_reply Read)))
  /\ (forall pathname,
        (length (path_parts pathname) <? 4)%nat = true ->
        SQLiteServer.handleGetSql pathname
        = Ret (sendJSON 400 (error_obj (lit "Missing SQL in path.")))
        /\ Server2.handleGetSql origin pathname
           = Ret (Server2.sendJSON origin 400
                    (error_obj (lit "Missing SQL in path."))))
  /\ SQLiteServer.handlePostSql (BodyQuery text)
     = Ret (sent sendJSON missing_query_reply)
  /\ Server2.handlePostSql origin (BodyQuery text)
     = Ret (sent (Server2.sendJSON origin) missing_query_reply).
Proof.
  intros Hb. pose proof (blank_predicates text Hb) as (Hf & Hs & Hi & Ht).
  assert (Hc : forall i, classify text i = WrongIntent).
  { intros i. unfold classify, intent_shape. rewrite Hf, Hs, Hi. destruct i; reflexivity. }
  split; [auto|]. split; [exact Hc|].
  split; [intros pathname Hp; split; [|split; apply answers_directly_Some]|].
  - intros ->. exact (statement_of_path_nonempty pathname Hp).
  - rewrite (get_gate pathname text Hp), (Hc Read). reflexivity.
  - rewrite (get_gate2 origin pathname text Hp), (Hc Read). reflexivity.
  - split; [|split].
    + intros pathname Hlt.
      unfold SQLiteServer.handleGetSql, Server2.handleGetSql. rewrite Hlt.
      split; reflexivity.
    + unfold SQLiteServer.handlePostSql. apply trim_blank in Hb. rewrite Hb. reflexivity.
    + unfold Server2.handlePostSql. apply trim_blank in Hb. rewrite Hb. reflexivity.
Qed.

Lemma blank_text_is_rejected_witness :
  blank (lit "  ")
  /\ statement_of_path (lit "/api/v1/sql/%20%20") = Some (lit "  ")
  /\ SQLiteServer.handleGetSql (lit "/api/v1/sql/%20%20")
     = Ret (sent sendJSON (wrong_intent_reply Read))
  /\ SQLiteServer.handlePostSql (BodyQuery (lit "  "))
     = Ret (sent sendJSON missing_query_reply).
Proof.
  assert (Hb : blank (lit "  ")) by (repeat constructor).
  split; [exact Hb|]. split; [reflexivity|].
  pose proof (blank_text_is_rejected (lit "*") (lit "  ") Hb)
    as (_ & _ & Hg & _ & Hp & _).
  split; [apply (Hg (lit "/api/v1/sql/%20%20")); reflexivity | exact Hp].
Defined.

(* ================================================================== *)
(** ** The router *)
(* ================================================================== *)



(** A GET whose target has no path is not answered: the listener
    throws. Every other method is answered without a path too. *)
Lemma pathless_get_throws origin b :
  Listener.handleRequest (Listener.mkTarget (lit "GET") None b) = None
  /\ Listener.start origin (Listener.mkTarget (lit "GET") None b) = None.
Proof. split; reflexivity. Qed.





(* ================================================================== *)
(** ** The result of a write *)
(* ================================================================== *)



Lemma approved_post sql :
  classify sql Write = Approved ->
  SQLiteServer.handlePostSql (BodyQuery sql)
  = (r ← SQLiteServer.runInsert sql;
     match r with
     | Resolved result => Ret (sendJSON 200 (JObj ((lit "ok", JBool true) :: result)))
     | Rejected e => Ret (sendJSON 400 (error_obj e))
     end).
Proof.
  intros Hc. pose proof (approved_not_blank sql Write Hc) as Hnb.
  unfold SQLiteServer.handlePostSql.
  destruct (truthy (trim sql)) eqn:Ht; [|apply trim_blank in Ht; contradiction].
  unfold classify, intent_shape in Hc.
  destruct (Sql.isForbidden sql); [discriminate|].
  destruct (Sql.isInsert sql); [|discriminate].
  destruct (Sql.touchesPatient sql); [reflexivity | discriminate].
Qed.







(* ================================================================== *)
(** ** Creating the table *)
(* ================================================================== *)

Lemma bootstrap_sql_words :
  SQLite.words SQLiteServer.bootstrap_sql = SQLite.create_patient_words.
Proof. vm_compute. reflexivity. Qed.

Lemma ensure_sql_words :
  SQLite.words SQLiteServer.ensure_sql = SQLite.create_patient_words.
Proof. vm_compute. reflexivity. Qed.

Lemma bootstrap_sql2_words :
  SQLite.words Server2.bootstrap_sql = SQLite.create_patient_words.
Proof. vm_compute. reflexivity. Qed.

Lemma ensured_has_table s : has_patient_table (ensured s).
Proof.
  unfold has_patient_table, ensured, SQLite.create_table.
  destruct (tables s !! "patient"%string) as [t|] eqn:Ht; simpl.
  - rewrite Ht. eauto.
  - rewrite lookup_insert_eq. eauto.
Qed.

Lemma ensured_when_present s : has_patient_table s -> ensured s = s.
Proof.
  unfold has_patient_table, ensured, SQLite.create_table.
  intros [t Ht]. rewrite Ht. reflexivity.
Qed.

Lemma ensured_idempotent s : ensured (ensured s) = ensured s.
Proof. apply ensured_when_present, ensured_has_table. Qed.

Lemma ensured_other_tables s name :
  name <> "patient"%string -> tables (ensured s) !! name = tables s !! name.
Proof.
  intros Hne. unfold ensured, SQLite.create_table.
  destruct (tables s !! "patient"%string); simpl; [reflexivity|].
  apply lookup_insert_ne. congruence.
Qed.

Lemma create_if_absent_ok s :
  SQLite.create_table true "patient" SQLite.patient_columns s
  = (RunOk (SQLite.report s), ensured s).
Proof.
  unfold ensured, SQLite.create_table.
  destruct (tables s !! "patient"%string); reflexivity.
Qed.

(** Without IF NOT EXISTS the second creation would be refused. *)
Lemma create_twice_without_guard s :
  exists e, SQLite.create_table false "patient" SQLite.patient_columns (ensured s)
            = (RunErr e, ensured s).
Proof.
  destruct (ensured_has_table s) as [t Ht].
  unfold SQLite.create_table. rewrite Ht. eauto.
Qed.

Section FaithfulEngine.

Variable E : Engine.
Hypothesis HE : SQLite.Faithful E.

Lemma run_create sql s :
  SQLite.words sql = SQLite.create_patient_words ->
  engine_run E sql [] s = (RunOk (SQLite.report s), ensured s).
Proof using HE.
  intros Hw. rewrite (SQLite.runs_create E HE sql s Hw). apply create_if_absent_ok.
Qed.

Lemma run_bootstrap s : run E SQLiteServer.bootstrap s = (Resolved tt, ensured s).
Proof using HE.
  unfold SQLiteServer.bootstrap. cbn [run].
  rewrite (run_create _ s bootstrap_sql_words). reflexivity.
Qed.

Lemma run_ensureTableExists s :
  run E SQLiteServer.ensureTableExists s = (Resolved tt, ensured s).
Proof using HE.
  unfold SQLiteServer.ensureTableExists. cbn [run].
  rewrite (run_create _ s ensure_sql_words). reflexivity.
Qed.

Lemma run_bootstrap2 s : run E Server2.bootstrap s = (Resolved tt, ensured s).
Proof using HE.
  unfold Server2.bootstrap. cbn [run].
  rewrite (run_create _ s bootstrap_sql2_words). reflexivity.
Qed.

End FaithfulEngine.

(** C8. Creating the table is idempotent. With an engine that reads
    CREATE TABLE IF NOT EXISTS the way SQLite does, [bootstrap] succeeds
    on any store and leaves the table in place; a second [bootstrap], or
    [ensureTableExists] after it, succeeds as well and changes nothing: an
    existing table is kept as it is, no other table is touched. The
    adapter runs every statement on a store that has the table, whatever
    store it starts from. *)
Theorem create_table_is_idempotent (E : Engine) (s : Store) (sql : list N) :
  SQLite.Faithful E ->
  run E SQLiteServer.bootstrap s = (Resolved tt, ensured s)
  /\ run E SQLiteServer.bootstrap (ensured s) = (Resolved tt, ensured s)
  /\ run E SQLiteServer.ensureTableExists (ensured s) = (Resolved tt, ensured s)
  /\ run E Server2.bootstrap s = (Resolved tt, ensured s)
  /\ run E Server2.bootstrap (ensured s) = (Resolved tt, ensured s)
  /\ has_patient_table (ensured s)
  /\ (has_patient_table s -> ensured s = s)
  /\ (forall name, name <> "patient"%string ->
        tables (ensured s) !! name = tables s !! name)
  /\ run E (SQLiteServer.runSelect sql) s
     = (let '(r, s2) := engine_all E sql (ensured s) in
        (match r with AllErr e => Rejected e | AllRows rows => Resolved rows end, s2))
  /\ run E (SQLiteServer.runInsert sql) s
     = (let '(r, s2) := engine_run E sql [] (ensured s) in
        (match r with
         | RunErr e => Rejected e
         | RunOk this =>
             Resolved [(lit "affectedRows", JNum (num_or (changes this) 0));
                       (lit "insertId", SQLiteServer.id_or_null (lastID this))]
         end, s2)).
Proof.
  intros HE.
  split; [apply run_bootstrap; exact HE|].
  split; [rewrite run_bootstrap, ensured_idempotent by exact HE; reflexivity|].
  split; [rewrite run_ensureTableExists, ensured_idempotent by exact HE; reflexivity|].
  split; [apply run_bootstrap2; exact HE|].
  split; [rewrite run_bootstrap2, ensured_idempotent by exact HE; reflexivity|].
  split; [apply ensured_has_table|].
  split; [apply ensured_when_present|].
  split; [intros name; apply ensured_other_tables|].
  split.
  - rewrite run_runSelect. unfold select_outcome.
    rewrite (run_create E HE _ s ensure_sql_words).
    destruct (engine_all E sql (ensured s)) as [[e|rows] s2]; reflexivity.
  - rewrite run_runInsert. unfold insert_outcome.
    rewrite (run_create E HE _ s ensure_sql_words).
    destruct (engine_run E sql [] (ensured s)) as [[e|this] s2]; reflexivity.
Qed.

Lemma reference_engine_faithful : SQLite.Faithful SQLite.reference_engine.
Proof.
  split.
  - intros sql s Hw. simpl. rewrite bool_decide_eq_true_2 by exact Hw. reflexivity.
  - intros sql params s Hw Hl. simpl.
    rewrite bool_decide_eq_false_2
      by (rewrite Hw; vm_compute; discriminate).
    rewrite bool_decide_eq_true_2 by exact Hw.
    rewrite bool_decide_eq_true_2 by exact Hl. reflexivity.
  - intros sql s Hw. simpl. rewrite bool_decide_eq_true_2 by exact Hw. reflexivity.
Qed.

Lemma create_table_is_idempotent_witness :
  SQLite.Faithful SQLite.reference_engine
  /\ run SQLite.reference_engine SQLiteServer.bootstrap after_bootstrap
     = (Resolved tt, after_bootstrap).
Proof.
  split; [exact reference_engine_faithful|].
  pose proof (create_table_is_idempotent SQLite.reference_engine SQLite.empty_store
                [] reference_engine_faithful) as (H1 & H2 & _).
  unfold after_bootstrap. rewrite H1. exact H2.
Defined.

(* ================================================================== *)
(** ** The seed *)
(* ================================================================== *)

Lemma run_bind {A B} E (p : Prog A) (f : A -> Prog B) s :
  run E (p ≫= f) s = (let '(a, s') := run E p s in run E (f a) s').
Proof.
  revert s. induction p as [a|sql params k IH|sql k IH]; intros s.
  - reflexivity.
  - change (run E (DbRun sql params k ≫= f) s)
      with (let '(r, s') := engine_run E sql params s in run E (k r ≫= f) s').
    cbn [run]. destruct (engine_run E sql params s) as [r s']. apply IH.
  - change (run E (DbAll sql k ≫= f) s)
      with (let '(r, s') := engine_all E sql s in run E (k r ≫= f) s').
    cbn [run]. destruct (engine_all E sql s) as [r s']. apply IH.
Qed.

Lemma seed_sql_text :
  SQLiteServer.seed_sql
  = lit "INSERT INTO patient (name, dateOfBirth) VALUES (?, ?), (?, ?), (?, ?), (?, ?);"
  /\ Server2.seed_sql = SQLiteServer.seed_sql.
Proof. split; vm_compute; reflexivity. Qed.

Lemma seed_sql_words : SQLite.words SQLiteServer.seed_sql = SQLite.insert4_words.
Proof. vm_compute. reflexivity. Qed.

Lemma seed_sql2_words : SQLite.words Server2.seed_sql = SQLite.insert4_words.
Proof. vm_compute. reflexivity. Qed.

Lemma select_all_statement :
  statement_of_path select_all_path = Some (lit "select * from patient")
  /\ classify (lit "select * from patient") Read = Approved
  /\ SQLite.words (lit "select * from patient") = SQLite.select_all_words.
Proof. split; [|split]; vm_compute; reflexivity. Qed.

Lemma insert_sample s seq old :
  tables s !! "patient"%string = Some (mkTable SQLite.patient_columns seq old) ->
  SQLite.insert_patients (SQLite.bind_pairs 4 (concat SQLiteServer.seed_rows)) s
  = (RunOk (mkReport 4 (seq + 4)), seeded s)
  /\ tables (seeded s) !! "patient"%string
     = Some (mkTable SQLite.patient_columns (seq + 4)
               (old ++ SQLite.keyed (seq + 1)
                         (SQLite.bind_pairs 4 (concat SQLiteServer.seed_rows)))).
Proof.
  intros Ht. unfold seeded, SQLite.insert_patients. rewrite Ht.
  cbn [concat SQLiteServer.seed_rows SQLite.bind_pairs app forallb fst negb
         SQLite.is_null andb length columns sequence records snd tables].
  split; [reflexivity|]. apply lookup_insert_eq.
Qed.

Lemma approved_get pathname sql :
  statement_of_path pathname = Some sql ->
  classify sql Read = Approved ->
  SQLiteServer.handleGetSql pathname
  = (r ← SQLiteServer.runSelect sql;
     match r with
     | Resolved rows =>
         Ret (sendJSON 200 (JObj [(lit "rows", JArr (map SQLiteServer.row_json rows))]))
     | Rejected e => Ret (sendJSON 400 (error_obj e))
     end).
Proof.
  unfold statement_of_path, SQLiteServer.handleGetSql, path_tail, classify, intent_shape.
  destruct (length (path_parts pathname) <? 4)%nat; [discriminate|].
  intros ->.
  destruct (Sql.isForbidden sql); [discriminate|].
  destruct (Sql.isSelect sql); [|discriminate].
  destruct (Sql.touchesPatient sql); [reflexivity | discriminate].
Qed.

(** C9. POST /api/v1/seed runs no check on anything the request brings:
    whatever the body, the router hands over to the seed, which sends
    one fixed INSERT with four (?, ?) tuples and the eight values of the
    four sample records. With an engine that reads this INSERT and
    SELECT * the way SQLite does, and a patient table in the store, the
    answer is 200 with [ok: true] and [inserted: 4]; a read of all rows
    afterwards returns the rows that were there followed by the four
    records, so exactly the four on a table that was empty. *)
Theorem seed_inserts_the_four_records
    (origin : list N) (E : Engine) (s : Store) (seq : Z)
    (old : list (list SqlValue)) (b : PostBody) :
  SQLite.Faithful E ->
  tables s !! "patient"%string = Some (mkTable SQLite.patient_columns seq old) ->
  let req := mkRequest (lit "POST") (lit "/api/v1/seed") b in
  SQLiteServer.handleRequest req = SQLiteServer.handleSeed
  /\ (exists k,
        SQLiteServer.handleSeed
        = DbRun
            (lit "INSERT INTO patient (name, dateOfBirth) VALUES (?, ?), (?, ?), (?, ?), (?, ?);")
            [lit "Sara Brown"; lit "1901-01-01 00:00:00";
             lit "John Smith"; lit "1941-01-01 00:00:00";
             lit "Jack Ma"; lit "1961-01-30 00:00:00";
             lit "Elon Musk"; lit "1999-01-01 00:00:00"] k
        /\ forall r, exists resp, k r = Ret resp)
  /\ run E (SQLiteServer.handleRequest req) s
     = (sendJSON 200
          (JObj [(lit "ok", JBool true);
                 (lit "message", JStr (lit "Database seeded successfully."));
                 (lit "inserted", JNum 4)]), seeded s)
  /\ run E (Server2.start origin req) s
     = (Server2.sendJSON origin 200
          (JObj [(lit "ok", JBool true); (lit "inserted", JNum 4)]), seeded s)
  /\ run E (SQLiteServer.handleGetSql select_all_path) (seeded s)
     = (sendJSON 200
          (JObj [(lit "rows",
                  JArr (map SQLiteServer.row_json
                          (map (fun r => zip SQLite.patient_columns r) old)
                        ++ sample_records (seq + 1)))]), seeded s)
  /\ (old = [] ->
      run E (SQLiteServer.handleGetSql select_all_path) (seeded s)
      = (sendJSON 200 (JObj [(lit "rows", JArr (sample_records (seq + 1)))]),
         seeded s)).
Proof.
  intros HE Ht req.
  destruct (insert_sample s seq old Ht) as [Hins Hseeded].
  assert (Hread :
    run E (SQLiteServer.handleGetSql select_all_path) (seeded s)
    = (sendJSON 200
         (JObj [(lit "rows",
                 JArr (map SQLiteServer.row_json
                         (map (fun r => zip SQLite.patient_columns r) old)
                       ++ sample_records (seq + 1)))]), seeded s)).
  { destruct select_all_statement as (Hp & Hc & Hw).
    rewrite (approved_get _ _ Hp Hc), run_bind, run_runSelect.
    unfold select_outcome.
    rewrite (run_create E HE _ _ ensure_sql_words).
    rewrite ensured_when_present by (unfold has_patient_table; rewrite Hseeded; eauto).
    rewrite (SQLite.runs_select_all E HE _ (seeded s) Hw).
    unfold SQLite.select_all. rewrite Hseeded.
    cbn [run columns records]. rewrite map_app, map_app.
    do 4 f_equal.
    cbn [concat SQLiteServer.seed_rows SQLite.bind_pairs app SQLite.keyed map].
    unfold sample_records, patient_json.
    replace (seq + 1 + 1 + 1 + 1)%Z with (seq + 1 + 3)%Z by lia.
    replace (seq + 1 + 1 + 1)%Z with (seq + 1 + 2)%Z by lia.
    reflexivity. }
  split; [reflexivity|].
  split.
  { eexists. split.
    - unfold SQLiteServer.handleSeed, SQLiteServer.seed.
      rewrite (proj1 seed_sql_text). reflexivity.
    - intros [e|this]; eexists; reflexivity. }
  split.
  { change (SQLiteServer.handleRequest req) with SQLiteServer.handleSeed.
    unfold SQLiteServer.handleSeed. rewrite run_bind.
    unfold SQLiteServer.seed. cbn [run].
    rewrite (SQLite.runs_insert4 E HE SQLiteServer.seed_sql
               (concat SQLiteServer.seed_rows) s seed_sql_words eq_refl), Hins.
    reflexivity. }
  split.
  { change (Server2.start origin req) with (Server2.handlePostSeed origin).
    unfold Server2.handlePostSeed. rewrite run_bind.
    unfold Server2.seed. cbn [run].
    rewrite (SQLite.runs_insert4 E HE Server2.seed_sql
               (concat Server2.seed_rows) s seed_sql2_words eq_refl).
    change (concat Server2.seed_rows) with (concat SQLiteServer.seed_rows).
    rewrite Hins. reflexivity. }
  split; [exact Hread|].
  intros ->. exact Hread.
Qed.

Lemma seed_inserts_the_four_records_witness :
  SQLite.Faithful SQLite.reference_engine
  /\ tables after_bootstrap !! "patient"%string
     = Some (mkTable SQLite.patient_columns 0 [])
  /\ run SQLite.reference_engine
       (SQLiteServer.handleGetSql select_all_path) (seeded after_bootstrap)
     = (sendJSON 200 (JObj [(lit "rows", JArr (sample_records 1))]),
        seeded after_bootstrap).
Proof.
  assert (Ht : tables after_bootstrap !! "patient"%string
               = Some (mkTable SQLite.patient_columns 0 []))
    by (vm_compute; reflexivity).
  split; [exact reference_engine_faithful|]. split; [exact Ht|].
  pose proof (seed_inserts_the_four_records (lit "*") SQLite.reference_engine
                after_bootstrap 0 [] BodyNotJson reference_engine_faithful Ht)
    as (_ & _ & _ & _ & _ & H).
  exact (H eq_refl).
Defined.

(* ================================================================== *)
(** ** Determinism *)
(* ================================================================== *)

Lemma get_by_text p1 p2 sql :
  statement_of_path p1 = Some sql -> statement_of_path p2 = Some sql ->
  SQLiteServer.handleGetSql p1 = SQLiteServer.handleGetSql p2.
Proof.
  unfold statement_of_path, SQLiteServer.handleGetSql, path_tail.
  destruct (length (path_parts p1) <? 4)%nat; [discriminate|].
  destruct (length (path_parts p2) <? 4)%nat; [discriminate|].
  intros -> ->. reflexivity.
Qed.

Lemma get_by_text2 origin p1 p2 sql :
  statement_of_path p1 = Some sql -> statement_of_path p2 = Some sql ->
  Server2.handleGetSql origin p1 = Server2.handleGetSql origin p2.
Proof.
  unfold statement_of_path, Server2.handleGetSql, path_tail.
  destruct (length (path_parts p1) <? 4)%nat; [discriminate|].
  destruct (length (path_parts p2) <? 4)%nat; [discriminate|].
  intros -> ->. reflexivity.
Qed.

(** *** The state of a RegExp object *)

Lemma repeatSpaceEnd_found rest : forall e c,
  RegExp.found (RegExp.repeatSpaceEnd rest e c)
  = repeatSpace rest e (fun e' => RegExp.found (c e')).
Proof.
  induction rest as [|ch rest IH]; intros e c; simpl; [reflexivity|].
  destruct (isWhiteSpace ch); [|reflexivity].
  rewrite <- IH. destruct (RegExp.repeatSpaceEnd rest (S e) c); reflexivity.
Qed.

Lemma matcherEnd_found input p : forall e c,
  RegExp.found (RegExp.matcherEnd input p e c)
  = matcher input p e (fun e' => RegExp.found (c e')).
Proof.
  induction p as [|ch|p1 IH1 p2 IH2|p1 IH1 p2 IH2| | |]; intros e c; simpl.
  - reflexivity.
  - destruct (input !! e); [|reflexivity].
    destruct (N.eqb _ _); reflexivity.
  - rewrite IH1. apply matcher_ext. intros e'. apply IH2.
  - rewrite <- IH1, <- IH2.
    destruct (RegExp.matcherEnd input p1 e c); reflexivity.
  - destruct e; reflexivity.
  - destruct (isWordBoundary input e); reflexivity.
  - apply repeatSpaceEnd_found.
Qed.

Lemma matchEndAt_found input p i :
  RegExp.found (RegExp.matchEndAt input p i) = matchesAt input p i.
Proof.
  unfold RegExp.matchEndAt, matchesAt. rewrite matcherEnd_found.
  apply matcher_ext. reflexivity.
Qed.

Lemma search_found input p tries : forall i,
  RegExp.found (RegExp.search input p tries i)
  = existsb (matchesAt input p) (seq i tries).
Proof.
  induction tries as [|tries IH]; intros i; simpl; [reflexivity|].
  rewrite <- matchEndAt_found, <- IH.
  destruct (RegExp.matchEndAt input p i); reflexivity.
Qed.

(** Without the [g] and [y] flags, [test] neither reads nor writes
    [lastIndex]: it is the search from index 0. *)
Lemma test_without_flags R text :
  RegExp.global R = false -> RegExp.sticky R = false ->
  RegExp.test R text = (test (RegExp.source R) text, R).
Proof.
  intros Hg Hy. unfold RegExp.test, RegExp.exec. rewrite Hg, Hy.
  cbn [orb Nat.ltb Nat.leb]. rewrite Nat.sub_0_r.
  unfold test. rewrite <- search_found.
  change (1 + length text) with (S (length text)).
  destruct (RegExp.search text (RegExp.source R) (S (length text)) 0); reflexivity.
Qed.

Lemma tests_without_flags R texts :
  RegExp.global R = false -> RegExp.sticky R = false ->
  RegExp.tests R texts = (map (test (RegExp.source R)) texts, R).
Proof.
  intros Hg Hy. induction texts as [|t texts IH]; [reflexivity|].
  cbn [RegExp.tests map]. rewrite (test_without_flags R t Hg Hy), IH. reflexivity.
Qed.

(** With the [g] flag it would not be so: the same object says yes and
    then no to the same text. *)
Example a_global_flag_would_remember :
  RegExp.tests (RegExp.mkObject Sql.patient_re true false 0)
    [lit "patient"; lit "patient"]
  = ([true; false], RegExp.mkObject Sql.patient_re true false 0).
Proof. vm_compute. reflexivity. Qed.

Lemma approved_get_sends pathname sql :
  statement_of_path pathname = Some sql ->
  classify sql Read = Approved ->
  Sends (SQLiteServer.handleGetSql pathname) sql.
Proof.
  intros Hp Hc. rewrite (approved_get pathname sql Hp Hc).
  apply (SendsAfterRun _ _ _ (RunOk (mkReport 0 0))). apply SendsAll.
Qed.

Lemma approved_post_sends sql :
  classify sql Write = Approved ->
  Sends (SQLiteServer.handlePostSql (BodyQuery sql)) sql.
Proof.
  intros Hc. rewrite (approved_post sql Hc).
  apply (SendsAfterRun _ _ _ (RunOk (mkReport 0 0))). apply SendsRun.
Qed.

(** C10. Each of the four predicates is a [test] of a RegExp object
    whose pattern has no [g] and no [y] flag. Such a test does not read
    the state of the object and does not write it: whatever [lastIndex]
    holds, and whatever texts the object was tested on before, the
    answer is the search of the text from its beginning, the same on
    any two runs, and the object is left as it was. So each predicate is
    that function of the text, in both servers. The decision on a
    statement is fixed by text and channel: of two requests that carry
    the same text on the same channel, whatever the engines and the
    stores, either both are rejected, with the same answer and their
    stores untouched, or both send the text to the store. *)
Theorem decision_depends_on_text_and_channel
    (origin text : list N) (before1 before2 : list (list N)) :
  (forall re n,
      RegExp.test (RegExp.mkObject re false false n) text
      = (test re text, RegExp.mkObject re false false n))
  /\ (forall re,
        fst (RegExp.test (snd (RegExp.tests (RegExp.literal re) before1)) text)
        = fst (RegExp.test (snd (RegExp.tests (RegExp.literal re) before2)) text))
  /\ (Sql.isForbidden text = fst (RegExp.test (RegExp.literal Sql.forbidden_re) text)
      /\ Sql.isSelect text = fst (RegExp.test (RegExp.literal Sql.select_re) text)
      /\ Sql.isInsert text = fst (RegExp.test (RegExp.literal Sql.insert_re) text)
      /\ Sql.touchesPatient text
         = fst (RegExp.test (RegExp.literal Sql.patient_re) text))
  /\ (Server2.isForbidden text
      = fst (RegExp.test (RegExp.literal Sql.forbidden_re) text)
      /\ Server2.isSelect text = fst (RegExp.test (RegExp.literal Sql.select_re) text)
      /\ Server2.isInsert text = fst (RegExp.test (RegExp.literal Sql.insert_re) text)
      /\ Server2.touchesPatient text
         = fst (RegExp.test (RegExp.literal Sql.patient_re) text))
  /\ (forall p1 p2 E1 E2 s1 s2,
        statement_of_path p1 = Some text -> statement_of_path p2 = Some text ->
        SQLiteServer.handleGetSql p1 = SQLiteServer.handleGetSql p2
        /\ Server2.handleGetSql origin p1 = Server2.handleGetSql origin p2
        /\ match rejection (classify text Read) Read with
           | Some reply =>
               run E1 (SQLiteServer.handleGetSql p1) s1 = (sent sendJSON reply, s1)
               /\ run E2 (SQLiteServer.handleGetSql p2) s2 = (sent sendJSON reply, s2)
           | None =>
               answers_directly (SQLiteServer.handleGetSql p1) = None
               /\ Sends (SQLiteServer.handleGetSql p1) text
               /\ Sends (SQLiteServer.handleGetSql p2) text
           end)
  /\ (forall E1 E2 s1 s2,
        ~ blank text ->
        match rejection (classify text Write) Write with
        | Some reply =>
            run E1 (SQLiteServer.handlePostSql (BodyQuery text)) s1
            = (sent sendJSON reply, s1)
            /\ run E2 (SQLiteServer.handlePostSql (BodyQuery text)) s2
               = (sent sendJSON reply, s2)
        | None =>
            answers_directly (SQLiteServer.handlePostSql (BodyQuery text)) = None
            /\ Sends (SQLiteServer.handlePostSql (BodyQuery text)) text
        end).
Proof.
  assert (Hlit : forall re, fst (RegExp.test (RegExp.literal re) text) = test re text).
  { intros re.
    rewrite (test_without_flags (RegExp.literal re) text eq_refl eq_refl).
    reflexivity. }
  split.
  { intros re n.
    apply (test_without_flags (RegExp.mkObject re false false n) text
             eq_refl eq_refl). }
  split.
  { intros re.
    rewrite (tests_without_flags (RegExp.literal re) before1 eq_refl eq_refl),
      (tests_without_flags (RegExp.literal re) before2 eq_refl eq_refl).
    reflexivity. }
  split; [rewrite !Hlit; repeat split|]. split; [rewrite !Hlit; repeat split|].
  split.
  - intros p1 p2 E1 E2 s1 s2 H1 H2.
    split; [exact (get_by_text p1 p2 text H1 H2)|].
    split; [exact (get_by_text2 origin p1 p2 text H1 H2)|].
    pose proof (get_gate p1 text H1) as G1. pose proof (get_gate p2 text H2) as G2.
    destruct (rejection (classify text Read) Read) as [reply|] eqn:Hr.
    + apply answers_directly_Some in G1. apply answers_directly_Some in G2.
      rewrite G1, G2. split; reflexivity.
    + assert (Hc : classify text Read = Approved)
        by (destruct (classify text Read); try discriminate Hr; reflexivity).
      split; [exact G1|].
      split; apply approved_get_sends; assumption.
  - intros E1 E2 s1 s2 Hb. pose proof (post_gate text Hb) as G.
    destruct (rejection (classify text Write) Write) as [reply|] eqn:Hr.
    + apply answers_directly_Some in G. rewrite G. split; reflexivity.
    + assert (Hc : classify text Write = Approved)
        by (destruct (classify text Write); try discriminate Hr; reflexivity).
      split; [exact G | apply approved_post_sends, Hc].
Qed.

Lemma decision_depends_on_text_and_channel_witness :
  statement_of_path select_all_path = Some (lit "select * from patient")
  /\ statement_of_path select_all_path' = Some (lit "select * from patient")
  /\ SQLiteServer.handleGetSql select_all_path
     = SQLiteServer.handleGetSql select_all_path'
  /\ fst (RegExp.test
            (snd (RegExp.tests (RegExp.literal Sql.patient_re) [lit "patient"]))
            (lit "select * from patient"))
     = fst (RegExp.test (snd (RegExp.tests (RegExp.literal Sql.patient_re) []))
              (lit "select * from patient")).
Proof.
  assert (H1 : statement_of_path select_all_path = Some (lit "select * from patient"))
    by (vm_compute; reflexivity).
  assert (H2 : statement_of_path select_all_path' = Some (lit "select * from patient"))
    by (vm_compute; reflexivity).
  split; [exact H1|]. split; [exact H2|].
  pose proof (decision_depends_on_text_and_channel (lit "*")
                (lit "select * from patient") [lit "patient"] [])
    as (_ & Hre & _ & _ & H & _).
  split; [|exact (Hre Sql.patient_re)].
  exact (proj1 (H select_all_path select_all_path' SQLite.reference_engine
                  SQLite.reference_engine SQLite.empty_store SQLite.empty_store
                  H1 H2)).
Defined.

(* ================================================================== *)
(** ** The scenarios, run *)
(* ================================================================== *)

(** Scenario A: a read of the empty table. *)
Example read_of_empty_table :
  run SQLite.reference_engine (SQLiteServer.handleGetSql select_all_path)
    after_bootstrap
  = (sendJSON 200 (JObj [(lit "rows", JArr [])]), after_bootstrap).
Proof. vm_compute. reflexivity. Qed.

(** Scenario D: the seed, then a read. *)
Example seed_then_read :
  run SQLite.reference_engine
    (_ ← SQLiteServer.handleSeed; SQLiteServer.handleGetSql select_all_path)
    after_bootstrap
  = (sendJSON 200 (JObj [(lit "rows", JArr (sample_records 1))]),
     seeded after_bootstrap).
Proof. vm_compute. reflexivity. Qed.

(** Scenario E: a read that does not name the table. *)
Example read_of_other_table :
  SQLiteServer.handleGetSql (lit "/api/v1/sql/select%20*%20from%20other_table")
  = Ret (sendJSON 400 (error_obj (lit "Query must reference 'patient'."))).
Proof. vm_compute. reflexivity. Qed.

(** Words that only contain a keyword are let through. *)
Example keyword_inside_a_word :
  Sql.isForbidden (lit "select * from patient where name = 'dropped'") = false
  /\ Sql.isForbidden (lit "select drop_count from patient") = false
  /\ Sql.isForbidden (lit "select * from patient -- DROP") = true
  /\ Sql.isSelect (lit "selects") = false
  /\ Sql.touchesPatient (lit "select * from patients") = false.
Proof. repeat split; vm_compute; reflexivity. Qed.

(** A path without a statement, and a path that does not decode. *)
Example malformed_paths :
  SQLiteServer.handleGetSql (lit "/api/v1/sql/")
  = Ret (sendJSON 400 (error_obj (lit "Missing SQL in path.")))
  /\ SQLiteServer.handleGetSql (lit "/api/v1/sql/%E0%A4%A")
     = Ret (sendJSON 400 (error_obj (lit "Badly encoded SQL."))).
Proof. split; vm_compute; reflexivity. Qed.

(* ================================================================== *)
(** ** More about the classifier *)
(* ================================================================== *)

Lemma canonicalize_idem c : canonicalize (canonicalize c) = canonicalize c.
Proof.
  destruct (canonicalize_cases c) as [[Hl ->]|[Hl ->]].
  - unfold canonicalize, is_lower in *.
    destruct ((97 <=? c - 32)%N && (c - 32 <=? 122)%N) eqn:H; [|reflexivity].
    as_arith. lia.
  - destruct (canonicalize_cases c) as [[Hl' _]|[_ ->]]; [congruence | reflexivity].
Qed.

Lemma isWordChar_canonicalize c : isWordChar (canonicalize c) = isWordChar c.
Proof.
  destruct (canonicalize_cases c) as [[Hl ->]|[Hl ->]]; [|reflexivity].
  unfold is_lower in Hl.
  assert (H1 : isWordChar c = true) by (unfold isWordChar; as_arith; lia).
  assert (H2 : isWordChar (c - 32) = true) by (unfold isWordChar; as_arith; lia).
  congruence.
Qed.

Lemma isWhiteSpace_canonicalize c : isWhiteSpace (canonicalize c) = isWhiteSpace c.
Proof.
  destruct (canonicalize_cases c) as [[Hl ->]|[Hl ->]]; [|reflexivity].
  unfold is_lower in Hl.
  assert (H1 : isWhiteSpace c = false).
  { apply not_true_is_false. intros H. unfold isWhiteSpace in H. as_arith. lia. }
  rewrite H1. apply not_true_is_false. intros H. unfold isWhiteSpace in H.
  as_arith. lia.
Qed.

Lemma lookup_map_list {A B} (f : A -> B) (l : list A) i :
  map f l !! i = option_map f (l !! i).
Proof.
  revert i. induction l as [|x l IH]; intros [|i]; simpl; auto.
Qed.


Lemma wordCharAt_canonicalize input e :
  wordCharAt (map canonicalize input) e = wordCharAt input e.
Proof.
  unfold wordCharAt. rewrite lookup_map_list.
  destruct (input !! e); simpl; [apply isWordChar_canonicalize | reflexivity].
Qed.

Lemma repeatSpace_canonicalize rest e c :
  repeatSpace (map canonicalize rest) e c = repeatSpace rest e c.
Proof.
  revert e. induction rest as [|ch rest IH]; intros e; simpl; [reflexivity|].
  rewrite isWhiteSpace_canonicalize, IH. reflexivity.
Qed.

Lemma matcher_canonicalize input p : forall e c,
  matcher (map canonicalize input) p e c = matcher input p e c.
Proof.
  induction p as [|ch|p1 IH1 p2 IH2|p1 IH1 p2 IH2| | |]; intros e c; simpl.
  - reflexivity.
  - rewrite lookup_map_list. destruct (input !! e); simpl; [|reflexivity].
    rewrite canonicalize_idem. reflexivity.
  - rewrite IH1. apply matcher_ext. intros e'. apply IH2.
  - rewrite IH1, IH2. reflexivity.
  - reflexivity.
  - unfold isWordBoundary. destruct e; rewrite ?wordCharAt_canonicalize; reflexivity.
  - rewrite skipn_map. apply repeatSpace_canonicalize.
Qed.


Lemma test_canonicalize p text : test p (map canonicalize text) = test p text.
Proof.
  unfold test. rewrite length_map. apply existsb_same. intros i.
  apply matcher_canonicalize.
Qed.

Lemma test_same_letters p t1 t2 :
  map canonicalize t1 = map canonicalize t2 -> test p t1 = test p t2.
Proof.
  intros H. rewrite <- (test_canonicalize p t1), <- (test_canonicalize p t2), H.
  reflexivity.
Qed.

(** X1. Letter case never matters to the classifier: two texts that
    differ only in the case of ASCII letters get the same answer from
    each of the four predicates, in both servers, and the same
    classification on either channel. *)
Theorem classifier_ignores_letter_case (t1 t2 : list N) (i : Intent) :
  map canonicalize t1 = map canonicalize t2 ->
  Sql.isForbidden t1 = Sql.isForbidden t2
  /\ Sql.isSelect t1 = Sql.isSelect t2
  /\ Sql.isInsert t1 = Sql.isInsert t2
  /\ Sql.touchesPatient t1 = Sql.touchesPatient t2
  /\ Server2.isForbidden t1 = Server2.isForbidden t2
  /\ Server2.isSelect t1 = Server2.isSelect t2
  /\ Server2.isInsert t1 = Server2.isInsert t2
  /\ Server2.touchesPatient t1 = Server2.touchesPatient t2
  /\ classify t1 i = classify t2 i.
Proof.
  intros H.
  assert (Hf : Sql.isForbidden t1 = Sql.isForbidden t2) by (apply test_same_letters, H).
  assert (Hs : Sql.isSelect t1 = Sql.isSelect t2) by (apply test_same_letters, H).
  assert (Hi : Sql.isInsert t1 = Sql.isInsert t2) by (apply test_same_letters, H).
  assert (Ht : Sql.touchesPatient t1 = Sql.touchesPatient t2)
    by (apply test_same_letters, H).
  split; [exact Hf|]. split; [exact Hs|]. split; [exact Hi|]. split; [exact Ht|].
  split; [exact Hf|]. split; [exact Hs|]. split; [exact Hi|]. split; [exact Ht|].
  unfold classify, intent_shape. rewrite Hf, Hs, Hi, Ht. reflexivity.
Qed.

Lemma classifier_ignores_letter_case_witness :
  map canonicalize shouted = map canonicalize whispered
  /\ classify shouted Read = classify whispered Read.
Proof.
  assert (H : map canonicalize shouted = map canonicalize whispered)
    by (vm_compute; reflexivity).
  split; [exact H|].
  apply (classifier_ignores_letter_case shouted whispered Read H).
Defined.

(** X2. [isSelect] holds exactly for a text that, after leading white
    space only, reads "select" in any letter case and goes on with no
    word character; [isInsert] the same with "insert". *)
Theorem intent_shape_in_words (text : list N) :
  (Sql.isSelect text = true <-> begins_with_word (lit "select") text)
  /\ (Sql.isInsert text = true <-> begins_with_word (lit "insert") text)
  /\ (Server2.isSelect text = true <-> begins_with_word (lit "select") text)
  /\ (Server2.isInsert text = true <-> begins_with_word (lit "insert") text).
Proof.
  split; [apply isSelect_iff|]. split; [apply isInsert_iff|].
  split; [apply isSelect_iff | apply isInsert_iff].
Qed.

(** X3. [touchesPatient] holds exactly for a text that contains
    "patient", in any letter case, with no word character right before
    or right after it. *)
Theorem touchesPatient_in_words (text : list N) :
  (Sql.touchesPatient text = true <-> occurs_as_word (lit "patient") text)
  /\ (Server2.touchesPatient text = true <-> occurs_as_word (lit "patient") text).
Proof. split; apply touchesPatient_iff. Qed.

(** X4. [isForbidden] rejects nothing else than the denylist: a text in
    which none of the ten keywords occurs as a whole word is not
    forbidden, so that the predicate holds exactly for the denylisted
    texts. *)
Theorem isForbidden_only_for_denylisted (text : list N) :
  (Sql.isForbidden text = true <-> denylisted text)
  /\ (Server2.isForbidden text = true <-> denylisted text)
  /\ (~ denylisted text -> forall i, classify text i <> Forbidden).
Proof.
  split; [apply isForbidden_iff|]. split; [apply isForbidden_iff|].
  intros Hn i Hc. apply Hn. apply isForbidden_iff.
  unfold classify in Hc. destruct (Sql.isForbidden text); [reflexivity|].
  destruct (negb (intent_shape i text)); [discriminate|].
  destruct (negb (Sql.touchesPatient text)); discriminate.
Qed.

Lemma isForbidden_only_for_denylisted_witness :
  ~ denylisted (lit "select * from patient where name = 'dropped'")
  /\ classify (lit "select * from patient where name = 'dropped'") Read <> Forbidden.
Proof.
  assert (H : ~ denylisted (lit "select * from patient where name = 'dropped'")).
  { intros H. apply isForbidden_iff in H. vm_compute in H. discriminate H. }
  split; [exact H|].
  exact (proj2 (proj2 (isForbidden_only_for_denylisted _)) H Read).
Defined.

(** *** One channel at most *)

Lemma word_char_not_white_space c : isWordChar c = true -> isWhiteSpace c = false.
Proof.
  intros H. destruct (isWhiteSpace c) eqn:Hw; [|reflexivity].
  apply white_space_not_word in Hw. congruence.
Qed.

Lemma trimStart_blank_app ws rest :
  blank ws ->
  match rest with c :: _ => isWhiteSpace c = false | [] => True end ->
  trimStart (ws ++ rest) = rest.
Proof.
  intros Hb Hr. induction ws as [|c ws IH]; simpl.
  - destruct rest as [|c rest]; [reflexivity|]. simpl. rewrite Hr. reflexivity.
  - rewrite (Forall_inv Hb). apply IH. exact (Forall_inv_tail Hb).
Qed.

(** The first code unit after the leading white space is the first
    letter of the keyword, in either case. *)
Lemma begins_with_word_first k kw text :
  is_lower k = true -> forallb is_lower kw = true ->
  begins_with_word (k :: kw) text ->
  exists c rest, trimStart text = c :: rest /\ canonicalize c = canonicalize k.
Proof.
  intros Hk Hkw (ws & w & post & -> & Hb & Hci & _).
  destruct w as [|x w]; [discriminate|]. injection Hci as Hx Hw.
  exists x, (w ++ post). split; [|exact Hx].
  apply (trimStart_blank_app ws ((x :: w) ++ post) Hb). simpl.
  apply word_char_not_white_space. exact (canonicalize_letter x k Hk Hx).
Qed.

Lemma select_excludes_insert text :
  Sql.isSelect text = true -> Sql.isInsert text = false.
Proof.
  intros Hs. apply not_true_is_false. intros Hi.
  apply isSelect_iff in Hs. apply isInsert_iff in Hi.
  destruct (begins_with_word_first 115%N (lit "elect") text eq_refl eq_refl Hs)
    as (c & r & Hc & Ec).
  destruct (begins_with_word_first 105%N (lit "nsert") text eq_refl eq_refl Hi)
    as (c' & r' & Hc' & Ec').
  rewrite Hc in Hc'. injection Hc' as <- _. rewrite Ec in Ec'. vm_compute in Ec'.
  discriminate Ec'.
Qed.

(** X5. No text has both shapes: a text that [isSelect] accepts is
    refused by [isInsert], and the other way round. So a statement that
    is approved on one channel is WrongIntent on the other: an approved
    read sent by POST is answered "POST only allows INSERT.", an approved
    write sent by GET "GET only allows SELECT.". *)
Theorem channels_exclude_each_other (text : list N) :
  (Sql.isSelect text = true -> Sql.isInsert text = false)
  /\ (Sql.isInsert text = true -> Sql.isSelect text = false)
  /\ (classify text Read = Approved ->
      classify text Write = WrongIntent
      /\ SQLiteServer.handlePostSql (BodyQuery text)
         = Ret (sent sendJSON (wrong_intent_reply Write)))
  /\ (classify text Write = Approved ->
      classify text Read = WrongIntent
      /\ forall pathname,
           statement_of_path pathname = Some text ->
           SQLiteServer.handleGetSql pathname
           = Ret (sent sendJSON (wrong_intent_reply Read))).
Proof.
  assert (H1 : Sql.isInsert text = true -> Sql.isSelect text = false).
  { intros Hi. destruct (Sql.isSelect text) eqn:Hs; [|reflexivity].
    apply select_excludes_insert in Hs. congruence. }
  split; [apply select_excludes_insert|]. split; [exact H1|].
  split; intros Hc.
  - assert (Hw : classify text Write = WrongIntent).
    { unfold classify, intent_shape in *.
      destruct (Sql.isForbidden text); [discriminate|].
      destruct (Sql.isSelect text) eqn:Hs; [|discriminate].
      rewrite (select_excludes_insert text Hs). reflexivity. }
    split; [exact Hw|]. apply answers_directly_Some.
    rewrite (post_gate text (approved_not_blank text Read Hc)), Hw. reflexivity.
  - assert (Hw : classify text Read = WrongIntent).
    { unfold classify, intent_shape in *.
      destruct (Sql.isForbidden text); [discriminate|].
      destruct (Sql.isInsert text) eqn:Hs; [|discriminate].
      rewrite (H1 eq_refl). reflexivity. }
    split; [exact Hw|]. intros pathname Hp. apply answers_directly_Some.
    rewrite (get_gate pathname text Hp), Hw. reflexivity.
Qed.

Lemma channels_exclude_each_other_witness :
  classify (lit "select * from patient") Read = Approved
  /\ SQLiteServer.handlePostSql (BodyQuery (lit "select * from patient"))
     = Ret (sent sendJSON (wrong_intent_reply Write)).
Proof.
  assert (H : classify (lit "select * from patient") Read = Approved)
    by (vm_compute; reflexivity).
  split; [exact H|].
  exact (proj2 (proj1 (proj2 (proj2 (channels_exclude_each_other _))) H)).
Defined.

(* ================================================================== *)
(** ** Reading a body *)
(* ================================================================== *)

Lemma total_cons c cs : Body.total (c :: cs) = (N.of_nat (length c) + Body.total cs)%N.
Proof. unfold Body.total. simpl. rewrite length_app. lia. Qed.

Lemma deliver_destroyed toString limit st events :
  Body.destroyed st = true -> Body.deliver toString limit st events = st.
Proof. intros H. destruct events; simpl; [|rewrite H]; reflexivity. Qed.

Lemma deliver_settled toString limit events : forall st r,
  Body.settled st = Some r ->
  Body.settled (Body.deliver toString limit st events) = Some r.
Proof.
  induction events as [|ev events IH]; intros st r Hs; simpl; [exact Hs|].
  destruct (Body.destroyed st); [exact Hs|]. apply IH.
  destruct ev as [c| |m]; unfold Body.onData, Body.onEnd, Body.onError, Body.settle;
    cbn [Body.settled]; rewrite ?Hs; try (destruct (limit <? _)%N);
    cbn [Body.settled]; rewrite ?Hs; first [exact Hs | reflexivity].
Qed.

Lemma deliver_data_within toString limit cs events : forall sz chs,
  (sz + Body.total cs <= limit)%N ->
  Body.deliver toString limit (Body.mkReading sz chs None false)
    (map Body.Data cs ++ events)
  = Body.deliver toString limit
      (Body.mkReading (sz + Body.total cs) (chs ++ cs) None false) events.
Proof.
  induction cs as [|c cs IH]; intros sz chs Hle.
  - simpl. unfold Body.total. simpl. rewrite N.add_0_r, app_nil_r. reflexivity.
  - rewrite total_cons in Hle. cbn [map app Body.deliver Body.destroyed].
    unfold Body.onData. cbn [Body.size Body.chunks Body.settled Body.destroyed].
    destruct (N.ltb_spec limit (sz + N.of_nat (length c))) as [Hlt|Hge]; [lia|].
    rewrite IH by lia. rewrite total_cons, <- app_assoc. simpl.
    f_equal. f_equal. lia.
Qed.

Lemma deliver_data_beyond toString limit cs events : forall sz chs,
  (sz <= limit)%N -> (limit < sz + Body.total cs)%N ->
  Body.settled
    (Body.deliver toString limit (Body.mkReading sz chs None false)
       (map Body.Data cs ++ events))
  = Some (Rejected (lit "BODY_TOO_LARGE")).
Proof.
  induction cs as [|c cs IH]; intros sz chs Hsz Hlt.
  - unfold Body.total in Hlt. simpl in Hlt. lia.
  - rewrite total_cons in Hlt. cbn [map app Body.deliver Body.destroyed].
    unfold Body.onData. cbn [Body.size Body.chunks Body.settled Body.destroyed].
    destruct (N.ltb_spec limit (sz + N.of_nat (length c))) as [Hex|Hin].
    + rewrite deliver_destroyed by reflexivity. reflexivity.
    + apply IH; lia.
Qed.

(** X6. [readBody] accepts a body of up to [limit] bytes and no more.
    When the chunks that arrive before the end hold at most [limit]
    bytes together, the promise resolves with all of them, in order, as
    one string; a body of exactly [limit] bytes is accepted. As soon as
    they hold more, it rejects with "BODY_TOO_LARGE", whatever comes
    after; an error of the stream within the limit rejects with that
    error; and while neither happens the promise stays pending. A body
    over the limit makes [handlePostSql] answer 413 with that message. *)
Theorem readBody_keeps_the_limit
    (toString : list N -> list N) (limit : N)
    (cs : list (list N)) (rest : list Body.StreamEvent) (m : list N) :
  Body.readBody toString limit (map Body.Data cs ++ Body.End :: rest)
  = Some (if (Body.total cs <=? limit)%N
          then Resolved (toString (concat cs))
          else Rejected (lit "BODY_TOO_LARGE"))
  /\ Body.readBody toString limit (map Body.Data cs ++ Body.Failure m :: rest)
     = Some (if (Body.total cs <=? limit)%N
             then Rejected m
             else Rejected (lit "BODY_TOO_LARGE"))
  /\ Body.readBody toString limit (map Body.Data cs)
     = (if (Body.total cs <=? limit)%N
        then None
        else Some (Rejected (lit "BODY_TOO_LARGE")))
  /\ ((limit < Body.total cs)%N ->
      Body.unreadable (Rejected (lit "BODY_TOO_LARGE"))
      = Some (BodyUnreadable (lit "BODY_TOO_LARGE"))
      /\ SQLiteServer.handlePostSql (BodyUnreadable (lit "BODY_TOO_LARGE"))
         = Ret (sendJSON 413 (error_obj (lit "BODY_TOO_LARGE")))).
Proof.
  unfold Body.readBody, Body.start.
  destruct (N.leb_spec (Body.total cs) limit) as [Hle|Hgt].
  - split; [|split; [|split]].
    + rewrite deliver_data_within by lia. cbn [Body.deliver Body.destroyed].
      apply deliver_settled. reflexivity.
    + rewrite deliver_data_within by lia. cbn [Body.deliver Body.destroyed].
      apply deliver_settled. reflexivity.
    + rewrite <- (app_nil_r (map Body.Data cs)).
      rewrite deliver_data_within by lia. reflexivity.
    + lia.
  - split; [|split; [|split]].
    + apply deliver_data_beyond; lia.
    + apply deliver_data_beyond; lia.
    + rewrite <- (app_nil_r (map Body.Data cs)). apply deliver_data_beyond; lia.
    + intros _. split; reflexivity.
Qed.

Lemma readBody_keeps_the_limit_witness :
  (3 < Body.total [[104; 105]; [33; 33]])%N
  /\ Body.readBody (fun b => b) 3 (map Body.Data [[104; 105]; [33; 33]] ++ [Body.End])%N
     = Some (Rejected (lit "BODY_TOO_LARGE")).
Proof.
  split; [vm_compute; reflexivity|].
  exact (proj1 (readBody_keeps_the_limit (fun b => b) 3 [[104; 105]; [33; 33]]%N
                  [] [])).
Defined.

(* ================================================================== *)
(** ** Every answer of the router *)
(* ================================================================== *)

Lemma every_answer_run {A} (P : A -> Prop) E (p : Prog A) : forall s,
  every_answer P p -> P (fst (run E p s)).
Proof.
  induction p as [a|sql params k IH|sql k IH]; intros s H; simpl in *.
  - exact H.
  - destruct (engine_run E sql params s) as [r s']. apply IH, H.
  - destruct (engine_all E sql s) as [r s']. apply IH, H.
Qed.

Lemma handleRequest_answers (P : Response -> Prop) req :
  P SQLiteServer.handleOptions ->
  P (sendText 200 SQLiteServer.banner) ->
  (forall st obj, In st [200; 400; 403; 404; 413]%Z -> P (sendJSON st obj)) ->
  every_answer P (SQLiteServer.handleRequest req).
Proof.
  intros HO HB HJ.
  assert (HJ' : forall st obj,
             bool_decide (In st [200; 400; 403; 404; 413]%Z) = true ->
             P (sendJSON st obj)).
  { intros st obj H. apply HJ. exact (bool_decide_eq_true_1 _ H). }
  unfold SQLiteServer.handleRequest, SQLiteServer.handleGetSql,
    SQLiteServer.handlePostSql, SQLiteServer.handleSeed,
    SQLiteServer.runSelect, SQLiteServer.runInsert, SQLiteServer.seed,
    SQLiteServer.ensureTableExists.
  simpl.
  walk_answers ltac:(first [exact HO | exact HB | apply HJ'; reflexivity]).
Qed.

Lemma start_answers (P : Response -> Prop) origin req :
  P (Server2.handleOptions origin) ->
  P (Server2.sendText origin 200 SQLiteServer.banner) ->
  (forall st obj, In st [200; 400; 403; 404; 413]%Z ->
                  P (Server2.sendJSON origin st obj)) ->
  (jsstring_eqb (method req) (lit "POST")
   && jsstring_eqb (pathname req) (lit "/api/v1/seed") = true ->
   forall obj, P (Server2.sendJSON origin 500 obj)) ->
  every_answer P (Server2.start origin req).
Proof.
  intros HO HB HJ HS.
  assert (HJ' : forall st obj,
             bool_decide (In st [200; 400; 403; 404; 413]%Z) = true ->
             P (Server2.sendJSON origin st obj)).
  { intros st obj H. apply HJ. exact (bool_decide_eq_true_1 _ H). }
  unfold Server2.start.
  destruct (jsstring_eqb (method req) (lit "OPTIONS")); [exact HO|].
  destruct (jsstring_eqb (method req) (lit "GET")
            && startsWith (pathname req) (lit "/api/v1/sql/")).
  { unfold Server2.handleGetSql, Server2.runSelect. simpl.
    walk_answers ltac:(first [apply HJ'; reflexivity]). }
  destruct (jsstring_eqb (method req) (lit "POST")
            && jsstring_eqb (pathname req) (lit "/api/v1/sql")).
  { unfold Server2.handlePostSql, Server2.runInsert. simpl.
    walk_answers ltac:(first [apply HJ'; reflexivity]). }
  destruct (jsstring_eqb (method req) (lit "POST")
            && jsstring_eqb (pathname req) (lit "/api/v1/seed")).
  { unfold Server2.handlePostSeed, Server2.seed. simpl.
    walk_answers ltac:(first [apply HJ'; reflexivity | apply HS; reflexivity]). }
  destruct (jsstring_eqb (method req) (lit "GET")
            && jsstring_eqb (pathname req) (lit "/")); [exact HB|].
  apply HJ'. reflexivity.
Qed.

Lemma cors_with_has_cors origin extra st b :
  has_cors origin (mkResponse st (cors_with origin extra) b).
Proof.
  unfold has_cors, cors_with. cbn [headers app In].
  split; [|split]; auto.
Qed.

(** X7. Every answer carries the three CORS headers, whatever the
    request, the engine and the store: Access-Control-Allow-Origin (an
    asterisk in the class-based server, the configured origin in the
    earlier one), Access-Control-Allow-Methods "GET, POST, OPTIONS" and
    Access-Control-Allow-Headers "Content-Type". *)
Theorem every_answer_has_cors
    (origin : list N) (req : Request) (E : Engine) (s : Store) :
  has_cors (lit "*") (fst (run E (SQLiteServer.handleRequest req) s))
  /\ has_cors origin (fst (run E (Server2.start origin req) s)).
Proof.
  split; apply every_answer_run.
  - apply handleRequest_answers; intros; apply cors_with_has_cors.
  - apply start_answers; intros; apply cors_with_has_cors.
Qed.

(** X8. The class-based server answers with one of six statuses only:
    200, 204, 400, 403, 404, 413; a failure of the store is never
    answered with a 5xx status. The earlier server has 500 besides, and
    only for POST /api/v1/seed. *)
Theorem statuses_of_the_router
    (origin : list N) (req : Request) (E : Engine) (s : Store) :
  In (status (fst (run E (SQLiteServer.handleRequest req) s)))
     [200; 204; 400; 403; 404; 413]%Z
  /\ In (status (fst (run E (Server2.start origin req) s)))
        [200; 204; 400; 403; 404; 413; 500]%Z
  /\ (status (fst (run E (Server2.start origin req) s)) = 500%Z ->
      method req = lit "POST" /\ pathname req = lit "/api/v1/seed").
Proof.
  split; [|split].
  - apply (every_answer_run (fun r => In (status r) [200; 204; 400; 403; 404; 413]%Z)).
    apply handleRequest_answers.
    + cbn. auto 10.
    + cbn. auto 10.
    + intros st obj H. cbn [status sendJSON In] in *. intuition.
  - apply (every_answer_run
             (fun r => In (status r) [200; 204; 400; 403; 404; 413; 500]%Z)).
    apply start_answers.
    + cbn. auto 10.
    + cbn. auto 10.
    + intros st obj H. cbn [status Server2.sendJSON In] in *. intuition.
    + intros Hseed obj. cbn. auto 10.
  - apply (every_answer_run
             (fun r => status r = 500%Z ->
                       method req = lit "POST" /\ pathname req = lit "/api/v1/seed")).
    apply start_answers;
      cbn [status Server2.handleOptions Server2.sendText Server2.sendJSON];
      try discriminate.
    + intros st obj H ->. cbn [In] in H.
      repeat (destruct H as [H|H]; [discriminate H|]). destruct H.
    + intros H obj _. apply andb_true_iff in H as [H1 H2].
      apply jsstring_eqb_eq in H1, H2. auto.
Qed.

Lemma statuses_of_the_router_witness :
  status (fst (run SQLite.reference_engine (Server2.start (lit "*") seed_request)
                 SQLite.empty_store)) = 500%Z
  /\ method seed_request = lit "POST"
  /\ pathname seed_request = lit "/api/v1/seed".
Proof.
  assert (H : status (fst (run SQLite.reference_engine
                             (Server2.start (lit "*") seed_request)
                             SQLite.empty_store)) = 500%Z)
    by (vm_compute; reflexivity).
  split; [exact H|].
  exact (proj2 (proj2 (statuses_of_the_router (lit "*") seed_request
                         SQLite.reference_engine SQLite.empty_store)) H).
Defined.

(* ================================================================== *)
(** ** The calls of a request *)
(* ================================================================== *)

Lemma get_calls E s pathname :
  calls E (SQLiteServer.handleGetSql pathname) s
  = match statement_of_path pathname with
    | Some sql =>
        match classify sql Read with
        | Approved =>
            CallRun SQLiteServer.ensure_sql []
            :: match fst (engine_run E SQLiteServer.ensure_sql [] s) with
               | RunOk _ => [CallAll sql]
               | RunErr _ => []
               end
        | _ => []
        end
    | None => []
    end.
Proof.
  unfold statement_of_path, SQLiteServer.handleGetSql, path_tail, classify, intent_shape.
  destruct (length (path_parts pathname) <? 4)%nat; [reflexivity|].
  destruct (decodeURIComponent _) as [sql|]; [|reflexivity].
  destruct (Sql.isForbidden sql); [reflexivity|].
  destruct (Sql.isSelect sql); [|reflexivity].
  destruct (Sql.touchesPatient sql); [|reflexivity].
  simpl. destruct (engine_run E SQLiteServer.ensure_sql [] s) as [[e|this] s1];
    simpl; [reflexivity|].
  destruct (engine_all E sql s1) as [[e|rows] s2]; reflexivity.
Qed.

Lemma post_calls E s b :
  calls E (SQLiteServer.handlePostSql b) s
  = match b with
    | BodyQuery sql =>
        match classify sql Write with
        | Approved =>
            CallRun SQLiteServer.ensure_sql []
            :: match fst (engine_run E SQLiteServer.ensure_sql [] s) with
               | RunOk _ => [CallRun sql []]
               | RunErr _ => []
               end
        | _ => []
        end
    | _ => []
    end.
Proof.
  destruct b as [m| |sql]; try reflexivity.
  destruct (classify sql Write) eqn:Hc.
  1-3: destruct (truthy (trim sql)) eqn:Ht;
    [ assert (Hnb : ~ blank sql) by (intros Hb; apply trim_blank in Hb; congruence);
      pose proof (post_gate sql Hnb) as Hg; rewrite Hc in Hg;
      apply answers_directly_Some in Hg; rewrite Hg; reflexivity
    | unfold SQLiteServer.handlePostSql; rewrite Ht; reflexivity ].
  rewrite (approved_post sql Hc). simpl.
  destruct (engine_run E SQLiteServer.ensure_sql [] s) as [[e|this] s1];
    simpl; [reflexivity|].
  destruct (engine_run E sql [] s1) as [[e|this'] s2]; reflexivity.
Qed.

(** X9. A request makes at most two calls of the store: the table check,
    and then the statement. A read hands the client's text to [db.all]
    only: the only statement it ever gives to [db.run] is the fixed
    CREATE TABLE IF NOT EXISTS, and what it gives to [db.all] is the
    approved text of the path. A write never calls [db.all], and what it
    gives to [db.run], without parameters, is that CREATE TABLE or the
    approved query. *)
Theorem calls_of_a_request (E : Engine) (s : Store) (path : list N) (b : PostBody) :
  let reads := calls E (SQLiteServer.handleGetSql path) s in
  let writes := calls E (SQLiteServer.handlePostSql b) s in
  length reads <= 2 /\ length writes <= 2
  /\ (forall q ps, In (CallRun q ps) reads -> q = SQLiteServer.ensure_sql /\ ps = [])
  /\ (forall q, In (CallAll q) reads ->
        statement_of_path path = Some q /\ classify q Read = Approved)
  /\ (forall q, ~ In (CallAll q) writes)
  /\ (forall q ps, In (CallRun q ps) writes ->
        ps = []
        /\ (q = SQLiteServer.ensure_sql
            \/ (b = BodyQuery q /\ classify q Write = Approved))).
Proof.
  intros reads writes. subst reads writes. rewrite get_calls, post_calls.
  destruct (fst (engine_run E SQLiteServer.ensure_sql [] s)) as [e|this].
  - split; [|split; [|split; [|split; [|split]]]].
    + destruct (statement_of_path path) as [sql|]; [|simpl; lia].
      destruct (classify sql Read); simpl; lia.
    + destruct b as [m| |sql]; simpl; try lia.
      destruct (classify sql Write); simpl; lia.
    + intros q ps. destruct (statement_of_path path) as [sql|]; [|intros []].
      destruct (classify sql Read); cbn [In]; intros Hin; in_cases Hin.
    + intros q. destruct (statement_of_path path) as [sql|]; [|intros []].
      destruct (classify sql Read) eqn:Hc; cbn [In]; intros Hin; in_cases Hin.
    + intros q. destruct b as [m| |sql]; try (intros []).
      destruct (classify sql Write); cbn [In]; intros Hin; in_cases Hin.
    + intros q ps. destruct b as [m| |sql]; try (intros []).
      destruct (classify sql Write) eqn:Hc; cbn [In]; intros Hin; in_cases Hin.
  - split; [|split; [|split; [|split; [|split]]]].
    + destruct (statement_of_path path) as [sql|]; [|simpl; lia].
      destruct (classify sql Read); simpl; lia.
    + destruct b as [m| |sql]; simpl; try lia.
      destruct (classify sql Write); simpl; lia.
    + intros q ps. destruct (statement_of_path path) as [sql|]; [|intros []].
      destruct (classify sql Read); cbn [In]; intros Hin; in_cases Hin.
    + intros q. destruct (statement_of_path path) as [sql|]; [|intros []].
      destruct (classify sql Read) eqn:Hc; cbn [In]; intros Hin; in_cases Hin.
    + intros q. destruct b as [m| |sql]; try (intros []).
      destruct (classify sql Write); cbn [In]; intros Hin; in_cases Hin.
    + intros q ps. destruct b as [m| |sql]; try (intros []).
      destruct (classify sql Write) eqn:Hc; cbn [In]; intros Hin; in_cases Hin.
Qed.

Lemma calls_of_a_request_witness :
  In (CallAll (lit "select * from patient"))
     (calls SQLite.reference_engine (SQLiteServer.handleGetSql select_all_path)
        after_bootstrap)
  /\ statement_of_path select_all_path = Some (lit "select * from patient")
  /\ classify (lit "select * from patient") Read = Approved.
Proof.
  assert (H : In (CallAll (lit "select * from patient"))
                (calls SQLite.reference_engine
                   (SQLiteServer.handleGetSql select_all_path) after_bootstrap)).
  { vm_compute. right. left. reflexivity. }
  split; [exact H|].
  pose proof (calls_of_a_request SQLite.reference_engine after_bootstrap
                select_all_path BodyNotJson) as (_ & _ & _ & Hall & _).
  exact (Hall _ H).
Defined.

(* ================================================================== *)
(** ** What the store says, and what is answered *)
(* ================================================================== *)

(** X11. A failure of the store is answered 400 with the store's own
    message, on both channels. When the table check fails, the approved
    statement is not run at all: the check is the only call. When the
    statement itself fails, the answer carries its error; the store is
    left as the engine left it. *)
Theorem store_failure_is_answered_400
    (pathname sql query : list N) (E : Engine) (s : Store) :
  statement_of_path pathname = Some sql ->
  classify sql Read = Approved ->
  classify query Write = Approved ->
  (forall e s1,
      engine_run E SQLiteServer.ensure_sql [] s = (RunErr e, s1) ->
      run E (SQLiteServer.handleGetSql pathname) s = (sendJSON 400 (error_obj e), s1)
      /\ calls E (SQLiteServer.handleGetSql pathname) s
         = [CallRun SQLiteServer.ensure_sql []]
      /\ run E (SQLiteServer.handlePostSql (BodyQuery query)) s
         = (sendJSON 400 (error_obj e), s1)
      /\ calls E (SQLiteServer.handlePostSql (BodyQuery query)) s
         = [CallRun SQLiteServer.ensure_sql []])
  /\ (forall r0 s1 e s2,
        engine_run E SQLiteServer.ensure_sql [] s = (RunOk r0, s1) ->
        engine_all E sql s1 = (AllErr e, s2) ->
        run E (SQLiteServer.handleGetSql pathname) s
        = (sendJSON 400 (error_obj e), s2))
  /\ (forall r0 s1 e s2,
        engine_run E SQLiteServer.ensure_sql [] s = (RunOk r0, s1) ->
        engine_run E query [] s1 = (RunErr e, s2) ->
        run E (SQLiteServer.handlePostSql (BodyQuery query)) s
        = (sendJSON 400 (error_obj e), s2)).
Proof.
  intros Hp Hr Hw. split; [|split].
  - intros e s1 He. rewrite get_calls, post_calls, Hp, Hr, Hw, He. cbn [fst].
    rewrite (approved_get pathname sql Hp Hr), (approved_post query Hw).
    rewrite !run_bind, run_runSelect, run_runInsert.
    unfold select_outcome, insert_outcome. rewrite He. auto.
  - intros r0 s1 e s2 He Ha.
    rewrite (approved_get pathname sql Hp Hr), run_bind, run_runSelect.
    unfold select_outcome. rewrite He, Ha. reflexivity.
  - intros r0 s1 e s2 He Ha.
    rewrite (approved_post query Hw), run_bind, run_runInsert.
    unfold insert_outcome. rewrite He, Ha. reflexivity.
Qed.

Lemma store_failure_is_answered_400_witness :
  statement_of_path names_path = Some names_sql
  /\ classify names_sql Read = Approved
  /\ classify SQLite.ada_sql Write = Approved
  /\ run SQLite.reference_engine (SQLiteServer.handleGetSql names_path)
       after_bootstrap
     = (sendJSON 400 (error_obj (lit "SQLITE_ERROR: not supported")), after_bootstrap).
Proof.
  assert (Hp : statement_of_path names_path = Some names_sql)
    by (vm_compute; reflexivity).
  assert (Hr : classify names_sql Read = Approved) by (vm_compute; reflexivity).
  assert (Hw : classify SQLite.ada_sql Write = Approved) by (vm_compute; reflexivity).
  split; [exact Hp|]. split; [exact Hr|]. split; [exact Hw|].
  assert (H1 : engine_run SQLite.reference_engine SQLiteServer.ensure_sql []
                 after_bootstrap = (RunOk (mkReport 0 0), after_bootstrap))
    by (vm_compute; reflexivity).
  assert (H2 : engine_all SQLite.reference_engine names_sql after_bootstrap
               = (AllErr (lit "SQLITE_ERROR: not supported"), after_bootstrap))
    by (vm_compute; reflexivity).
  exact (proj1 (proj2 (store_failure_is_answered_400 names_path names_sql
                         SQLite.ada_sql SQLite.reference_engine after_bootstrap
                         Hp Hr Hw))
           (mkReport 0 0) after_bootstrap _ after_bootstrap H1 H2).
Defined.

(* ================================================================== *)
(** ** From the path to the statement *)
(* ================================================================== *)


(** X12. Behind the router, the statement of a read is what follows
    /api/v1/sql/ in the path, cut at the slashes, the empty pieces left
    out, put together again with single slashes, and percent-decoded. So
    a path with nothing but slashes after the prefix has no statement; a
    slash at the end or a doubled slash changes nothing; and a tail
    without a slash is decoded as it is. *)
Theorem statement_of_a_routed_path (p a b : list N) :
  startsWith p sql_prefix = true ->
  let rest := drop (length sql_prefix) p in
  p = sql_prefix ++ rest
  /\ path_parts p = lit "api" :: lit "v1" :: lit "sql" :: segments rest
  /\ statement_of_path p
     = match segments rest with
       | [] => None
       | _ :: _ => decodeURIComponent (join (lit "/") (segments rest))
       end
  /\ (segments rest = [] ->
      SQLiteServer.handleGetSql p
      = Ret (sendJSON 400 (error_obj (lit "Missing SQL in path."))))
  /\ statement_of_path (p ++ lit "/") = statement_of_path p
  /\ statement_of_path (sql_prefix ++ a ++ lit "//" ++ b)
     = statement_of_path (sql_prefix ++ a ++ lit "/" ++ b)
  /\ (rest <> [] -> Forall (fun c => c <> 47%N) rest ->
      statement_of_path p = decodeURIComponent rest).
Proof.
  intros Hs rest. pose proof (startsWith_app p sql_prefix Hs) as Hp.
  fold rest in Hp. split; [exact Hp|].
  split; [rewrite Hp at 1; apply path_parts_after_prefix|].
  split; [rewrite Hp at 1; apply statement_after_prefix|].
  split; [|split; [|split]].
  - intros Hnone. unfold SQLiteServer.handleGetSql.
    rewrite Hp, path_parts_after_prefix, Hnone. reflexivity.
  - rewrite Hp, <- app_assoc, !statement_after_prefix.
    assert (Ht : segments (rest ++ lit "/") = segments rest).
    { change (rest ++ lit "/") with (rest ++ 47%N :: []).
      rewrite segments_app_slash. apply app_nil_r. }
    rewrite Ht. reflexivity.
  - rewrite !statement_after_prefix.
    change (lit "//" ++ b) with (47%N :: 47%N :: b).
    change (lit "/" ++ b) with (47%N :: b).
    rewrite !segments_app_slash. reflexivity.
  - intros Hne Hall. rewrite Hp at 1.
    rewrite statement_after_prefix, (segments_no_slash rest Hne Hall). reflexivity.
Qed.

Lemma statement_of_a_routed_path_witness :
  startsWith (lit "/api/v1/sql/select%201//") sql_prefix = true
  /\ statement_of_path (lit "/api/v1/sql/select%201//") = Some (lit "select 1").
Proof.
  split; [reflexivity|].
  pose proof (statement_of_a_routed_path (lit "/api/v1/sql/select%201//") [] []
                eq_refl) as (_ & _ & H & _).
  rewrite H. vm_compute. reflexivity.
Defined.


(** *** A percent sign that is no escape *)

Lemma uriTokens_stray_here b : stray_percent b -> uriTokens (37%N :: b) = None.
Proof.
  intros Hb. simpl. destruct b as [|h [|l b]]; try reflexivity.
  simpl in Hb. destruct Hb as [H|H]; rewrite H; [reflexivity|].
  destruct (hexDigit h); reflexivity.
Qed.

Lemma uriTokens_stray b : forall n a,
  length a <= n -> stray_percent b -> uriTokens (a ++ 37%N :: b) = None.
Proof.
  induction n as [|n IH]; intros a Hn Hb.
  - destruct a; [|simpl in Hn; lia]. apply uriTokens_stray_here, Hb.
  - destruct a as [|c a]; [apply uriTokens_stray_here, Hb|].
    simpl in Hn. cbn [app uriTokens].
    destruct (N.eqb c 37).
    + destruct a as [|h [|l a]]; cbn [app].
      * destruct b; reflexivity.
      * destruct (hexDigit h); reflexivity.
      * destruct (hexDigit h); [|reflexivity]. destruct (hexDigit l); [|reflexivity].
        rewrite IH by (first [exact Hb | simpl in *; lia]). reflexivity.
    + rewrite IH by (first [exact Hb | simpl in *; lia]). reflexivity.
Qed.

(** What comes before the last slash of [a] is cut into segments of
    its own. *)
Lemma segments_before a :
  exists L a',
    Forall (fun c => c <> 47%N) a'
    /\ forall x, segments (a ++ x) = L ++ segments (a' ++ x).
Proof.
  induction a as [|c a IH] using rev_ind.
  - exists [], []. split; [constructor | reflexivity].
  - destruct (N.eqb_spec c 47) as [->|Hc].
    + exists (segments a), []. split; [constructor|]. intros x.
      rewrite <- app_assoc. apply segments_app_slash.
    + destruct IH as (L & a' & Ha' & H). exists L, (a' ++ [c]). split.
      * apply Forall_app. split; [exact Ha'|]. repeat constructor. exact Hc.
      * intros x. rewrite <- !app_assoc. apply H.
Qed.

Lemma first_slash b :
  exists b1 rest,
    b = b1 ++ rest /\ Forall (fun c => c <> 47%N) b1
    /\ (rest = [] \/ exists b2, rest = 47%N :: b2).
Proof.
  induction b as [|c b IH].
  - exists [], []. split; [reflexivity|]. split; [constructor | left; reflexivity].
  - destruct (N.eqb_spec c 47) as [->|Hc].
    + exists [], (47%N :: b). split; [reflexivity|]. split; [constructor|].
      right. exists b. reflexivity.
    + destruct IH as (b1 & rest & -> & H1 & H2). exists (c :: b1), rest.
      split; [reflexivity|]. split; [constructor; assumption | exact H2].
Qed.

Lemma join_middle sep L m R :
  exists pre suf,
    join sep (L ++ m :: R) = pre ++ m ++ suf
    /\ (suf = [] \/ exists t, suf = sep ++ t).
Proof.
  induction L as [|x L IH].
  - exists []. destruct R as [|r R].
    + exists []. split; [simpl; rewrite app_nil_r; reflexivity | left; reflexivity].
    + exists (sep ++ join sep (r :: R)). split; [reflexivity|].
      right. exists (join sep (r :: R)). reflexivity.
  - destruct IH as (pre & suf & E & Hs). exists (x ++ sep ++ pre), suf.
    split; [|exact Hs]. cbn [app].
    destruct (L ++ m :: R) as [|y l] eqn:E'; [destruct L; discriminate|].
    change (join sep (x :: y :: l)) with (x ++ sep ++ join sep (y :: l)).
    rewrite E, <- !app_assoc. reflexivity.
Qed.

Lemma stray_percent_cut b1 rest suf :
  stray_percent (b1 ++ rest) ->
  (suf = [] \/ exists t, suf = 47%N :: t) ->
  stray_percent (b1 ++ suf).
Proof.
  intros H Hs. destruct b1 as [|h [|l b1]].
  - destruct Hs as [->|[t ->]]; [exact I|].
    destruct t; [exact I | left; reflexivity].
  - destruct Hs as [->|[t ->]]; [exact I|]. right. reflexivity.
  - exact H.
Qed.

(** Cutting the path at the slashes and joining it again leaves a
    stray percent sign stray. *)
Lemma stray_percent_survives a b :
  stray_percent b ->
  exists L m R,
    segments (a ++ 37%N :: b) = L ++ m :: R
    /\ uriTokens (join (lit "/") (L ++ m :: R)) = None.
Proof.
  intros Hb.
  destruct (segments_before a) as (L & a' & Ha' & HL).
  destruct (first_slash b) as (b1 & rest & -> & Hb1 & Hrest).
  assert (Hm : Forall (fun c => c <> 47%N) (a' ++ 37%N :: b1)).
  { apply Forall_app. split; [exact Ha'|]. constructor; [discriminate | exact Hb1]. }
  assert (Hne : a' ++ 37%N :: b1 <> []) by (destruct a'; discriminate).
  assert (Hseg : exists R,
             segments (a ++ 37%N :: b1 ++ rest) = L ++ (a' ++ 37%N :: b1) :: R).
  { rewrite HL. destruct Hrest as [->|[b2 ->]].
    - exists []. rewrite app_nil_r, (segments_no_slash _ Hne Hm). reflexivity.
    - exists (segments b2).
      replace (a' ++ 37%N :: b1 ++ 47%N :: b2)
        with ((a' ++ 37%N :: b1) ++ 47%N :: b2)
        by (rewrite <- app_assoc; reflexivity).
      rewrite segments_app_slash, (segments_no_slash _ Hne Hm). reflexivity. }
  destruct Hseg as (R & Hseg). exists L, (a' ++ 37%N :: b1), R.
  split; [exact Hseg|].
  destruct (join_middle (lit "/") L (a' ++ 37%N :: b1) R) as (pre & suf & E & Hs).
  rewrite E.
  replace (pre ++ (a' ++ 37%N :: b1) ++ suf)
    with ((pre ++ a') ++ 37%N :: (b1 ++ suf))
    by (rewrite <- !app_assoc; reflexivity).
  apply (uriTokens_stray _ (length (pre ++ a')) _ (le_n _)).
  apply (stray_percent_cut b1 rest suf Hb).
  destruct Hs as [->|[t ->]]; [left; reflexivity | right; exists t; reflexivity].
Qed.

(** X13. A percent sign after /api/v1/sql/ that is not followed by two
    hexadecimal digits makes the read fail with 400 "Badly encoded
    SQL.", wherever it stands in the path and whatever else the path
    holds, slashes too; the text is not checked, so the answer is the
    same when it carries a denylisted word, and nothing is sent to the
    store. *)
Theorem stray_percent_is_badly_encoded (origin a b : list N) (body : PostBody) :
  stray_percent b ->
  let path := sql_prefix ++ a ++ 37%N :: b in
  decodeURIComponent (a ++ 37%N :: b) = None
  /\ statement_of_path path = None
  /\ SQLiteServer.handleRequest (mkRequest (lit "GET") path body)
     = Ret (sendJSON 400 (error_obj (lit "Badly encoded SQL.")))
  /\ Server2.start origin (mkRequest (lit "GET") path body)
     = Ret (Server2.sendJSON origin 400 (error_obj (lit "Badly encoded SQL."))).
Proof.
  intros Hb path.
  assert (Hd : decodeURIComponent (a ++ 37%N :: b) = None).
  { unfold decodeURIComponent.
    rewrite (uriTokens_stray b (length a) a (le_n _) Hb). reflexivity. }
  destruct (stray_percent_survives a b Hb) as (L & m & R & Hseg & Htok).
  assert (Hparts : path_parts path
                   = lit "api" :: lit "v1" :: lit "sql" :: (L ++ m :: R)).
  { unfold path. rewrite path_parts_after_prefix, Hseg. reflexivity. }
  assert (Hlen : (length (path_parts path) <? 4)%nat = false).
  { rewrite Hparts. cbn [length]. rewrite length_app. cbn [length].
    apply Nat.ltb_ge. lia. }
  assert (Hjoin : decodeURIComponent (join (lit "/") (drop 3 (path_parts path)))
                  = None).
  { rewrite Hparts.
    change (drop 3 (lit "api" :: lit "v1" :: lit "sql" :: L ++ m :: R))
      with (L ++ m :: R).
    unfold decodeURIComponent. rewrite Htok. reflexivity. }
  assert (Hstarts : startsWith path (lit "/api/v1/sql/") = true)
    by (apply (startsWith_prefix sql_prefix)).
  split; [exact Hd|]. split; [|split].
  - unfold statement_of_path, path_tail. rewrite Hlen. exact Hjoin.
  - unfold SQLiteServer.handleRequest. cbn [method pathname]. rewrite Hstarts.
    cbn [jsstring_eqb N.eqb Pos.eqb andb lit map String.list_ascii_of_string
           N_of_ascii].
    unfold SQLiteServer.handleGetSql. rewrite Hlen, Hjoin. reflexivity.
  - unfold Server2.start. cbn [method pathname]. rewrite Hstarts.
    cbn [jsstring_eqb N.eqb Pos.eqb andb lit map String.list_ascii_of_string
           N_of_ascii].
    unfold Server2.handleGetSql. rewrite Hlen, Hjoin. reflexivity.
Qed.

Lemma stray_percent_is_badly_encoded_witness :
  stray_percent (lit "zz/drop%20table")
  /\ SQLiteServer.handleRequest
       (mkRequest (lit "GET") (lit "/api/v1/sql/select%201/%zz/drop%20table")
          BodyNotJson)
     = Ret (sendJSON 400 (error_obj (lit "Badly encoded SQL."))).
Proof.
  assert (H1 : stray_percent (lit "zz/drop%20table")) by (left; reflexivity).
  split; [exact H1|].
  exact (proj1 (proj2 (proj2 (stray_percent_is_badly_encoded (lit "*")
                                (lit "select%201/") (lit "zz/drop%20table")
                                BodyNotJson H1)))).
Defined.

(* ================================================================== *)
(** ** More about the seed *)
(* ================================================================== *)

(** X14. The seed never answers [inserted: 0]. When its INSERT runs
    through, the answer is 200 with [ok: true] and with [inserted] equal
    to the number of changes the store reports, except that a report of
    no change at all is answered as [inserted: 4], the number of sample
    records. *)
Theorem seed_answer_never_says_zero
    (origin : list N) (E : Engine) (s s' : Store) (this : RunReport) :
  engine_run E SQLiteServer.seed_sql (concat SQLiteServer.seed_rows) s
  = (RunOk this, s') ->
  let n := if Z.eqb (changes this) 0 then 4%Z else changes this in
  n <> 0%Z
  /\ run E SQLiteServer.handleSeed s
     = (sendJSON 200
          (JObj [(lit "ok", JBool true);
                 (lit "message", JStr (lit "Database seeded successfully."));
                 (lit "inserted", JNum n)]), s')
  /\ run E (Server2.handlePostSeed origin) s
     = (Server2.sendJSON origin 200
          (JObj [(lit "ok", JBool true); (lit "inserted", JNum n)]), s').
Proof.
  intros Hrun n. split; [|split].
  - subst n. destruct (Z.eqb_spec (changes this) 0); [discriminate | assumption].
  - unfold SQLiteServer.handleSeed. rewrite run_bind.
    unfold SQLiteServer.seed. cbn [run]. rewrite Hrun. reflexivity.
  - unfold Server2.handlePostSeed. rewrite run_bind.
    unfold Server2.seed. cbn [run].
    change Server2.seed_sql with SQLiteServer.seed_sql.
    change (concat Server2.seed_rows) with (concat SQLiteServer.seed_rows).
    rewrite Hrun. reflexivity.
Qed.

Lemma seed_answer_never_says_zero_witness :
  engine_run SQLite.reference_engine SQLiteServer.seed_sql
    (concat SQLiteServer.seed_rows) after_bootstrap
  = (RunOk (mkReport 4 4), seeded after_bootstrap)
  /\ run SQLite.reference_engine SQLiteServer.handleSeed after_bootstrap
     = (sendJSON 200
          (JObj [(lit "ok", JBool true);
                 (lit "message", JStr (lit "Database seeded successfully."));
                 (lit "inserted", JNum 4)]), seeded after_bootstrap).
Proof.
  assert (H : engine_run SQLite.reference_engine SQLiteServer.seed_sql
                (concat SQLiteServer.seed_rows) after_bootstrap
              = (RunOk (mkReport 4 4), seeded after_bootstrap))
    by (vm_compute; reflexivity).
  split; [exact H|].
  exact (proj1 (proj2 (seed_answer_never_says_zero (lit "*") SQLite.reference_engine
                         after_bootstrap (seeded after_bootstrap)
                         (mkReport 4 4) H))).
Defined.

(** X15. The seed does not create the table: it makes one call, its
    INSERT, and nothing else. With an engine that reads that INSERT the
    way SQLite does, a seed on a store without the patient table fails
    and leaves the store without it; the class-based server answers 400
    and the earlier one 500, both with the store's message. *)
Theorem seed_needs_the_table (origin : list N) (E : Engine) (s : Store) :
  SQLite.Faithful E ->
  tables s !! "patient"%string = None ->
  calls E SQLiteServer.handleSeed s
  = [CallRun SQLiteServer.seed_sql (concat SQLiteServer.seed_rows)]
  /\ run E SQLiteServer.handleSeed s
     = (sendJSON 400 (error_obj (lit "SQLITE_ERROR: no such table: patient")), s)
  /\ run E (Server2.handlePostSeed origin) s
     = (Server2.sendJSON origin 500
          (error_obj (lit "SQLITE_ERROR: no such table: patient")), s)
  /\ ~ has_patient_table (snd (run E SQLiteServer.handleSeed s)).
Proof.
  intros HE Ht.
  assert (Hrun : engine_run E SQLiteServer.seed_sql (concat SQLiteServer.seed_rows) s
                 = (RunErr (lit "SQLITE_ERROR: no such table: patient"), s)).
  { rewrite (SQLite.runs_insert4 E HE SQLiteServer.seed_sql
               (concat SQLiteServer.seed_rows) s seed_sql_words eq_refl).
    unfold SQLite.insert_patients. rewrite Ht. reflexivity. }
  assert (Hans : run E SQLiteServer.handleSeed s
                 = (sendJSON 400
                      (error_obj (lit "SQLITE_ERROR: no such table: patient")), s)).
  { unfold SQLiteServer.handleSeed. rewrite run_bind.
    unfold SQLiteServer.seed. cbn [run]. rewrite Hrun. reflexivity. }
  split; [|split; [exact Hans|split]].
  - unfold SQLiteServer.handleSeed, SQLiteServer.seed, mbind, Prog_bind.
    cbn [bind calls]. rewrite Hrun. reflexivity.
  - unfold Server2.handlePostSeed. rewrite run_bind.
    unfold Server2.seed. cbn [run].
    change Server2.seed_sql with SQLiteServer.seed_sql.
    change (concat Server2.seed_rows) with (concat SQLiteServer.seed_rows).
    rewrite Hrun. reflexivity.
  - rewrite Hans. cbn [snd]. unfold has_patient_table. rewrite Ht.
    intros [t H]. discriminate H.
Qed.

Lemma seed_needs_the_table_witness :
  SQLite.Faithful SQLite.reference_engine
  /\ tables SQLite.empty_store !! "patient"%string = None
  /\ run SQLite.reference_engine SQLiteServer.handleSeed SQLite.empty_store
     = (sendJSON 400 (error_obj (lit "SQLITE_ERROR: no such table: patient")),
        SQLite.empty_store).
Proof.
  split; [exact reference_engine_faithful|]. split; [reflexivity|].
  exact (proj1 (proj2 (seed_needs_the_table (lit "*") SQLite.reference_engine
                         SQLite.empty_store reference_engine_faithful eq_refl))).
Defined.

(** X16. The seed is not idempotent. With an engine that reads its
    INSERT the way SQLite does, every seed adds the four sample records
    again, under four new keys: after two seeds in a row the table holds
    its former rows, then the four records with the keys after the
    sequence, then the four records again with the next four keys, and
    each of the two answers says [inserted: 4]. *)
Theorem seed_twice_doubles_the_records
    (E : Engine) (s : Store) (seq : Z) (old : list (list SqlValue)) :
  SQLite.Faithful E ->
  tables s !! "patient"%string = Some (mkTable SQLite.patient_columns seq old) ->
  let four := SQLite.bind_pairs 4 (concat SQLiteServer.seed_rows) in
  let done := JObj [(lit "ok", JBool true);
                    (lit "message", JStr (lit "Database seeded successfully."));
                    (lit "inserted", JNum 4)] in
  run E SQLiteServer.handleSeed s = (sendJSON 200 done, seeded s)
  /\ run E SQLiteServer.handleSeed (seeded s) = (sendJSON 200 done, seeded (seeded s))
  /\ tables (seeded (seeded s)) !! "patient"%string
     = Some (mkTable SQLite.patient_columns (seq + 8)
               (old ++ SQLite.keyed (seq + 1) four ++ SQLite.keyed (seq + 5) four))
  /\ seeded (seeded s) <> seeded s.
Proof.
  intros HE Ht four done.
  destruct (insert_sample s seq old Ht) as [Hins Hseeded].
  destruct (insert_sample (seeded s) (seq + 4) _ Hseeded) as [Hins2 Hseeded2].
  assert (Hrun : forall s0 seq0 old0,
             tables s0 !! "patient"%string
             = Some (mkTable SQLite.patient_columns seq0 old0) ->
             run E SQLiteServer.handleSeed s0 = (sendJSON 200 done, seeded s0)).
  { intros s0 seq0 old0 H0. destruct (insert_sample s0 seq0 old0 H0) as [Hi _].
    unfold SQLiteServer.handleSeed. rewrite run_bind.
    unfold SQLiteServer.seed. cbn [run].
    rewrite (SQLite.runs_insert4 E HE SQLiteServer.seed_sql
               (concat SQLiteServer.seed_rows) s0 seed_sql_words eq_refl), Hi.
    reflexivity. }
  assert (Htab : tables (seeded (seeded s)) !! "patient"%string
                 = Some (mkTable SQLite.patient_columns (seq + 8)
                           (old ++ SQLite.keyed (seq + 1) four
                                ++ SQLite.keyed (seq + 5) four))).
  { rewrite Hseeded2. f_equal. f_equal; [lia|].
    rewrite <- app_assoc. do 2 f_equal. f_equal. lia. }
  split; [exact (Hrun s seq old Ht)|].
  split; [exact (Hrun (seeded s) _ _ Hseeded)|].
  split; [exact Htab|].
  intros Heq. rewrite Heq, Hseeded in Htab. injection Htab as Hseq _. lia.
Qed.

Lemma seed_twice_doubles_the_records_witness :
  SQLite.Faithful SQLite.reference_engine
  /\ tables after_bootstrap !! "patient"%string
     = Some (mkTable SQLite.patient_columns 0 [])
  /\ seeded (seeded after_bootstrap) <> seeded after_bootstrap.
Proof.
  assert (Ht : tables after_bootstrap !! "patient"%string
               = Some (mkTable SQLite.patient_columns 0 []))
    by (vm_compute; reflexivity).
  split; [exact reference_engine_faithful|]. split; [exact Ht|].
  exact (proj2 (proj2 (proj2 (seed_twice_doubles_the_records SQLite.reference_engine
                                after_bootstrap 0 [] reference_engine_faithful Ht)))).
Defined.

(* ================================================================== *)
(** ** The two servers, side by side *)
(* ================================================================== *)

Section SameAnswers.

Variable E : Engine.
Hypothesis HE : SQLite.Faithful E.
Variable s : Store.
Hypothesis Hs : has_patient_table s.

Lemma get_same pathname :
  run E (SQLiteServer.handleGetSql pathname) s
  = run E (Server2.handleGetSql (lit "*") pathname) s.
Proof using HE Hs.
  unfold SQLiteServer.handleGetSql, Server2.handleGetSql.
  destruct (length (path_parts pathname) <? 4)%nat; [reflexivity|].
  destruct (decodeURIComponent _) as [sql|]; [|reflexivity].
  destruct (Server2_predicates sql) as (-> & -> & _ & ->).
  destruct (Sql.isForbidden sql); [reflexivity|].
  destruct (Sql.isSelect sql); [|reflexivity].
  destruct (Sql.touchesPatient sql); [|reflexivity].
  cbn [negb]. rewrite !run_bind, run_runSelect. unfold select_outcome.
  rewrite (run_create E HE _ s ensure_sql_words), (ensured_when_present s Hs).
  unfold Server2.runSelect. cbn [run].
  destruct (engine_all E sql s) as [[e|rows] s2]; reflexivity.
Qed.

Lemma post_same b :
  run E (SQLiteServer.handlePostSql b) s
  = run E (Server2.handlePostSql (lit "*") b) s.
Proof using HE Hs.
  unfold SQLiteServer.handlePostSql, Server2.handlePostSql.
  destruct b as [m| |sql]; try reflexivity.
  destruct (negb (truthy (trim sql))); [reflexivity|].
  destruct (Server2_predicates sql) as (-> & _ & -> & ->).
  destruct (Sql.isForbidden sql); [reflexivity|].
  destruct (Sql.isInsert sql); [|reflexivity].
  destruct (Sql.touchesPatient sql); [|reflexivity].
  cbn [negb]. rewrite !run_bind, run_runInsert. unfold insert_outcome.
  rewrite (run_create E HE _ s ensure_sql_words), (ensured_when_present s Hs).
  unfold Server2.runInsert. cbn [run].
  destruct (engine_run E sql [] s) as [[e|this] s2]; reflexivity.
Qed.

End SameAnswers.

(** X17. The class-based server answers like the earlier one. With an
    engine that reads CREATE TABLE IF NOT EXISTS the way SQLite does, on
    a store that has the patient table, and with an asterisk as the
    allowed origin, every request other than POST /api/v1/seed gets the
    same answer from both and leaves the same store: the table check
    before each statement changes nothing there. The seed leaves the
    same store in both, whatever the engine; only its answer differs. *)
Theorem servers_answer_alike (E : Engine) (s : Store) (req : Request) :
  SQLite.Faithful E ->
  has_patient_table s ->
  (jsstring_eqb (method req) (lit "POST")
   && jsstring_eqb (pathname req) (lit "/api/v1/seed") = false ->
   run E (SQLiteServer.handleRequest req) s = run E (Server2.start (lit "*") req) s)
  /\ snd (run E (SQLiteServer.handleRequest req) s)
     = snd (run E (Server2.start (lit "*") req) s).
Proof.
  intros HE Hs.
  assert (Hseed : snd (run E SQLiteServer.handleSeed s)
                  = snd (run E (Server2.handlePostSeed (lit "*")) s)).
  { unfold SQLiteServer.handleSeed, Server2.handlePostSeed. rewrite !run_bind.
    unfold SQLiteServer.seed, Server2.seed. cbn [run].
    change Server2.seed_sql with SQLiteServer.seed_sql.
    change (concat Server2.seed_rows) with (concat SQLiteServer.seed_rows).
    destruct (engine_run E SQLiteServer.seed_sql _ s) as [[e|this] s1]; reflexivity. }
  unfold SQLiteServer.handleRequest, Server2.start.
  destruct (jsstring_eqb (method req) (lit "OPTIONS")); [split; reflexivity|].
  destruct (jsstring_eqb (method req) (lit "GET")
            && startsWith (pathname req) (lit "/api/v1/sql/")).
  { rewrite (get_same E HE s Hs). split; reflexivity. }
  destruct (jsstring_eqb (method req) (lit "POST")
            && jsstring_eqb (pathname req) (lit "/api/v1/sql")).
  { rewrite (post_same E HE s Hs). split; reflexivity. }
  destruct (jsstring_eqb (method req) (lit "POST")
            && jsstring_eqb (pathname req) (lit "/api/v1/seed")).
  { split; [discriminate | exact Hseed]. }
  destruct (jsstring_eqb (method req) (lit "GET")
            && jsstring_eqb (pathname req) (lit "/")); split; reflexivity.
Qed.

Lemma servers_answer_alike_witness :
  SQLite.Faithful SQLite.reference_engine
  /\ has_patient_table after_bootstrap
  /\ run SQLite.reference_engine
       (SQLiteServer.handleRequest
          (mkRequest (lit "GET") select_all_path BodyNotJson)) after_bootstrap
     = run SQLite.reference_engine
         (Server2.start (lit "*")
            (mkRequest (lit "GET") select_all_path BodyNotJson)) after_bootstrap.
Proof.
  assert (Ht : has_patient_table after_bootstrap).
  { exists (mkTable SQLite.patient_columns 0 []). vm_compute. reflexivity. }
  split; [exact reference_engine_faithful|]. split; [exact Ht|].
  apply (servers_answer_alike SQLite.reference_engine after_bootstrap
           (mkRequest (lit "GET") select_all_path BodyNotJson)
           reference_engine_faithful Ht).
  reflexivity.
Defined.

(** ** White space around a statement *)

Lemma word_char_last_blank ws l :
  blank ws -> word_char_opt (last (ws ++ l)) = word_char_opt (last l).
Proof.
  intros Hb. rewrite last_app. destruct (last l) as [y|] eqn:El; [reflexivity|].
  destruct ws as [|x ws] using rev_ind; [reflexivity|].
  rewrite last_snoc. simpl. apply Forall_app in Hb as [_ Hx].
  apply white_space_not_word. apply (Forall_inv Hx).
Qed.

Lemma word_char_head_blank ws l :
  blank ws -> word_char_opt (head (l ++ ws)) = word_char_opt (head l).
Proof.
  intros Hb. destruct l as [|y l]; [|reflexivity].
  destruct ws as [|x ws]; [reflexivity|]. simpl.
  apply white_space_not_word. apply (Forall_inv Hb).
Qed.

(** A word that lies in [ws ++ t] after [pre] lies in [t], when [ws] is
    blank. *)
Lemma word_after_blank ws t pre w post :
  blank ws -> w <> [] -> Forall (fun c => isWordChar c = true) w ->
  pre ++ w ++ post = ws ++ t ->
  exists l, pre = ws ++ l /\ t = l ++ w ++ post.
Proof.
  intros Hb Hne Hw E. apply List.app_eq_app in E as [l [[-> ->]|[-> E]]].
  - exists l. split; reflexivity.
  - destruct l as [|x l].
    + exists []. rewrite !app_nil_r. simpl in E. simpl. split; [reflexivity | congruence].
    + exfalso. destruct w as [|y w]; [congruence|]. injection E as -> E.
      apply Forall_app in Hb as [_ Hb]. apply Forall_inv in Hb.
      apply Forall_inv in Hw. apply white_space_not_word in Hb. congruence.
Qed.

Lemma word_before_blank ws t pre w post :
  blank ws -> w <> [] -> Forall (fun c => isWordChar c = true) w ->
  (pre ++ w) ++ post = t ++ ws ->
  exists l, post = l ++ ws /\ t = pre ++ w ++ l.
Proof.
  intros Hb Hne Hw E. apply List.app_eq_app in E as [l [[E ->]|[-> ->]]].
  - destruct l as [|x l] using rev_ind.
    + exists []. rewrite app_nil_r in E. simpl. rewrite app_nil_r.
      split; [reflexivity | congruence].
    + exfalso. clear IHl. destruct w as [|y w] using rev_ind; [congruence|].
      clear IHw. rewrite !app_assoc in E. apply app_inj_tail in E as [_ ->].
      apply Forall_app in Hb as [Hb _]. apply Forall_app in Hb as [_ Hb].
      apply Forall_inv in Hb. apply Forall_app in Hw as [_ Hw].
      apply Forall_inv in Hw. apply white_space_not_word in Hb. congruence.
  - exists l. rewrite <- app_assoc. split; reflexivity.
Qed.

Lemma occurs_as_word_padded kw ws1 ws2 t :
  kw <> [] -> forallb is_lower kw = true -> blank ws1 -> blank ws2 ->
  occurs_as_word kw (ws1 ++ t ++ ws2) <-> occurs_as_word kw t.
Proof.
  intros Hne Hlow Hb1 Hb2. split.
  - intros (pre & w & post & E & Hci & Hf & Ha).
    pose proof (same_letters_word_chars _ _ Hci Hlow) as Hw.
    assert (Hwne : w <> []).
    { destruct w; [destruct kw; [congruence | discriminate] | discriminate]. }
    symmetry in E. apply (word_after_blank ws1) in E as (l & -> & E); try assumption.
    rewrite app_assoc in E. symmetry in E.
    apply (word_before_blank ws2) in E as (l' & -> & ->); try assumption.
    exists l, w, l'. split; [reflexivity|]. split; [exact Hci|]. split.
    + apply free_before_spec. apply free_before_spec in Hf.
      rewrite word_char_last_blank in Hf by assumption. exact Hf.
    + apply free_after_spec. apply free_after_spec in Ha.
      rewrite word_char_head_blank in Ha by assumption. exact Ha.
  - intros (pre & w & post & -> & Hci & Hf & Ha).
    exists (ws1 ++ pre), w, (post ++ ws2). split.
    { rewrite <- !app_assoc. reflexivity. }
    split; [exact Hci|]. split.
    + apply free_before_spec. rewrite word_char_last_blank by assumption.
      apply free_before_spec. exact Hf.
    + apply free_after_spec. rewrite word_char_head_blank by assumption.
      apply free_after_spec. exact Ha.
Qed.

Lemma begins_with_word_padded kw ws1 ws2 t :
  kw <> [] -> forallb is_lower kw = true -> blank ws1 -> blank ws2 ->
  begins_with_word kw (ws1 ++ t ++ ws2) <-> begins_with_word kw t.
Proof.
  intros Hne Hlow Hb1 Hb2. split.
  - intros (ws & w & post & E & Hb & Hci & Ha).
    pose proof (same_letters_word_chars _ _ Hci Hlow) as Hw.
    assert (Hwne : w <> []).
    { destruct w; [destruct kw; [congruence | discriminate] | discriminate]. }
    symmetry in E. apply (word_after_blank ws1) in E as (l & -> & E); try assumption.
    rewrite app_assoc in E. symmetry in E.
    apply (word_before_blank ws2) in E as (l' & -> & ->); try assumption.
    exists l, w, l'. split; [reflexivity|]. split.
    { apply blank_app in Hb. apply Hb. }
    split; [exact Hci|].
    apply free_after_spec. apply free_after_spec in Ha.
    rewrite word_char_head_blank in Ha by assumption. exact Ha.
  - intros (ws & w & post & -> & Hb & Hci & Ha).
    exists (ws1 ++ ws), w, (post ++ ws2). split.
    { rewrite <- !app_assoc. reflexivity. }
    split; [apply blank_app; split; assumption|].
    split; [exact Hci|].
    apply free_after_spec. rewrite word_char_head_blank by assumption.
    apply free_after_spec. exact Ha.
Qed.

Lemma same_truth (a b : bool) : (a = true <-> b = true) -> a = b.
Proof. destruct a, b; intuition congruence. Qed.

(** X18. White space before and after a statement changes none of the
    four predicates, in either server, and so not its classification on
    either channel. *)
Theorem padding_keeps_the_classification (ws1 ws2 text : list N) :
  blank ws1 -> blank ws2 ->
  Sql.isForbidden (ws1 ++ text ++ ws2) = Sql.isForbidden text
  /\ Sql.isSelect (ws1 ++ text ++ ws2) = Sql.isSelect text
  /\ Sql.isInsert (ws1 ++ text ++ ws2) = Sql.isInsert text
  /\ Sql.touchesPatient (ws1 ++ text ++ ws2) = Sql.touchesPatient text
  /\ Server2.isForbidden (ws1 ++ text ++ ws2) = Server2.isForbidden text
  /\ Server2.isSelect (ws1 ++ text ++ ws2) = Server2.isSelect text
  /\ Server2.isInsert (ws1 ++ text ++ ws2) = Server2.isInsert text
  /\ Server2.touchesPatient (ws1 ++ text ++ ws2) = Server2.touchesPatient text
  /\ (forall i, classify (ws1 ++ text ++ ws2) i = classify text i).
Proof.
  intros Hb1 Hb2.
  assert (Hf : Sql.isForbidden (ws1 ++ text ++ ws2) = Sql.isForbidden text).
  { apply same_truth. rewrite !isForbidden_iff. split.
    - intros (kw & Hin & Ho). exists kw. split; [exact Hin|].
      pose proof forbidden_keywords_are_words as Hk.
      rewrite List.Forall_forall in Hk. destruct (Hk kw Hin) as [Hne Hlow].
      exact (proj1 (occurs_as_word_padded kw ws1 ws2 text Hne Hlow Hb1 Hb2) Ho).
    - intros (kw & Hin & Ho). exists kw. split; [exact Hin|].
      pose proof forbidden_keywords_are_words as Hk.
      rewrite List.Forall_forall in Hk. destruct (Hk kw Hin) as [Hne Hlow].
      exact (proj2 (occurs_as_word_padded kw ws1 ws2 text Hne Hlow Hb1 Hb2) Ho). }
  assert (Hs : Sql.isSelect (ws1 ++ text ++ ws2) = Sql.isSelect text).
  { apply same_truth. rewrite !isSelect_iff.
    apply begins_with_word_padded; [discriminate | reflexivity | assumption..]. }
  assert (Hi : Sql.isInsert (ws1 ++ text ++ ws2) = Sql.isInsert text).
  { apply same_truth. rewrite !isInsert_iff.
    apply begins_with_word_padded; [discriminate | reflexivity | assumption..]. }
  assert (Ht : Sql.touchesPatient (ws1 ++ text ++ ws2) = Sql.touchesPatient text).
  { apply same_truth. rewrite !touchesPatient_iff.
    apply occurs_as_word_padded; [discriminate | reflexivity | assumption..]. }
  repeat (split; [assumption|]).
  intros i. unfold classify, intent_shape. rewrite Hf, Ht.
  destruct i; [rewrite Hs | rewrite Hi]; reflexivity.
Qed.

Lemma padding_keeps_the_classification_witness :
  blank (lit "  ") /\ blank [10%N]
  /\ classify (lit "  " ++ lit "select * from patient" ++ [10%N]) Read
     = classify (lit "select * from patient") Read.
Proof.
  assert (H1 : blank (lit "  ")) by (repeat constructor).
  assert (H2 : blank [10%N]) by (repeat constructor).
  split; [exact H1|]. split; [exact H2|].
  apply (padding_keeps_the_classification _ _ (lit "select * from patient") H1 H2).
Defined.
